(** * MiniBancoFinal: the account ledger and its registry

    A shallow embedding of [MiniBancoFinal.py]: the classes [Cuenta],
    [CuentaAhorro] and [CuentaCorriente], the global dictionary [cuentas]
    and the two methods of [BancaApp] that fill it
    ([load_accounts_from_db] and [_crear_cuenta]).

    - Python [float] is IEEE 754 binary64: Rocq's primitive [float].
    - Python [str] is a sequence of Unicode code points: [list N].
    - Objects live in a store indexed by references, so that two names
      bound to the same object observe each other's updates.
    - Methods are computations in a state-and-exception monad: an
      exception leaves behind whatever had been written before it. *)

From Stdlib Require Import ZArith NArith List String Ascii Bool Lia Floats.
From Stdlib Require Import DecimalPos DecimalN.
From stdpp Require Import base option list gmap.
Import ListNotations.

Local Open Scope Z_scope.
Local Open Scope list_scope.

(** ** Python strings *)

Module PyStr.

Abbreviation str := (list N).

(** Code points of a UTF-8 byte sequence (the encoding of the source
    file); malformed input is dropped. *)
Fixpoint utf8_decode (fuel : nat) (bs : list N) : str :=
  match fuel with
  | O => []
  | S fuel =>
    match bs with
    | [] => []
    | b0 :: r0 =>
      if (b0 <? 128)%N then b0 :: utf8_decode fuel r0
      else if (b0 <? 224)%N then
        match r0 with
        | b1 :: r1 => ((b0 - 192) * 64 + (b1 - 128))%N :: utf8_decode fuel r1
        | _ => []
        end
      else if (b0 <? 240)%N then
        match r0 with
        | b1 :: b2 :: r2 =>
          ((b0 - 224) * 4096 + (b1 - 128) * 64 + (b2 - 128))%N
            :: utf8_decode fuel r2
        | _ => []
        end
      else
        match r0 with
        | b1 :: b2 :: b3 :: r3 =>
          ((b0 - 240) * 262144 + (b1 - 128) * 4096
             + (b2 - 128) * 64 + (b3 - 128))%N :: utf8_decode fuel r3
        | _ => []
        end
    end
  end.

(** A string literal of the source. *)
Definition lit (s : string) : str :=
  let bs := map N_of_ascii (list_ascii_of_string s) in
  utf8_decode (length bs) bs.

(** [str.isspace] on one code point, as [str.strip()] uses it. *)
Definition is_space (c : N) : bool :=
  ((9 <=? c) && (c <=? 13) || (28 <=? c) && (c <=? 32)
   || (c =? 133) || (c =? 160) || (c =? 5760)
   || (8192 <=? c) && (c <=? 8202)
   || (c =? 8232) || (c =? 8233) || (c =? 8239) || (c =? 8287)
   || (c =? 12288))%N.

Fixpoint lstrip (s : str) : str :=
  match s with
  | c :: r => if is_space c then lstrip r else s
  | [] => []
  end.

Definition rstrip (s : str) : str := rev (lstrip (rev s)).

(** [s.strip()] *)
Definition strip (s : str) : str := rstrip (lstrip s).

(** Decimal digits of a natural number, most significant first. *)
Fixpoint uint_chars (d : Decimal.uint) : str :=
  match d with
  | Decimal.Nil => []
  | Decimal.D0 d => 48%N :: uint_chars d
  | Decimal.D1 d => 49%N :: uint_chars d
  | Decimal.D2 d => 50%N :: uint_chars d
  | Decimal.D3 d => 51%N :: uint_chars d
  | Decimal.D4 d => 52%N :: uint_chars d
  | Decimal.D5 d => 53%N :: uint_chars d
  | Decimal.D6 d => 54%N :: uint_chars d
  | Decimal.D7 d => 55%N :: uint_chars d
  | Decimal.D8 d => 56%N :: uint_chars d
  | Decimal.D9 d => 57%N :: uint_chars d
  end.

Definition decimal (n : N) : str := uint_chars (N.to_uint n).

End PyStr.
Import PyStr.

(** ** Python floats *)

Module PyFloat.

(** [x <= y], [x > y] and [x < y] on floats: all three are false as
    soon as one side is NaN. *)
Definition le (x y : float) : bool := PrimFloat.leb x y.
Definition gt (x y : float) : bool := PrimFloat.ltb y x.
Definition lt (x y : float) : bool := PrimFloat.ltb x y.

(** Integer constants met in float expressions ([0], [12]). *)
Definition of_int (n : Z) : float := SF2Prim (binary_normalize prec emax n 0 false).

(** Round half to even of [m * 2^e * 100] for [m > 0]. *)
Definition centimos (m : positive) (e : Z) : Z :=
  match e with
  | Zneg p =>
    let num := Zpos m * 100 in
    let den := Z.pow_pos 2 p in
    let q := num / den in
    let r := num mod den in
    match 2 * r ?= den with
    | Lt => q
    | Gt => q + 1
    | Eq => if Z.even q then q else q + 1
    end
  | _ => Zpos m * 2 ^ e * 100
  end.

Definition dos_digitos (n : Z) : str :=
  decimal (Z.to_N (n / 10)) ++ decimal (Z.to_N (n mod 10)).

Definition signo (s : bool) : str := if s then lit "-" else [].

(** The format specification [:.2f]: the exact binary value rounded to
    two decimals, ties to even; [inf] and [nan] are spelt out. *)
Definition format_2f (x : float) : str :=
  match Prim2SF x with
  | S754_nan => lit "nan"
  | S754_infinity s => signo s ++ lit "inf"
  | S754_zero s => signo s ++ lit "0.00"
  | S754_finite s m e =>
    let c := centimos m e in
    signo s ++ decimal (Z.to_N (c / 100)) ++ lit "." ++ dos_digitos (c mod 100)
  end.

End PyFloat.
Import PyFloat.

Set Warnings "-inexact-float".

(** ** Objects, exceptions and the world *)

(** The three classes of the module. *)
Inductive clase := Cls_Cuenta | Cls_CuentaAhorro | Cls_CuentaCorriente.

(** A row of [historial]: the tuple [(fecha, tipo, monto_str)]. *)
Definition transaccion : Type := str * str * str.

(** The attributes of an instance, with its class. *)
Record Cuenta := {
  clase_de : clase;
  numero : str;
  titular : str;
  _saldo : float;
  historial : list transaccion
}.

Definition con_saldo (x : float) (c : Cuenta) : Cuenta :=
  {| clase_de := clase_de c; numero := numero c; titular := titular c;
     _saldo := x; historial := historial c |}.

Definition con_historial (h : list transaccion) (c : Cuenta) : Cuenta :=
  {| clase_de := clase_de c; numero := numero c; titular := titular c;
     _saldo := _saldo c; historial := h |}.

(** Rows of the two tables of [banco.db], in insertion order. *)
Record fila_cuenta := {
  f_numero : str; f_titular : str; f_saldo : float; f_tipo : str
}.

Record fila_historial := {
  h_numero_cuenta : str; h_fecha : str; h_tipo_transaccion : str; h_monto_str : str
}.

Record DB := {
  tabla_cuentas : list fila_cuenta;
  tabla_historial : list fila_historial
}.

Inductive exn :=
| ValueError (msg : str)
| UnboundLocalError (variable : str)
| IntegrityError (msg : str)
| ReferenciaInvalida (r : nat).

(** What [messagebox] has shown. *)
Inductive dialogo :=
| showerror (titulo mensaje : str)
| showinfo (titulo mensaje : str).

(** References to instances. *)
Abbreviation ref := nat.

Record Mundo := {
  objs : gmap ref Cuenta;       (* the instances *)
  cuentas : gmap str ref;       (* the global dictionary [cuentas] *)
  db_conn : option DB;           (* [self.db_conn] and what it holds *)
  reloj : nat -> str;            (* what [datetime.now()] formats to, reading by reading *)
  tics : nat;                    (* readings of the clock so far *)
  dialogos : list dialogo        (* message boxes, oldest first *)
}.

Definition con_objs (o : gmap ref Cuenta) (w : Mundo) : Mundo :=
  {| objs := o; cuentas := cuentas w; db_conn := db_conn w;
     reloj := reloj w; tics := tics w; dialogos := dialogos w |}.

Definition con_cuentas (d : gmap str ref) (w : Mundo) : Mundo :=
  {| objs := objs w; cuentas := d; db_conn := db_conn w;
     reloj := reloj w; tics := tics w; dialogos := dialogos w |}.

Definition con_db (d : option DB) (w : Mundo) : Mundo :=
  {| objs := objs w; cuentas := cuentas w; db_conn := d;
     reloj := reloj w; tics := tics w; dialogos := dialogos w |}.

Definition con_tics (n : nat) (w : Mundo) : Mundo :=
  {| objs := objs w; cuentas := cuentas w; db_conn := db_conn w;
     reloj := reloj w; tics := n; dialogos := dialogos w |}.

Definition con_dialogos (d : list dialogo) (w : Mundo) : Mundo :=
  {| objs := objs w; cuentas := cuentas w; db_conn := db_conn w;
     reloj := reloj w; tics := tics w; dialogos := d |}.

(** ** The monad of statements *)

Inductive res (A : Type) :=
| Ret (a : A)
| Raise (e : exn).
Arguments Ret {A} a.
Arguments Raise {A} e.

Definition M (A : Type) : Type := Mundo -> res A * Mundo.

Definition ret {A} (a : A) : M A := fun w => (Ret a, w).

Definition raise {A} (e : exn) : M A := fun w => (Raise e, w).

Definition bind {A B} (m : M A) (k : A -> M B) : M B :=
  fun w =>
    match m w with
    | (Ret a, w1) => k a w1
    | (Raise e, w1) => (Raise e, w1)
    end.

(** [try: m except ...: h] *)
Definition try_except {A} (m : M A) (h : exn -> M A) : M A :=
  fun w =>
    match m w with
    | (Ret a, w1) => (Ret a, w1)
    | (Raise e, w1) => h e w1
    end.

Declare Scope py_scope.
Delimit Scope py_scope with py.
Notation "x <- m ;; k" := (bind m (fun x => k))
  (at level 100, m at next level, right associativity) : py_scope.
Notation "m ;; k" := (bind m (fun _ => k))
  (at level 100, right associativity) : py_scope.
Local Open Scope py_scope.

(** Reading and writing an instance through a reference. *)
Definition leer (r : ref) : M Cuenta :=
  fun w =>
    match objs w !! r with
    | Some c => (Ret c, w)
    | None => (Raise (ReferenciaInvalida r), w)
    end.

Definition escribir (r : ref) (c : Cuenta) : M unit :=
  fun w => (Ret tt, con_objs (<[r := c]> (objs w)) w).

(** [datetime.now().strftime('%Y-%m-%d %H:%M:%S')] *)
Definition ahora : M str :=
  fun w => (Ret (reloj w (tics w)), con_tics (S (tics w)) w).

(** ** class Cuenta *)

(** [Cuenta.__init__], reached through any of the three classes. *)
Definition nueva (k : clase) (numero titular : str) (saldo_inicial : float) : M ref :=
  fun w =>
    let r := fresh (dom (objs w)) in
    (Ret r,
     con_objs (<[r := {| clase_de := k; numero := numero; titular := titular;
                         _saldo := saldo_inicial; historial := [] |}]> (objs w)) w).

Definition _registrar_transaccion (self : ref) (tipo monto_str : str) : M unit :=
  fecha <- ahora ;;
  c <- leer self ;;
  escribir self (con_historial (historial c ++ [(fecha, tipo, monto_str)]) c).

Definition msg_depositar : str :=
  lit "El monto a depositar debe ser un valor positivo. ¡Inténtalo de nuevo!".

Definition msg_retirar : str :=
  lit "El monto a retirar debe ser un valor positivo. ¡Verifica el valor ingresado!".

Definition msg_saldo_insuficiente (saldo monto : float) : str :=
  lit "¡Saldo insuficiente! Tu saldo actual es S/. " ++ format_2f saldo
    ++ lit ". No puedes retirar S/. " ++ format_2f monto ++ lit ".".

Definition depositar (self : ref) (monto : float) : M unit :=
  if le monto (of_int 0) then raise (ValueError msg_depositar)
  else
    c <- leer self ;;
    escribir self (con_saldo (PrimFloat.add (_saldo c) monto) c) ;;
    _registrar_transaccion self (lit "Depósito") (lit "+S/. " ++ format_2f monto).

Definition retirar (self : ref) (monto : float) : M unit :=
  if le monto (of_int 0) then raise (ValueError msg_retirar)
  else
    c <- leer self ;;
    if gt monto (_saldo c)
    then raise (ValueError (msg_saldo_insuficiente (_saldo c) monto))
    else
      escribir self (con_saldo (PrimFloat.sub (_saldo c) monto) c) ;;
      _registrar_transaccion self (lit "Retiro") (lit "-S/. " ++ format_2f monto).

Definition transferir (self destino : ref) (monto : float) : M unit :=
  retirar self monto ;;
  depositar destino monto ;;
  d <- leer destino ;;
  _registrar_transaccion self (lit "Transferencia a " ++ numero d)
    (lit "-S/. " ++ format_2f monto) ;;
  s <- leer self ;;
  _registrar_transaccion destino (lit "Transferencia de " ++ numero s)
    (lit "+S/. " ++ format_2f monto).

(** [CuentaAhorro.aplicar_interes] and [CuentaCorriente.aplicar_interes]
    differ by the annual rate and the label only. *)
Definition interes_con (tasa_anual : float) (etiqueta : str) (self : ref) : M unit :=
  let tasa_mensual := PrimFloat.div tasa_anual (of_int 12) in
  c <- leer self ;;
  let interes_ganado := PrimFloat.mul (_saldo c) tasa_mensual in
  escribir self (con_saldo (PrimFloat.add (_saldo c) interes_ganado) c) ;;
  _registrar_transaccion self etiqueta (lit "+S/. " ++ format_2f interes_ganado).

(** [Cuenta.aplicar_interes]: [pass]. *)
Definition Cuenta_aplicar_interes (self : ref) : M unit := ret tt.

(** [CuentaAhorro.aplicar_interes]: 1% a year. *)
Definition CuentaAhorro_aplicar_interes (self : ref) : M unit :=
  interes_con 0.01%float (lit "Interés (Ahorro)") self.

(** [CuentaCorriente.aplicar_interes]: 0.05% a year. *)
Definition CuentaCorriente_aplicar_interes (self : ref) : M unit :=
  interes_con 0.0005%float (lit "Interés (Corriente)") self.

(** [cuenta.aplicar_interes()]: the method of the class of the instance. *)
Definition aplicar_interes (self : ref) : M unit :=
  c <- leer self ;;
  match clase_de c with
  | Cls_Cuenta => Cuenta_aplicar_interes self
  | Cls_CuentaAhorro => CuentaAhorro_aplicar_interes self
  | Cls_CuentaCorriente => CuentaCorriente_aplicar_interes self
  end.

(** [Cuenta.saldo] *)
Definition saldo (self : ref) : M float :=
  c <- leer self ;; ret (_saldo c).

(** ** Sequences of ledger operations *)

(** One call on the ledger, as [_realizar_operacion] issues them. *)
Inductive operacion :=
| Depositar (self : ref) (monto : float)
| Retirar (self : ref) (monto : float)
| Transferir (self destino : ref) (monto : float)
| AplicarInteres (self : ref).

Definition ejecutar (o : operacion) : M unit :=
  match o with
  | Depositar self monto => depositar self monto
  | Retirar self monto => retirar self monto
  | Transferir self destino monto => transferir self destino monto
  | AplicarInteres self => aplicar_interes self
  end.

(** The caller catches what an operation raises and goes on with the
    next one, in the world the failed operation left. *)
Fixpoint ejecutar_todas (os : list operacion) (w : Mundo) : Mundo :=
  match os with
  | [] => w
  | o :: os => ejecutar_todas os (snd (ejecutar o w))
  end.

(** ** The world after an accepted call *)

(** What one recorded transaction does to the world. *)
Definition tras_registrar (self : ref) (c : Cuenta) (tipo monto_str : str)
    (w : Mundo) : Mundo :=
  con_objs
    (<[self := con_historial (historial c ++ [(reloj w (tics w), tipo, monto_str)]) c]>
       (objs w))
    (con_tics (S (tics w)) w).

(** What an accepted deposit does to the world. *)
Definition tras_depositar (self : ref) (c : Cuenta) (monto : float) (w : Mundo) : Mundo :=
  tras_registrar self (con_saldo (PrimFloat.add (_saldo c) monto) c)
    (lit "Depósito") (lit "+S/. " ++ format_2f monto)
    (con_objs (<[self := con_saldo (PrimFloat.add (_saldo c) monto) c]> (objs w)) w).

(** What an accepted withdrawal does to the world. *)
Definition tras_retirar (self : ref) (c : Cuenta) (monto : float) (w : Mundo) : Mundo :=
  tras_registrar self (con_saldo (PrimFloat.sub (_saldo c) monto) c)
    (lit "Retiro") (lit "-S/. " ++ format_2f monto)
    (con_objs (<[self := con_saldo (PrimFloat.sub (_saldo c) monto) c]> (objs w)) w).

(** ** What the ledger may not touch *)

(** Identifier, owner and class agree. *)
Definition misma_identidad (c c' : Cuenta) : Prop :=
  numero c' = numero c /\ titular c' = titular c /\ clase_de c' = clase_de c.

(** From [w] to [w'] no instance appears or disappears, and each keeps
    its identifier, owner and class; the dictionary, the database and
    the dialogs are the same. *)
Definition marco (w w' : Mundo) : Prop :=
  (forall r : ref,
     match objs w !! r with
     | Some c => exists c', objs w' !! r = Some c' /\ misma_identidad c c'
     | None => objs w' !! r = None
     end)
  /\ cuentas w' = cuentas w /\ db_conn w' = db_conn w /\ dialogos w' = dialogos w.

Definition conserva {A} (m : M A) : Prop := forall w, marco w (snd (m w)).

(** ** Sample worlds *)

Definition reloj_de_prueba (n : nat) : str :=
  lit "2025-06-01 10:00:" ++ dos_digitos (Z.of_nat n).

Definition mundo_vacio : Mundo :=
  {| objs := ∅; cuentas := ∅;
     db_conn := Some {| tabla_cuentas := []; tabla_historial := [] |};
     reloj := reloj_de_prueba; tics := 0; dialogos := [] |}.

Definition ana : Cuenta :=
  {| clase_de := Cls_CuentaAhorro; numero := lit "1000000001";
     titular := lit "Ana Perez"; _saldo := 100%float; historial := [] |}.

Definition luis : Cuenta :=
  {| clase_de := Cls_CuentaCorriente; numero := lit "1000000002";
     titular := lit "Luis Ramos"; _saldo := 0%float; historial := [] |}.

(** Ana's account at reference 0 and Luis's at reference 1. *)
Definition mundo_dos : Mundo :=
  con_cuentas (<[numero luis := 1%nat]> (<[numero ana := 0%nat]> ∅))
    (con_objs (<[1%nat := luis]> (<[0%nat := ana]> ∅)) mundo_vacio).

(** ** Regular expressions *)

Module Re.

(** The fragment of [re] the module uses: classes of characters,
    sequence, alternative and repetition. *)
Inductive regex :=
| Nada
| Epsilon
| Clase (p : N -> bool)
| Sec (r s : regex)
| Alt (r s : regex)
| Estrella (r : regex).

(** [r+] and [r{n}] *)
Definition Mas (r : regex) : regex := Sec r (Estrella r).

Fixpoint Veces (n : nat) (r : regex) : regex :=
  match n with
  | O => Epsilon
  | S n => Sec r (Veces n r)
  end.

Fixpoint anulable (r : regex) : bool :=
  match r with
  | Nada => false
  | Epsilon => true
  | Clase _ => false
  | Sec r s => anulable r && anulable s
  | Alt r s => anulable r || anulable s
  | Estrella _ => true
  end.

(** What is left of [r] once [c] has been read. *)
Fixpoint derivada (c : N) (r : regex) : regex :=
  match r with
  | Nada => Nada
  | Epsilon => Nada
  | Clase p => if p c then Epsilon else Nada
  | Sec r s =>
    if anulable r then Alt (Sec (derivada c r) s) (derivada c s)
    else Sec (derivada c r) s
  | Alt r s => Alt (derivada c r) (derivada c s)
  | Estrella r => Sec (derivada c r) (Estrella r)
  end.

Fixpoint fullmatch (r : regex) (s : str) : bool :=
  match s with
  | [] => anulable r
  | c :: s => fullmatch (derivada c r) s
  end.

(** [re.match(r"^...$", s)] is not [None]: [$] stands at the end of
    [s], or just before a line feed that ends [s]. *)
Definition match_anclado (r : regex) (s : str) : bool :=
  fullmatch r s
  || match rev s with
     | c :: s' => (c =? 10)%N && fullmatch r (rev s')
     | [] => false
     end.

(** The words a pattern accepts. *)
Inductive acepta : regex -> str -> Prop :=
| acepta_epsilon : acepta Epsilon []
| acepta_clase (p : N -> bool) (c : N) : p c = true -> acepta (Clase p) [c]
| acepta_sec (r s : regex) (u v : str) :
    acepta r u -> acepta s v -> acepta (Sec r s) (u ++ v)
| acepta_alt_i (r s : regex) (u : str) : acepta r u -> acepta (Alt r s) u
| acepta_alt_d (r s : regex) (u : str) : acepta s u -> acepta (Alt r s) u
| acepta_estrella_0 (r : regex) : acepta (Estrella r) []
| acepta_estrella_mas (r : regex) (u v : str) :
    acepta r u -> acepta (Estrella r) v -> acepta (Estrella r) (u ++ v).

End Re.
Import Re.

(** ** class BancaApp: what fills the dictionary *)

Definition str_eqb (a b : str) : bool := bool_decide (a = b).

(** [cuentas[numero] = cuenta] *)
Definition asignar_cuentas (numero : str) (cuenta : ref) : M unit :=
  fun w => (Ret tt, con_cuentas (<[numero := cuenta]> (cuentas w)) w).

(** [numero in cuentas] *)
Definition en_cuentas (numero : str) : M bool :=
  fun w => (Ret (bool_decide (is_Some (cuentas w !! numero))), w).

(** [messagebox.showerror] and [messagebox.showinfo] *)
Definition mostrar (d : dialogo) : M unit :=
  fun w => (Ret tt, con_dialogos (dialogos w ++ [d]) w).

(** [for h_row in hist_cursor.fetchall(): cuenta.historial.append(h_row)] *)
Fixpoint anexar_historial (cuenta : ref) (hs : list fila_historial) : M unit :=
  match hs with
  | [] => ret tt
  | h :: hs =>
    c <- leer cuenta ;;
    escribir cuenta
      (con_historial (historial c ++ [(h_fecha h, h_tipo_transaccion h, h_monto_str h)]) c) ;;
    anexar_historial cuenta hs
  end.

(** [SELECT ... FROM historial WHERE numero_cuenta = ?] *)
Definition historial_de (db : DB) (numero : str) : list fila_historial :=
  filter (fun h => h_numero_cuenta h = numero) (tabla_historial db).

(** The body of the loop over the rows of [cuentas]. The local variable
    [cuenta] is unbound before the first assignment ([None]) and keeps
    its binding from one turn of the loop to the next. *)
Fixpoint cargar_filas (db : DB) (filas : list fila_cuenta) (cuenta : option ref)
  : M unit :=
  match filas with
  | [] => ret tt
  | row :: filas =>
    cuenta <- (if str_eqb (f_tipo row) (lit "Ahorro") then
                 r <- nueva Cls_CuentaAhorro (f_numero row) (f_titular row) (f_saldo row) ;;
                 ret (Some r)
               else if str_eqb (f_tipo row) (lit "Corriente") then
                 r <- nueva Cls_CuentaCorriente (f_numero row) (f_titular row) (f_saldo row) ;;
                 ret (Some r)
               else ret cuenta) ;;
    match cuenta with
    | None => raise (UnboundLocalError (lit "cuenta"))
    | Some r =>
      asignar_cuentas (f_numero row) r ;;
      anexar_historial r (historial_de db (f_numero row)) ;;
      cargar_filas db filas (Some r)
    end
  end.

Definition load_accounts_from_db : M unit :=
  fun w =>
    match db_conn w with
    | None => (Ret tt, w)
    | Some db => cargar_filas db (tabla_cuentas db) None w
    end.

(** [INSERT INTO cuentas ...]: [numero] is the primary key and [saldo]
    is [NOT NULL], which SQLite finds violated by a NaN (it binds NaN
    as NULL). *)
Definition add_new_account_to_db (cuenta : ref) : M unit :=
  fun w =>
    match db_conn w with
    | None => (Ret tt, w)
    | Some db =>
      match objs w !! cuenta with
      | None => (Raise (ReferenciaInvalida cuenta), w)
      | Some c =>
        if PrimFloat.is_nan (_saldo c) then
          (Raise (IntegrityError (lit "NOT NULL constraint failed: cuentas.saldo")), w)
        else if existsb (fun f => str_eqb (f_numero f) (numero c)) (tabla_cuentas db) then
          (Raise (IntegrityError (lit "UNIQUE constraint failed: cuentas.numero")), w)
        else
          (Ret tt,
           con_db (Some {| tabla_cuentas := tabla_cuentas db ++
                             [{| f_numero := numero c; f_titular := titular c;
                                 f_saldo := _saldo c;
                                 f_tipo := match clase_de c with
                                           | Cls_CuentaAhorro => lit "Ahorro"
                                           | _ => lit "Corriente"
                                           end |}];
                           tabla_historial := tabla_historial db |}) w)
      end
    end.

(** What the form of "Abrir Nueva Cuenta" holds when the button is pressed. *)
Record formulario := {
  entry_numero_crear : str;
  entry_titular_crear : str;
  entry_saldo_crear : str;
  tipo_cuenta : str
}.

(** The letters of the pattern for the owner: [A-Za-zÁÉÍÓÚñáéíóú]. *)
Definition letra (c : N) : bool :=
  ((65 <=? c) && (c <=? 90) || (97 <=? c) && (c <=? 122)
   || existsb (N.eqb c) [193; 201; 205; 211; 218; 241; 225; 233; 237; 243; 250])%N.

Definition espacio (c : N) : bool := (c =? 32)%N.

Section Crear.

(** The built-in [float] on a string: the number, or the message of
    the [ValueError] it raises. *)
Variable float_de_str : str -> str + float.

(** The class [\d] of a [str] pattern: the decimal digits of Unicode. *)
Variable digito : N -> bool.

(** [^\d{10}$] *)
Definition patron_numero : regex := Veces 10 (Clase digito).

(** [^[A-Za-zÁÉÍÓÚñáéíóú]+( [A-Za-zÁÉÍÓÚñáéíóú]+)+$] *)
Definition patron_titular : regex :=
  Sec (Mas (Clase letra)) (Mas (Sec (Clase espacio) (Mas (Clase letra)))).

(** The [try] block of [_crear_cuenta]. *)
Definition crear_cuenta_cuerpo (f : formulario) : M unit :=
  let numero := strip (entry_numero_crear f) in
  let titular := strip (entry_titular_crear f) in
  let saldo_str := strip (entry_saldo_crear f) in
  let tipo := tipo_cuenta f in
  if bool_decide (numero = []) then
    raise (ValueError (lit "Por favor, ingresa el (número de cuenta)."))
  else if bool_decide (titular = []) then
    raise (ValueError (lit "Por favor, ingresa el (nombre y apellido del titular)."))
  else if bool_decide (saldo_str = []) then
    raise (ValueError (lit "Por favor, ingresa el (saldo inicial)."))
  else
    match float_de_str saldo_str with
    | inl msg => raise (ValueError msg)
    | inr saldo =>
      if negb (match_anclado patron_numero numero) then
        raise (ValueError
                 (lit "El número de cuenta debe tener exactamente (10 dígitos numéricos)."))
      else if negb (match_anclado patron_titular titular) then
        raise (ValueError
                 (lit "Por favor, ingresa un (nombre y al menos un apellido válidos)."))
      else if lt saldo (of_int 0) then
        raise (ValueError (lit "El saldo inicial no puede ser negativo."))
      else
        ya_existe <- en_cuentas numero ;;
        if (ya_existe : bool) then
          raise (ValueError
                   (lit "¡Ups! Esta cuenta ya existe. Por favor, verifica el número."))
        else
          cuenta <- nueva (if str_eqb tipo (lit "Ahorro")
                           then Cls_CuentaAhorro else Cls_CuentaCorriente)
                      numero titular saldo ;;
          asignar_cuentas numero cuenta ;;
          add_new_account_to_db cuenta ;;
          mostrar (showinfo (lit "¡Éxito!")
                     (lit "¡Felicidades! La cuenta ha sido creada correctamente."))
    end.

(** [str(e)] for the exceptions of the model. *)
Definition str_de_exn (e : exn) : str :=
  match e with
  | ValueError msg => msg
  | UnboundLocalError v =>
    lit "cannot access local variable '" ++ v
      ++ lit "' where it is not associated with a value"
  | IntegrityError msg => msg
  | ReferenciaInvalida _ => []
  end.

(** [_crear_cuenta]: a [ValueError] is shown under "Error al Crear
    Cuenta", anything else under "Error Inesperado"; nothing is raised
    to the caller. *)
Definition _crear_cuenta (f : formulario) : M unit :=
  try_except (crear_cuenta_cuerpo f)
    (fun e =>
       match e with
       | ValueError msg => mostrar (showerror (lit "Error al Crear Cuenta") msg)
       | _ =>
         mostrar (showerror (lit "Error Inesperado")
                    (lit "Ocurrió un error inesperado: " ++ str_de_exn e ++ lit "."))
       end).

End Crear.

(** ** Stored kinds *)

(** The two kinds [load_accounts_from_db] knows. *)
Definition tipo_reconocido (tipo : str) : bool :=
  str_eqb tipo (lit "Ahorro") || str_eqb tipo (lit "Corriente").

Definition fila_ana : fila_cuenta :=
  {| f_numero := lit "1000000001"; f_titular := lit "Ana Perez";
     f_saldo := 100%float; f_tipo := lit "Ahorro" |}.

(** A row whose kind is neither of the two. *)
Definition fila_luis_plazo : fila_cuenta :=
  {| f_numero := lit "1000000002"; f_titular := lit "Luis Ramos";
     f_saldo := 0%float; f_tipo := lit "Plazo" |}.

Definition mundo_con_filas (filas : list fila_cuenta) : Mundo :=
  con_db (Some {| tabla_cuentas := filas;
                  tabla_historial :=
                    [{| h_numero_cuenta := lit "1000000002";
                        h_fecha := lit "2025-05-30 09:15:00";
                        h_tipo_transaccion := lit "Depósito";
                        h_monto_str := lit "+S/. 10.00" |}] |}) mundo_vacio.

(** ** What the two patterns ask for *)

(** Exactly ten decimal digits. *)
Definition diez_digitos (digito : N -> bool) (s : str) : Prop :=
  length s = 10%nat /\ Forall (fun c => digito c = true) s.

(** A word: one letter or more, and letters only. *)
Definition palabra (p : str) : Prop :=
  p <> [] /\ Forall (fun c => letra c = true) p.

(** Words joined by single spaces. *)
Fixpoint unir (ps : list str) : str :=
  match ps with
  | [] => []
  | p :: ps =>
    match ps with
    | [] => p
    | _ => p ++ 32%N :: unir ps
    end
  end.

(** Two words or more, separated by spaces. *)
Definition nombre_y_apellido (s : str) : Prop :=
  exists ps : list str, (2 <= length ps)%nat /\ Forall palabra ps /\ s = unir ps.

(** [float] on the strings of the sample forms, [\d] on ASCII. *)
Definition float_de_prueba (s : str) : str + float :=
  if str_eqb s (lit "100.00") then inr 100%float
  else if str_eqb s (lit "0") then inr 0%float
  else inl (lit "could not convert string to float").

Definition digito_ascii (c : N) : bool := ((48 <=? c) && (c <=? 57))%N.

Definition formulario_ana : formulario :=
  {| entry_numero_crear := lit "1000000001"; entry_titular_crear := lit " Ana Perez ";
     entry_saldo_crear := lit "100.00"; tipo_cuenta := lit "Ahorro" |}.

Definition formulario_corto : formulario :=
  {| entry_numero_crear := lit "12345"; entry_titular_crear := lit "Rosa Diaz";
     entry_saldo_crear := lit "100.00"; tipo_cuenta := lit "Corriente" |}.

(** A request that one of the four validations of [_crear_cuenta]
    must refuse, on the stripped fields. *)
Definition solicitud_invalida (float_de_str : str -> str + float) (digito : N -> bool)
    (f : formulario) (w : Mundo) : Prop :=
  let numero := strip (entry_numero_crear f) in
  let titular := strip (entry_titular_crear f) in
  let saldo_str := strip (entry_saldo_crear f) in
  ~ diez_digitos digito numero
  \/ ~ nombre_y_apellido titular
  \/ (exists x, float_de_str saldo_str = inr x /\ lt x (of_int 0) = true)
  \/ is_Some (cuentas w !! numero).

(** ** Values and invariants of balances *)

(** The value of [m * 2^e], scaled by [2^1074] so that every number of
    binary64 has an integer for value. *)
Definition escala (m e : Z) : Z := m * 2 ^ (e + 1074).

(** Every balance passes the test [0 <= saldo]. *)
Definition saldos_no_negativos (w : Mundo) : Prop :=
  forall (r : ref) (c : Cuenta), objs w !! r = Some c -> le (of_int 0) (_saldo c) = true.

(** The amount of the call is a number, and not an infinite one
    ([math.isfinite]). *)
Definition monto_finito (o : operacion) : Prop :=
  match o with
  | Depositar _ monto | Retirar _ monto | Transferir _ _ monto =>
    PrimFloat.is_finite monto = true
  | AplicarInteres _ => True
  end.

(** [deposit(monto)] then [withdraw(monto)] both return, the balance is
    again what it was and the history is two rows longer. *)
Definition deposito_y_retiro_restituyen (w : Mundo) (self : ref) (monto : float) : Prop :=
  exists (c : Cuenta) (w1 w2 : Mundo) (c2 : Cuenta),
    objs w !! self = Some c
    /\ depositar self monto w = (Ret tt, w1)
    /\ retirar self monto w1 = (Ret tt, w2)
    /\ objs w2 !! self = Some c2
    /\ _saldo c2 = _saldo c
    /\ length (historial c2) = (2 + length (historial c))%nat.

(** An account that holds ten cents. *)
Definition rosa : Cuenta :=
  {| clase_de := Cls_CuentaAhorro; numero := lit "1000000003";
     titular := lit "Rosa Diaz"; _saldo := 0.1%float; historial := [] |}.

Definition mundo_rosa : Mundo :=
  con_cuentas (<[numero rosa := 0%nat]> ∅) (con_objs (<[0%nat := rosa]> ∅) mundo_vacio).

(** Every row of unknown kind makes the loading raise. *)
Definition toda_fila_desconocida_falla : Prop :=
  forall (w : Mundo) (db : DB),
    db_conn w = Some db ->
    Exists (fun f => tipo_reconocido (f_tipo f) = false) (tabla_cuentas db) ->
    exists w', load_accounts_from_db w = (Raise (UnboundLocalError (lit "cuenta")), w').

(** A statement that keeps every balance [>= 0]. *)
Definition mantiene {A} (m : M A) : Prop :=
  forall w, saldos_no_negativos w -> saldos_no_negativos (snd (m w)).

(** ** Amounts read back from their text *)

(** The digit a character stands for. *)
Definition valor_digito (c : N) : option Z :=
  if ((48 <=? c) && (c <=? 57))%N then Some (Z.of_N c - 48) else None.

(** The number that digits write after [acc]. *)
Fixpoint valor_digitos (acc : Z) (s : str) : option Z :=
  match s with
  | [] => Some acc
  | c :: s =>
    match valor_digito c with
    | Some d => valor_digitos (10 * acc + d) s
    | None => None
    end
  end.

(** An amount written with two decimals, [-]digits[.]digit digit, read
    as its sign and its number of cents. *)
Definition leer_2f (t : str) : option (bool * Z) :=
  let '(s, u) := match t with
                 | 45%N :: u => (true, u)
                 | _ => (false, t)
                 end in
  match rev u with
  | c2 :: c1 :: 46%N :: entero =>
    match entero, valor_digitos 0 (rev entero), valor_digito c1, valor_digito c2 with
    | _ :: _, Some e, Some d1, Some d2 => Some (s, 100 * e + 10 * d1 + d2)
    | _, _, _, _ => None
    end
  | _ => None
  end.

(** [t] writes [x] with two decimals: [nan], [inf] with its sign, or
    the sign of [x] and the whole number of cents nearest to its
    magnitude (twice the distance from [100 * |x|] to the cents is at
    most [1], here scaled to integers). *)
Definition escribe_2f (x : float) (t : str) : Prop :=
  match Prim2SF x with
  | S754_nan => t = lit "nan"
  | S754_infinity s => t = signo s ++ lit "inf"
  | S754_zero s => leer_2f t = Some (s, 0)
  | S754_finite s m e =>
    exists c : Z,
      leer_2f t = Some (s, c)
      /\ Z.abs (200 * Zpos m * 2 ^ Z.max 0 e - 2 * c * 2 ^ Z.max 0 (- e))
         <= 2 ^ Z.max 0 (- e)
  end.

(** The exact value of a float that is a number, in units of
    [2^-1074]. *)
Definition valor (x : float) : option Z :=
  match Prim2SF x with
  | S754_zero _ => Some 0
  | S754_finite s m e => Some (if s then - escala (Zpos m) e else escala (Zpos m) e)
  | _ => None
  end.

(** The transfer returns, the source holds exactly [monto] less, the
    destination exactly [monto] more, and each history is two rows
    longer. *)
Definition transferencia_exacta (w : Mundo) (self destino : ref) (monto : float) : Prop :=
  exists (cs cd : Cuenta) (w' : Mundo) (cs' cd' : Cuenta) (vs vd vm : Z),
    objs w !! self = Some cs
    /\ objs w !! destino = Some cd
    /\ transferir self destino monto w = (Ret tt, w')
    /\ objs w' !! self = Some cs'
    /\ objs w' !! destino = Some cd'
    /\ valor (_saldo cs) = Some vs
    /\ valor (_saldo cd) = Some vd
    /\ valor monto = Some vm
    /\ valor (_saldo cs') = Some (vs - vm)
    /\ valor (_saldo cd') = Some (vd + vm)
    /\ length (historial cs') = (2 + length (historial cs))%nat
    /\ length (historial cd') = (2 + length (historial cd))%nat.

(** An account that holds ten thousand million million, where
    binary64 numbers are two apart. *)
Definition sara : Cuenta :=
  {| clase_de := Cls_CuentaCorriente; numero := lit "1000000004";
     titular := lit "Sara Luna"; _saldo := 1e16%float; historial := [] |}.

(** Sara's account at reference 0 and Luis's at reference 1. *)
Definition mundo_sara : Mundo :=
  con_cuentas (<[numero luis := 1%nat]> (<[numero sara := 0%nat]> ∅))
    (con_objs (<[1%nat := luis]> (<[0%nat := sara]> ∅)) mundo_vacio).

(** ** class BancaApp: the operations form and the history view *)

(** The kind stored for an instance: ["Ahorro" if isinstance(cuenta,
    CuentaAhorro) else "Corriente"]. *)
Definition tipo_de (c : Cuenta) : str :=
  match clase_de c with
  | Cls_CuentaAhorro => lit "Ahorro"
  | _ => lit "Corriente"
  end.

(** [UPDATE cuentas SET saldo = ? WHERE numero = ?] *)
Definition actualizar_saldo (numero : str) (saldo : float) (filas : list fila_cuenta)
  : list fila_cuenta :=
  map (fun f => if str_eqb (f_numero f) numero
                then {| f_numero := f_numero f; f_titular := f_titular f;
                        f_saldo := saldo; f_tipo := f_tipo f |}
                else f) filas.

(** [DELETE FROM historial WHERE numero_cuenta = ?], then one [INSERT]
    for each row of [cuenta.historial], in order. *)
Definition reemplazar_historial (numero : str) (historial : list transaccion)
    (filas : list fila_historial) : list fila_historial :=
  filter (fun h => h_numero_cuenta h <> numero) filas
  ++ map (fun t => {| h_numero_cuenta := numero; h_fecha := t.1.1;
                      h_tipo_transaccion := t.1.2; h_monto_str := t.2 |}) historial.

(** [update_account_in_db]: a NaN is bound as NULL, which [saldo REAL NOT
    NULL] refuses on the row it would change; nothing is written then. *)
Definition update_account_in_db (cuenta : ref) : M unit :=
  fun w =>
    match db_conn w with
    | None => (Ret tt, w)
    | Some db =>
      match objs w !! cuenta with
      | None => (Raise (ReferenciaInvalida cuenta), w)
      | Some c =>
        if PrimFloat.is_nan (_saldo c)
           && existsb (fun f => str_eqb (f_numero f) (numero c)) (tabla_cuentas db)
        then (Raise (IntegrityError (lit "NOT NULL constraint failed: cuentas.saldo")), w)
        else
          (Ret tt,
           con_db (Some {| tabla_cuentas :=
                             actualizar_saldo (numero c) (_saldo c) (tabla_cuentas db);
                           tabla_historial :=
                             reemplazar_historial (numero c) (historial c)
                               (tabla_historial db) |}) w)
      end
    end.

(** The widgets the two handlers read and write. *)
Record Ventana := {
  op_type_var : str;
  entry_numero_op : str;
  entry_monto_op : str;
  entry_destino_op : str;
  label_saldo_op : str;
  entry_historial : str;
  tree_historial : list transaccion
}.

Definition con_label_saldo (t : str) (v : Ventana) : Ventana :=
  {| op_type_var := op_type_var v; entry_numero_op := entry_numero_op v;
     entry_monto_op := entry_monto_op v; entry_destino_op := entry_destino_op v;
     label_saldo_op := t; entry_historial := entry_historial v;
     tree_historial := tree_historial v |}.

Definition con_tree (t : list transaccion) (v : Ventana) : Ventana :=
  {| op_type_var := op_type_var v; entry_numero_op := entry_numero_op v;
     entry_monto_op := entry_monto_op v; entry_destino_op := entry_destino_op v;
     label_saldo_op := label_saldo_op v; entry_historial := entry_historial v;
     tree_historial := t |}.

(** [self.limpiar_entradas(self.entry_numero_op, self.entry_monto_op,
    self.entry_destino_op)] *)
Definition limpiar_entradas_op (v : Ventana) : Ventana :=
  {| op_type_var := op_type_var v; entry_numero_op := [];
     entry_monto_op := []; entry_destino_op := [];
     label_saldo_op := label_saldo_op v; entry_historial := entry_historial v;
     tree_historial := tree_historial v |}.

(** The test [numero in cuentas] together with the [cuentas[numero]]
    that follows it on the same dictionary. *)
Definition buscar_cuenta (numero : str) : M (option ref) :=
  fun w => (Ret (cuentas w !! numero), w).

Definition actualizar_saldo_op (v : Ventana) : M Ventana :=
  let numero := strip (entry_numero_op v) in
  en_cuentas <- buscar_cuenta numero ;;
  match en_cuentas with
  | Some cuenta =>
    s <- saldo cuenta ;;
    ret (con_label_saldo (lit "Saldo actual: S/. " ++ format_2f s) v)
  | None => ret (con_label_saldo (lit "Saldo actual: ---") v)
  end.

Section Operar.

Variable float_de_str : str -> str + float.

(** [monto = float(monto_str)] *)
Definition leer_monto (monto_str : str) : M float :=
  match float_de_str monto_str with
  | inl msg => raise (ValueError msg)
  | inr monto => ret monto
  end.

(** The [try] block of [_realizar_operacion]. *)
Definition realizar_operacion_cuerpo (v : Ventana) : M Ventana :=
  let tipo_operacion := op_type_var v in
  let numero := strip (entry_numero_op v) in
  let monto_str := strip (entry_monto_op v) in
  let destino := strip (entry_destino_op v) in
  (if bool_decide (numero = []) then
     raise (ValueError (lit "Por favor, ingresa el número de cuenta."))
   else ret tt) ;;
  en_cuentas <- buscar_cuenta numero ;;
  match en_cuentas with
  | None => raise (ValueError (lit "La cuenta no fue encontrada."))
  | Some cuenta_origen =>
  (if str_eqb tipo_operacion (lit "Depósito") then
     (if bool_decide (monto_str = []) then
        raise (ValueError (lit "Ingresa el monto a depositar."))
      else ret tt) ;;
     monto <- leer_monto monto_str ;;
     depositar cuenta_origen monto ;;
     update_account_in_db cuenta_origen ;;
     s <- saldo cuenta_origen ;;
     mostrar (showinfo (lit "Depósito Exitoso")
                (lit "¡Depósito realizado! Saldo actual: S/. " ++ format_2f s))
   else if str_eqb tipo_operacion (lit "Retiro") then
     (if bool_decide (monto_str = []) then
        raise (ValueError (lit "Ingresa el monto a retirar."))
      else ret tt) ;;
     monto <- leer_monto monto_str ;;
     retirar cuenta_origen monto ;;
     update_account_in_db cuenta_origen ;;
     s <- saldo cuenta_origen ;;
     mostrar (showinfo (lit "Retiro Exitoso")
                (lit "¡Retiro realizado! Saldo restante: S/. " ++ format_2f s))
   else if str_eqb tipo_operacion (lit "Transferencia") then
     (if bool_decide (destino = []) then
        raise (ValueError (lit "Ingresa la cuenta de destino."))
      else ret tt) ;;
     (if bool_decide (monto_str = []) then
        raise (ValueError (lit "Ingresa el monto a transferir."))
      else ret tt) ;;
     monto <- leer_monto monto_str ;;
     destino_en_cuentas <- buscar_cuenta destino ;;
     match destino_en_cuentas with
     | None => raise (ValueError (lit "La cuenta de destino no fue encontrada."))
     | Some cuenta_destino =>
       (if str_eqb numero destino then
          raise (ValueError (lit "No puedes transferir dinero a la misma cuenta."))
        else ret tt) ;;
       transferir cuenta_origen cuenta_destino monto ;;
       update_account_in_db cuenta_origen ;;
       update_account_in_db cuenta_destino ;;
       s <- saldo cuenta_origen ;;
       mostrar (showinfo (lit "Transferencia Exitosa")
                  (lit "¡Transferencia realizada con éxito!" ++ [10%N]
                   ++ lit "Saldo origen: S/. " ++ format_2f s))
     end
   else if str_eqb tipo_operacion (lit "Aplicar Interés") then
     aplicar_interes cuenta_origen ;;
     update_account_in_db cuenta_origen ;;
     s <- saldo cuenta_origen ;;
     mostrar (showinfo (lit "Interés Aplicado")
                (lit "Interés aplicado correctamente." ++ [10%N]
                 ++ lit "Nuevo saldo: S/. " ++ format_2f s))
   else ret tt) ;;
  actualizar_saldo_op (limpiar_entradas_op v)
  end.

(** [_realizar_operacion]: what is raised is shown, a [ValueError] under
    "Error en <operation>", anything else under "Error Inesperado", and
    the widgets are then left as they were. *)
Definition _realizar_operacion (v : Ventana) : M Ventana :=
  try_except (realizar_operacion_cuerpo v)
    (fun e =>
       match e with
       | ValueError msg =>
         mostrar (showerror (lit "Error en " ++ op_type_var v) msg) ;; ret v
       | _ =>
         mostrar (showerror (lit "Error Inesperado")
                    (lit "Ocurrió un error inesperado: " ++ str_de_exn e ++ lit ".")) ;;
         ret v
       end).

End Operar.

(** [_ver_historial] *)
Definition _ver_historial (v : Ventana) : M Ventana :=
  let numero := strip (entry_historial v) in
  let v := con_tree [] v in
  if bool_decide (numero = []) then
    mostrar (showerror (lit "Error")
               (lit "Por favor, ingresa el número de cuenta para ver su historial.")) ;;
    ret v
  else
    en_cuentas <- buscar_cuenta numero ;;
    match en_cuentas with
    | None =>
      mostrar (showerror (lit "Error") (lit "El número de cuenta no fue encontrado.")) ;;
      ret v
    | Some cuenta =>
      c <- leer cuenta ;;
      match historial c with
      | [] =>
        mostrar (showinfo (lit "Historial Vacío")
                   (lit "No se encontraron transacciones para esta cuenta.")) ;;
        ret v
      | transacciones => ret (con_tree transacciones v)
      end
    end.

(** ** The validators of the entries *)

(** [[A-Za-zÁÉÍÓÚñáéíóú ]] *)
Definition letra_o_espacio (c : N) : bool := letra c || espacio c.

Definition punto (c : N) : bool := (c =? 46)%N.

(** [r?] *)
Definition Opc (r : regex) : regex := Alt r Epsilon.

(** [vcmd_titular]: [re.fullmatch(r"[A-Za-zÁÉÍÓÚñáéíóú ]*", P) is not None] *)
Definition vcmd_titular (P : str) : bool :=
  fullmatch (Estrella (Clase letra_o_espacio)) P.

(** [vcmd_saldo]: [re.fullmatch(r'\d*\.?\d{0,2}', P) is not None] *)
Definition vcmd_saldo (digito : N -> bool) (P : str) : bool :=
  fullmatch (Sec (Estrella (Clase digito))
               (Sec (Opc (Clase punto))
                  (Sec (Opc (Clase digito)) (Opc (Clase digito))))) P.

(** [vcmd_numero]: [P.isdigit() and len(P) <= 10 or P == ""], with
    [isdigit] the test of [str.isdigit] on one character. *)
Definition vcmd_numero (isdigit : N -> bool) (P : str) : bool :=
  (negb (bool_decide (P = [])) && forallb isdigit P && (length P <=? 10)%nat)
  || bool_decide (P = []).

(** ** Sample forms *)

(** [float] on the amounts of the samples. *)
Definition float_de_montos (s : str) : str + float :=
  if str_eqb s (lit "100.00") then inr 100%float
  else if str_eqb s (lit "0") then inr 0%float
  else if str_eqb s (lit "50") then inr 50%float
  else if str_eqb s (lit "30") then inr 30%float
  else if str_eqb s (lit "200") then inr 200%float
  else inl (lit "could not convert string to float").

Definition formulario_luis : formulario :=
  {| entry_numero_crear := lit "1000000002"; entry_titular_crear := lit "Luis Ramos";
     entry_saldo_crear := lit "0"; tipo_cuenta := lit "Corriente" |}.

(** The bank once Ana and Luis have opened their accounts through the
    form. *)
Definition mundo_banco : Mundo :=
  snd (_crear_cuenta float_de_montos digito_ascii formulario_luis
         (snd (_crear_cuenta float_de_montos digito_ascii formulario_ana mundo_vacio))).

Definition ventana (op numero monto destino : str) : Ventana :=
  {| op_type_var := op; entry_numero_op := numero; entry_monto_op := monto;
     entry_destino_op := destino; label_saldo_op := lit "Saldo actual: ---";
     entry_historial := numero; tree_historial := [] |}.

(** ** Reasoning on statements *)

(** From a world where [P] holds, [m] returns a value and a world that
    satisfy [Q], or raises an exception in a world that satisfy [E]. *)
Definition triple {A} (P : Mundo -> Prop) (m : M A)
    (Q : A -> Mundo -> Prop) (E : exn -> Mundo -> Prop) : Prop :=
  forall w, P w ->
    match m w with
    | (Ret a, w') => Q a w'
    | (Raise e, w') => E e w'
    end.

Definition es_ValueError (e : exn) : Prop := exists msg, e = ValueError msg.

(** ** A session at the forms *)

(** What the user does: press "Crear Cuenta", "Ejecutar" or "Ver
    Historial" with the widgets filled in some way. *)
Inductive evento :=
| CrearCuenta (f : formulario)
| RealizarOperacion (v : Ventana)
| VerHistorial (v : Ventana).

Definition atender (float_de_str : str -> str + float) (digito : N -> bool)
    (e : evento) : M unit :=
  match e with
  | CrearCuenta f => _crear_cuenta float_de_str digito f
  | RealizarOperacion v => _realizar_operacion float_de_str v ;; ret tt
  | VerHistorial v => _ver_historial v ;; ret tt
  end.

Fixpoint sesion (float_de_str : str -> str + float) (digito : N -> bool)
    (es : list evento) (w : Mundo) : Mundo :=
  match es with
  | [] => w
  | e :: es => sesion float_de_str digito es (snd (atender float_de_str digito e w))
  end.

(** A statement that raises no [ValueError]. *)
Definition sin_ValueError {A} (m : M A) : Prop :=
  forall w e w', m w = (Raise e, w') -> ~ es_ValueError e.

(** A statement that leaves the world as it was whenever it raises. *)
Definition falla_sin_efecto {A} (m : M A) : Prop :=
  forall w e w', m w = (Raise e, w') -> w' = w.

(** A statement that writes nothing, whether it returns or raises. *)
Definition inerte {A} (m : M A) : Prop := forall w, snd (m w) = w.

(** A statement that has written nothing whenever it raises a
    [ValueError]. *)
Definition ValueError_sin_efecto {A} (m : M A) : Prop :=
  forall w e w', m w = (Raise e, w') -> es_ValueError e -> w' = w.

(** A statement that writes nothing but dialogs. *)
Definition solo_dialoga {A} (m : M A) : Prop :=
  forall w, exists d, snd (m w) = con_dialogos d w.

(** ** The database as a mirror of the instances *)

(** A relation that every statement [m] keeps between the world it
    finds and the world it leaves, returning or raising. *)
Definition respeta (R : Mundo -> Mundo -> Prop) {A} (m : M A) : Prop :=
  forall w, R w (snd (m w)).

(** A step of the ledger on the instances listed in [S]: no instance
    appears or disappears, each keeps its identifier, owner and class,
    those outside [S] are untouched, a balance [>= 0] stays [>= 0];
    dictionary, database and dialogs are the same. *)
Definition paso_libro (S : list ref) (w w' : Mundo) : Prop :=
  (forall r : ref,
     match objs w !! r with
     | Some c =>
       exists c', objs w' !! r = Some c' /\ misma_identidad c c'
                  /\ (~ In r S -> c' = c)
                  /\ (le (of_int 0) (_saldo c) = true -> le (of_int 0) (_saldo c') = true)
     | None => objs w' !! r = None
     end)
  /\ cuentas w' = cuentas w /\ db_conn w' = db_conn w /\ dialogos w' = dialogos w.

(** The row of [historial] as the tuple that [fetchall] gives. *)
Definition tupla (h : fila_historial) : transaccion :=
  (h_fecha h, h_tipo_transaccion h, h_monto_str h).

(** The history stored for an identifier, in stored order. *)
Definition historial_guardado (db : DB) (numero : str) : list transaccion :=
  map tupla (historial_de db numero).

(** The row of [cuentas] that mirrors an instance. *)
Definition fila_de (c : Cuenta) : fila_cuenta :=
  {| f_numero := numero c; f_titular := titular c;
     f_saldo := _saldo c; f_tipo := tipo_de c |}.

(** The instance has its row, whatever balance the row holds. *)
Definition asentada (db : DB) (c : Cuenta) : Prop :=
  exists s, In {| f_numero := numero c; f_titular := titular c;
                  f_saldo := s; f_tipo := tipo_de c |} (tabla_cuentas db).

(** The row holds the balance of the instance and the stored history is
    its history. *)
Definition al_dia (db : DB) (c : Cuenta) : Prop :=
  In (fila_de c) (tabla_cuentas db)
  /\ historial_guardado db (numero c) = historial c.

(** The database mirrors the dictionary, but for the balance and
    history of the instances listed in [pend]:
    - identifiers are not repeated in [cuentas] (the primary key);
    - the rows of both tables belong to registered identifiers;
    - a registered identifier names an instance of one of the two
      subclasses, which carries that identifier, has a balance [>= 0]
      and has its row; unless it is pending, the row holds its balance
      and the stored history is its history. *)
Definition casi_espejo (pend : list ref) (w : Mundo) : Prop :=
  exists db,
    db_conn w = Some db
    /\ NoDup (map f_numero (tabla_cuentas db))
    /\ (forall f, In f (tabla_cuentas db) -> is_Some (cuentas w !! f_numero f))
    /\ (forall h, In h (tabla_historial db) -> is_Some (cuentas w !! h_numero_cuenta h))
    /\ forall (n : str) (r : ref), cuentas w !! n = Some r ->
         exists c, objs w !! r = Some c
                   /\ numero c = n
                   /\ clase_de c <> Cls_Cuenta
                   /\ le (of_int 0) (_saldo c) = true
                   /\ asentada db c
                   /\ (~ In r pend -> al_dia db c).

Definition espejo (w : Mundo) : Prop := casi_espejo [] w.

(** A database that [load_accounts_from_db] can mirror: no identifier
    twice, kinds that are known, balances [>= 0], and no history row
    without its account. *)
Definition db_sana (db : DB) : Prop :=
  NoDup (map f_numero (tabla_cuentas db))
  /\ (forall f, In f (tabla_cuentas db) ->
        tipo_reconocido (f_tipo f) = true /\ le (of_int 0) (f_saldo f) = true)
  /\ (forall h, In h (tabla_historial db) ->
        In (h_numero_cuenta h) (map f_numero (tabla_cuentas db))).

(** The instance that a row and its stored history stand for. *)
Definition cuenta_de_fila (db : DB) (f : fila_cuenta) : Cuenta :=
  {| clase_de := if str_eqb (f_tipo f) (lit "Ahorro")
                 then Cls_CuentaAhorro else Cls_CuentaCorriente;
     numero := f_numero f; titular := f_titular f; _saldo := f_saldo f;
     historial := historial_guardado db (f_numero f) |}.

(** What the user asks for turns into numbers that are not NaN, and
    into amounts that are finite. *)
Definition evento_ordinario (float_de_str : str -> str + float) (e : evento) : Prop :=
  match e with
  | CrearCuenta f =>
    forall x, float_de_str (strip (entry_saldo_crear f)) = inr x ->
              PrimFloat.is_nan x = false
  | RealizarOperacion v =>
    forall x, float_de_str (strip (entry_monto_op v)) = inr x ->
              PrimFloat.is_finite x = true
  | VerHistorial _ => True
  end.

(** The rows [filas] are loaded: the dictionary holds their identifiers
    and no other, each naming the instance its row stands for. *)
Definition cargadas (db : DB) (filas : list fila_cuenta) (w : Mundo) : Prop :=
  (forall n, is_Some (cuentas w !! n) -> In n (map f_numero filas))
  /\ (forall f, In f filas ->
        exists r, cuentas w !! f_numero f = Some r
                  /\ objs w !! r = Some (cuenta_de_fila db f)).

(** From [w] to [w'] every instance is still there, with its
    identifier, owner and class, and its history has only grown at the
    end. *)
Definition solo_anade (w w' : Mundo) : Prop :=
  forall (r : ref) (c : Cuenta), objs w !! r = Some c ->
    exists c', objs w' !! r = Some c'
               /\ misma_identidad c c'
               /\ historial c `prefix_of` historial c'.

(** The dictionary holds under [n] in [w'] what it held in [w]. *)
Definition igual_en (n : str) (w w' : Mundo) : Prop :=
  cuentas w' !! n = cuentas w !! n.

(** The dictionary of [w'] is the dictionary of [w]. *)
Definition mismas_cuentas (w w' : Mundo) : Prop := cuentas w' = cuentas w.

(** ** A sample session *)

(** Ana deposits 50, then transfers 30 to Luis. *)
Definition eventos_de_prueba : list evento :=
  [RealizarOperacion (ventana (lit "Depósito") (lit "1000000001") (lit "50") []);
   RealizarOperacion
     (ventana (lit "Transferencia") (lit "1000000001") (lit "30") (lit "1000000002"))].

Definition mundo_sesion : Mundo :=
  sesion float_de_montos digito_ascii eventos_de_prueba mundo_banco.

(** The database of a world, empty when there is no connection. *)
Definition db_de (w : Mundo) : DB :=
  default {| tabla_cuentas := []; tabla_historial := [] |} (db_conn w).

(** The application started again on the database of [w]: no instance,
    an empty dictionary. *)
Definition reinicio (w : Mundo) : Mundo := con_db (db_conn w) mundo_vacio.

(** Ana's account after a deposit of 50 that is not yet written back. *)
Definition mundo_sin_guardar : Mundo := snd (depositar 0%nat 50%float mundo_banco).

Definition ana_tras_deposito : Cuenta :=
  con_historial [(reloj_de_prueba 0, lit "Depósito", lit "+S/. 50.00")]
    (con_saldo 150%float ana).

(** Ana's account at the end of the sample session. *)
Definition ana_en_sesion : Cuenta :=
  {| clase_de := Cls_CuentaAhorro; numero := lit "1000000001";
     titular := lit "Ana Perez"; _saldo := 120%float;
     historial := [(reloj_de_prueba 0, lit "Depósito", lit "+S/. 50.00");
                   (reloj_de_prueba 1, lit "Retiro", lit "-S/. 30.00");
                   (reloj_de_prueba 3, lit "Transferencia a 1000000002",
                    lit "-S/. 30.00")] |}.

(** What comes next: Ana takes out 30, fails to take out 200, earns her
    interest and looks at her history. *)
Definition eventos_posteriores : list evento :=
  [RealizarOperacion (ventana (lit "Retiro") (lit "1000000001") (lit "30") []);
   RealizarOperacion (ventana (lit "Retiro") (lit "1000000001") (lit "200") []);
   RealizarOperacion (ventana (lit "Aplicar Interés") (lit "1000000001") [] []);
   VerHistorial (ventana [] (lit "1000000001") [] [])].

(** * Properties *)

Arguments lit : simpl never.
Arguments format_2f : simpl never.
Arguments of_int : simpl never.

(** ** Comparisons of floats *)

Section Comparaciones.

Lemma SFcompare_opp (x y : spec_float) :
  SFcompare y x = option_map CompOpp (SFcompare x y).
Proof.
  destruct x as [sx|sx| |sx mx ex], y as [sy|sy| |sy my ey];
    try destruct sx; try destruct sy; simpl; try reflexivity.
  - rewrite (Z.compare_antisym ey ex). destruct (ey ?= ex)%Z; simpl; try reflexivity.
    rewrite !Pos.compare_cont_spec; simpl.
    rewrite (Pos.compare_antisym my mx). now destruct (my ?= mx)%positive.
  - rewrite (Z.compare_antisym ey ex). destruct (ey ?= ex)%Z; simpl; try reflexivity.
    rewrite !Pos.compare_cont_spec; simpl.
    rewrite (Pos.compare_antisym my mx). now destruct (my ?= mx)%positive.
Qed.

Lemma lt_no_le (x y : float) : lt x y = true -> le y x = false.
Proof.
  unfold lt, le. rewrite ltb_spec, leb_spec. unfold SFltb, SFleb.
  rewrite (SFcompare_opp (Prim2SF x) (Prim2SF y)).
  destruct (SFcompare (Prim2SF x) (Prim2SF y)) as [[]|]; simpl; congruence.
Qed.

Lemma le_no_gt (x y : float) : le x y = true -> gt x y = false.
Proof.
  unfold gt, le. rewrite ltb_spec, leb_spec. unfold SFltb, SFleb.
  rewrite (SFcompare_opp (Prim2SF x) (Prim2SF y)).
  destruct (SFcompare (Prim2SF x) (Prim2SF y)) as [[]|]; simpl; congruence.
Qed.

End Comparaciones.

(** ** Stepping through the monad *)

Lemma leer_algo (r : ref) (c : Cuenta) (w : Mundo) :
  objs w !! r = Some c -> leer r w = (Ret c, w).
Proof. intros H. unfold leer. now rewrite H. Qed.

Lemma leer_nada (r : ref) (w : Mundo) :
  objs w !! r = None -> leer r w = (Raise (ReferenciaInvalida r), w).
Proof. intros H. unfold leer. now rewrite H. Qed.

Lemma bind_ret {A B} (m : M A) (k : A -> M B) (w w1 : Mundo) (a : A) :
  m w = (Ret a, w1) -> bind m k w = k a w1.
Proof. intros H. unfold bind. now rewrite H. Qed.

Lemma bind_raise {A B} (m : M A) (k : A -> M B) (w w1 : Mundo) (e : exn) :
  m w = (Raise e, w1) -> bind m k w = (Raise e, w1).
Proof. intros H. unfold bind. now rewrite H. Qed.

Lemma registrar_ok (self : ref) (c : Cuenta) (tipo monto_str : str) (w : Mundo) :
  objs w !! self = Some c ->
  _registrar_transaccion self tipo monto_str w
  = (Ret tt, tras_registrar self c tipo monto_str w).
Proof.
  intros H. unfold _registrar_transaccion, bind, ahora, leer, escribir. simpl.
  now rewrite H.
Qed.

Lemma depositar_ok (self : ref) (c : Cuenta) (monto : float) (w : Mundo) :
  objs w !! self = Some c ->
  le monto (of_int 0) = false ->
  depositar self monto w = (Ret tt, tras_depositar self c monto w).
Proof.
  intros H Hm. unfold depositar. rewrite Hm.
  rewrite (bind_ret _ _ _ _ _ (leer_algo _ _ _ H)).
  unfold bind at 1, escribir at 1.
  apply registrar_ok. simpl. apply lookup_insert_eq.
Qed.

Lemma depositar_rechaza (self : ref) (monto : float) (w : Mundo) :
  le monto (of_int 0) = true ->
  depositar self monto w = (Raise (ValueError msg_depositar), w).
Proof. intros Hm. unfold depositar. now rewrite Hm. Qed.

Lemma retirar_ok (self : ref) (c : Cuenta) (monto : float) (w : Mundo) :
  objs w !! self = Some c ->
  le monto (of_int 0) = false ->
  gt monto (_saldo c) = false ->
  retirar self monto w = (Ret tt, tras_retirar self c monto w).
Proof.
  intros H Hm Hs. unfold retirar. rewrite Hm.
  rewrite (bind_ret _ _ _ _ _ (leer_algo _ _ _ H)). rewrite Hs.
  unfold bind at 1, escribir at 1.
  apply registrar_ok. simpl. apply lookup_insert_eq.
Qed.

Lemma retirar_rechaza_monto (self : ref) (monto : float) (w : Mundo) :
  le monto (of_int 0) = true ->
  retirar self monto w = (Raise (ValueError msg_retirar), w).
Proof. intros Hm. unfold retirar. now rewrite Hm. Qed.

Lemma retirar_rechaza_saldo (self : ref) (c : Cuenta) (monto : float) (w : Mundo) :
  objs w !! self = Some c ->
  le monto (of_int 0) = false ->
  gt monto (_saldo c) = true ->
  retirar self monto w
  = (Raise (ValueError (msg_saldo_insuficiente (_saldo c) monto)), w).
Proof.
  intros H Hm Hs. unfold retirar. rewrite Hm.
  rewrite (bind_ret _ _ _ _ _ (leer_algo _ _ _ H)). now rewrite Hs.
Qed.

(** ** The scenario of the two accounts *)

Example deposito_de_cincuenta :
  let w := snd (depositar 0%nat 50%float mundo_dos) in
  objs w !! 0%nat
  = Some {| clase_de := Cls_CuentaAhorro; numero := lit "1000000001";
            titular := lit "Ana Perez"; _saldo := 150%float;
            historial := [(lit "2025-06-01 10:00:00", lit "Depósito", lit "+S/. 50.00")] |}.
Proof. vm_compute. reflexivity. Qed.

Example escenario_de_ana_y_luis :
  let w1 := snd (depositar 0%nat 50%float mundo_dos) in
  let r2 := retirar 0%nat 200%float w1 in
  let w3 := snd (transferir 0%nat 1%nat 30%float (snd r2)) in
  fst r2 = Raise (ValueError (lit "¡Saldo insuficiente! Tu saldo actual es S/. 150.00. No puedes retirar S/. 200.00."))
  /\ snd r2 = w1
  /\ _saldo <$> objs w3 !! 0%nat = Some 120%float
  /\ _saldo <$> objs w3 !! 1%nat = Some 30%float.
Proof. vm_compute. repeat split. Qed.

Example identificador_corto :
  dialogos (snd (_crear_cuenta float_de_prueba digito_ascii formulario_corto mundo_vacio))
  = [showerror (lit "Error al Crear Cuenta")
       (lit "El número de cuenta debe tener exactamente (10 dígitos numéricos).")].
Proof. vm_compute. reflexivity. Qed.

Example cuenta_de_ana_creada :
  let w := snd (_crear_cuenta float_de_prueba digito_ascii formulario_ana mundo_vacio) in
  cuentas w !! lit "1000000001" = Some 0%nat
  /\ objs w !! 0%nat = Some ana
  /\ (tabla_cuentas <$> db_conn w) = Some [fila_ana].
Proof. vm_compute. repeat split. Qed.

(** ** Amounts as the messages write them *)

Lemma valor_digitos_acc (d : Decimal.uint) (acc : positive) :
  valor_digitos (Zpos acc) (uint_chars d) = Some (Zpos (Pos.of_uint_acc d acc)).
Proof.
  revert acc. induction d; intros acc; simpl; try reflexivity;
    unfold valor_digito; simpl; rewrite <- IHd; f_equal; lia.
Qed.

Lemma valor_digitos_uint (d : Decimal.uint) :
  valor_digitos 0 (uint_chars d) = Some (Z.of_N (Pos.of_uint d)).
Proof.
  induction d; simpl; try reflexivity; try exact IHd;
    unfold valor_digito; simpl; apply valor_digitos_acc.
Qed.

Lemma valor_digitos_decimal (n : N) :
  valor_digitos 0 (decimal n) = Some (Z.of_N n).
Proof.
  unfold decimal. rewrite valor_digitos_uint.
  change (Pos.of_uint (N.to_uint n)) with (N.of_uint (N.to_uint n)).
  now rewrite DecimalN.Unsigned.of_to.
Qed.

Lemma uint_chars_digitos (d : Decimal.uint) :
  Forall (fun c => valor_digito c <> None) (uint_chars d).
Proof. induction d; simpl; constructor; try assumption; discriminate. Qed.

Lemma decimal_no_vacio (n : N) : decimal n <> [].
Proof.
  unfold decimal. destruct n as [|p]; [discriminate|]. simpl.
  pose proof (DecimalPos.Unsigned.to_uint_nonnil p) as H.
  destruct (Pos.to_uint p); try discriminate. congruence.
Qed.

Lemma decimal_un_digito (q : Z) :
  0 <= q < 10 -> decimal (Z.to_N q) = [(48 + Z.to_N q)%N].
Proof.
  intros H.
  assert (E : q = 0 \/ q = 1 \/ q = 2 \/ q = 3 \/ q = 4 \/ q = 5 \/ q = 6 \/ q = 7
              \/ q = 8 \/ q = 9) by lia.
  repeat (destruct E as [->|E]; [reflexivity|]). now subst q.
Qed.

(** Digits, a point and two digits read back as the cents they write. *)
Lemma leer_2f_escrito (s : bool) (c : Z) :
  0 <= c ->
  leer_2f (signo s ++ decimal (Z.to_N (c / 100)) ++ lit "." ++ dos_digitos (c mod 100))
  = Some (s, c).
Proof.
  intros Hc.
  assert (Hm : 0 <= c mod 100 < 100) by (apply Z.mod_pos_bound; lia).
  assert (Hq : 0 <= c / 100) by (apply Z.div_pos; lia).
  assert (H1 : 0 <= c mod 100 / 10 < 10)
    by (split; [apply Z.div_pos; lia|apply Z.div_lt_upper_bound; lia]).
  assert (H2 : 0 <= (c mod 100) mod 10 < 10) by (apply Z.mod_pos_bound; lia).
  unfold dos_digitos. rewrite (decimal_un_digito _ H1), (decimal_un_digito _ H2).
  change (lit ".") with [46%N].
  set (ent := decimal (Z.to_N (c / 100))).
  assert (Hent : ent <> []) by apply decimal_no_vacio.
  assert (Hdig : Forall (fun c => valor_digito c <> None) ent) by apply uint_chars_digitos.
  assert (Hcab : match signo s ++ ent ++ [46%N] ++ [(48 + Z.to_N (c mod 100 / 10))%N]
                        ++ [(48 + Z.to_N ((c mod 100) mod 10))%N] with
                 | 45%N :: u => (true, u)
                 | _ => (false, signo s ++ ent ++ [46%N]
                                ++ [(48 + Z.to_N (c mod 100 / 10))%N]
                                ++ [(48 + Z.to_N ((c mod 100) mod 10))%N])
                 end
                 = (s, ent ++ [46%N] ++ [(48 + Z.to_N (c mod 100 / 10))%N]
                           ++ [(48 + Z.to_N ((c mod 100) mod 10))%N])).
  { destruct s; [reflexivity|]. simpl.
    destruct ent as [|a ent']; [contradiction|].
    inversion Hdig as [|? ? Ha _]; subst. simpl.
    destruct a as [|p]; [reflexivity|].
    do 6 (destruct p as [p|p|]; try reflexivity).
    exfalso. apply Ha. reflexivity. }
  unfold leer_2f. rewrite Hcab.
  rewrite !rev_app_distr. simpl.
  destruct (rev ent) as [|a r] eqn:Er.
  { apply (f_equal (@rev N)) in Er. rewrite rev_involutive in Er. contradiction. }
  change (rev r ++ [a]) with (rev (a :: r)). rewrite <- Er, rev_involutive.
  unfold ent at 1. rewrite valor_digitos_decimal.
  unfold valor_digito.
  replace ((48 <=? 48 + Z.to_N (c mod 100 / 10)) && (48 + Z.to_N (c mod 100 / 10) <=? 57))%N
    with true by (symmetry; apply andb_true_iff; split; apply N.leb_le; lia).
  replace ((48 <=? 48 + Z.to_N ((c mod 100) mod 10))
           && (48 + Z.to_N ((c mod 100) mod 10) <=? 57))%N
    with true by (symmetry; apply andb_true_iff; split; apply N.leb_le; lia).
  f_equal. f_equal.
  rewrite !N2Z.inj_add, !Z2N.id by lia.
  pose proof (Z.div_mod c 100 ltac:(lia)). pose proof (Z.div_mod (c mod 100) 10 ltac:(lia)).
  lia.
Qed.

Lemma centimos_cerca (m : positive) (e : Z) :
  0 <= centimos m e
  /\ Z.abs (200 * Zpos m * 2 ^ Z.max 0 e - 2 * centimos m e * 2 ^ Z.max 0 (- e))
     <= 2 ^ Z.max 0 (- e).
Proof.
  unfold centimos. destruct e as [|p|p].
  - change (Z.max 0 (- 0)) with 0. change (Z.max 0 0) with 0.
    rewrite !Z.pow_0_r. split; lia.
  - rewrite Z.max_r by lia. change (Z.max 0 (- Z.pos p)) with 0.
    pose proof (Z.pow_pos_nonneg 2 (Z.pos p) ltac:(lia) ltac:(lia)).
    rewrite Z.pow_0_r. split; [nia|]. lia.
  - change (Z.max 0 (Z.neg p)) with 0. change (- Z.neg p) with (Z.pos p).
    rewrite Z.max_r by lia. rewrite Z.pow_0_r.
    change (Z.pow_pos 2 p) with (2 ^ Z.pos p).
    set (den := 2 ^ Z.pos p).
    assert (Hden : 0 < den) by (apply Z.pow_pos_nonneg; lia).
    set (num := Z.pos m * 100).
    pose proof (Z.div_mod num den ltac:(lia)) as Hdm.
    pose proof (Z.mod_pos_bound num den Hden) as Hr.
    assert (Hq : 0 <= num / den) by (apply Z.div_pos; lia).
    replace (200 * Z.pos m * 1) with (2 * num) by (unfold num; lia).
    destruct (Z.compare_spec (2 * (num mod den)) den) as [E|E|E].
    + destruct (Z.even (num / den)); split; try lia; nia.
    + split; [lia|]. nia.
    + split; [lia|]. nia.
Qed.

(** What [:.2f] writes is the amount, to the nearest cent. *)
Lemma format_2f_escribe (x : float) : escribe_2f x (format_2f x).
Proof.
  unfold escribe_2f, format_2f. destruct (Prim2SF x) as [s|s| |s m e]; try reflexivity.
  - destruct s; reflexivity.
  - destruct (centimos_cerca m e) as [H0 H]. exists (centimos m e).
    split; [now apply leer_2f_escrito|exact H].
Qed.

(** ** Rejected amounts *)

(** C6: [depositar] and [retirar] of an amount [<= 0] raise the
    [ValueError] of an invalid amount and return the world they were
    given: balance and history are what they were. *)
Theorem monto_no_positivo_rechazado (w : Mundo) (self : ref) (monto : float) :
  le monto (of_int 0) = true ->
  depositar self monto w = (Raise (ValueError msg_depositar), w)
  /\ retirar self monto w = (Raise (ValueError msg_retirar), w).
Proof.
  intros Hm. split.
  - now apply depositar_rechaza.
  - now apply retirar_rechaza_monto.
Qed.

Lemma monto_no_positivo_rechazado_testigo :
  le (-5)%float (of_int 0) = true
  /\ depositar 0%nat (-5)%float mundo_dos = (Raise (ValueError msg_depositar), mundo_dos)
  /\ retirar 0%nat (-5)%float mundo_dos = (Raise (ValueError msg_retirar), mundo_dos).
Proof.
  split; [reflexivity|].
  apply (monto_no_positivo_rechazado mundo_dos 0%nat (-5)%float). reflexivity.
Defined.

(** C2: [retirar] of a positive amount above the balance raises the
    [ValueError] of insufficient funds and returns the world it was
    given. The message holds two texts, first one that writes the
    balance and then one that writes the amount, each with two
    decimals and to the nearest cent. *)
Theorem retiro_sin_fondos (w : Mundo) (self : ref) (c : Cuenta) (monto : float) :
  objs w !! self = Some c ->
  lt (of_int 0) monto = true ->
  gt monto (_saldo c) = true ->
  retirar self monto w
  = (Raise (ValueError (msg_saldo_insuficiente (_saldo c) monto)), w)
  /\ exists a b d ts tm : str,
       msg_saldo_insuficiente (_saldo c) monto = a ++ ts ++ b ++ tm ++ d
       /\ escribe_2f (_saldo c) ts
       /\ escribe_2f monto tm.
Proof.
  intros H Hpos Hgt. split.
  - apply retirar_rechaza_saldo; auto using lt_no_le.
  - unfold msg_saldo_insuficiente. do 5 eexists.
    split; [reflexivity|]. split; apply format_2f_escribe.
Qed.

Lemma retiro_sin_fondos_testigo :
  retirar 0%nat 200%float mundo_dos
  = (Raise (ValueError
              (lit "¡Saldo insuficiente! Tu saldo actual es S/. 100.00. No puedes retirar S/. 200.00.")),
     mundo_dos).
Proof.
  replace (lit "¡Saldo insuficiente! Tu saldo actual es S/. 100.00. No puedes retirar S/. 200.00.")
    with (msg_saldo_insuficiente 100%float 200%float) by (vm_compute; reflexivity).
  apply (retiro_sin_fondos mundo_dos 0%nat ana 200%float); reflexivity.
Defined.

(** ** Transfers *)

Lemma tras_registrar_leer (self : ref) (c : Cuenta) (tipo monto_str : str)
    (w : Mundo) (r : ref) :
  objs (tras_registrar self c tipo monto_str w) !! r
  = if decide (self = r)
    then Some (con_historial (historial c ++ [(reloj w (tics w), tipo, monto_str)]) c)
    else objs w !! r.
Proof. unfold tras_registrar. simpl. apply lookup_insert. Qed.

Lemma tras_depositar_leer (self : ref) (c : Cuenta) (monto : float) (w : Mundo) (r : ref) :
  objs (tras_depositar self c monto w) !! r
  = if decide (self = r)
    then Some {| clase_de := clase_de c; numero := numero c; titular := titular c;
                 _saldo := PrimFloat.add (_saldo c) monto;
                 historial := historial c
                   ++ [(reloj w (tics w), lit "Depósito", lit "+S/. " ++ format_2f monto)] |}
    else objs w !! r.
Proof.
  unfold tras_depositar. rewrite tras_registrar_leer. simpl.
  destruct (decide (self = r)); [reflexivity|]. now rewrite lookup_insert_ne.
Qed.

Lemma tras_retirar_leer (self : ref) (c : Cuenta) (monto : float) (w : Mundo) (r : ref) :
  objs (tras_retirar self c monto w) !! r
  = if decide (self = r)
    then Some {| clase_de := clase_de c; numero := numero c; titular := titular c;
                 _saldo := PrimFloat.sub (_saldo c) monto;
                 historial := historial c
                   ++ [(reloj w (tics w), lit "Retiro", lit "-S/. " ++ format_2f monto)] |}
    else objs w !! r.
Proof.
  unfold tras_retirar. rewrite tras_registrar_leer. simpl.
  destruct (decide (self = r)); [reflexivity|]. now rewrite lookup_insert_ne.
Qed.

(** The world after an accepted transfer between two distinct
    accounts. *)
Lemma transferencia_pasos (w : Mundo) (self destino : ref) (cs cd : Cuenta)
    (monto : float) :
  self <> destino ->
  objs w !! self = Some cs ->
  objs w !! destino = Some cd ->
  lt (of_int 0) monto = true ->
  le monto (_saldo cs) = true ->
  exists w',
    transferir self destino monto w = (Ret tt, w')
    /\ objs w' !! self
       = Some {| clase_de := clase_de cs; numero := numero cs; titular := titular cs;
                 _saldo := PrimFloat.sub (_saldo cs) monto;
                 historial := historial cs
                   ++ [(reloj w (tics w), lit "Retiro", lit "-S/. " ++ format_2f monto);
                       (reloj w (2 + tics w)%nat, lit "Transferencia a " ++ numero cd,
                        lit "-S/. " ++ format_2f monto)] |}
    /\ objs w' !! destino
       = Some {| clase_de := clase_de cd; numero := numero cd; titular := titular cd;
                 _saldo := PrimFloat.add (_saldo cd) monto;
                 historial := historial cd
                   ++ [(reloj w (1 + tics w)%nat, lit "Depósito", lit "+S/. " ++ format_2f monto);
                       (reloj w (3 + tics w)%nat, lit "Transferencia de " ++ numero cs,
                        lit "+S/. " ++ format_2f monto)] |}
    /\ (forall r, r <> self -> r <> destino -> objs w' !! r = objs w !! r)
    /\ cuentas w' = cuentas w /\ db_conn w' = db_conn w /\ dialogos w' = dialogos w.
Proof.
  intros Hne Hs Hd Hpos Hle.
  pose proof (lt_no_le _ _ Hpos) as Hm.
  pose proof (le_no_gt _ _ Hle) as Hg.
  unfold transferir.
  set (w1 := tras_retirar self cs monto w).
  assert (Hd1 : objs w1 !! destino = Some cd).
  { unfold w1. rewrite tras_retirar_leer. now destruct (decide (self = destino)). }
  set (w2 := tras_depositar destino cd monto w1).
  assert (E1 : exists cs1, objs w2 !! self = Some cs1 /\ cs1 =
     {| clase_de := clase_de cs; numero := numero cs; titular := titular cs;
        _saldo := PrimFloat.sub (_saldo cs) monto;
        historial := historial cs
          ++ [(reloj w (tics w), lit "Retiro", lit "-S/. " ++ format_2f monto)] |}).
  { eexists; split; [|reflexivity]. unfold w2. rewrite tras_depositar_leer.
    destruct (decide (destino = self)); [congruence|].
    unfold w1. rewrite tras_retirar_leer. now destruct (decide (self = self)). }
  destruct E1 as (cs1 & Hs2 & Ecs1).
  assert (E2 : exists cd1, objs w2 !! destino = Some cd1 /\ cd1 =
     {| clase_de := clase_de cd; numero := numero cd; titular := titular cd;
        _saldo := PrimFloat.add (_saldo cd) monto;
        historial := historial cd
          ++ [(reloj w (S (tics w)), lit "Depósito", lit "+S/. " ++ format_2f monto)] |}).
  { eexists; split; [|reflexivity]. unfold w2. rewrite tras_depositar_leer.
    now destruct (decide (destino = destino)). }
  destruct E2 as (cd1 & Hd2 & Ecd1).
  set (w3 := tras_registrar self cs1 (lit "Transferencia a " ++ numero cd1)
               (lit "-S/. " ++ format_2f monto) w2).
  assert (Hs3 : objs w3 !! self
     = Some (con_historial (historial cs1 ++ [(reloj w2 (tics w2),
               lit "Transferencia a " ++ numero cd1, lit "-S/. " ++ format_2f monto)]) cs1)).
  { unfold w3. rewrite tras_registrar_leer. now destruct (decide (self = self)). }
  assert (Hd3 : objs w3 !! destino = Some cd1).
  { unfold w3. rewrite tras_registrar_leer. now destruct (decide (self = destino)). }
  exists (tras_registrar destino cd1
            (lit "Transferencia de " ++ numero cs1) (lit "+S/. " ++ format_2f monto) w3).
  split.
  { rewrite (bind_ret _ _ _ _ _ (retirar_ok _ _ _ _ Hs Hm Hg)). fold w1.
    rewrite (bind_ret _ _ _ _ _ (depositar_ok _ _ _ _ Hd1 Hm)). fold w2.
    rewrite (bind_ret _ _ _ _ _ (leer_algo _ _ _ Hd2)).
    rewrite (bind_ret _ _ _ _ _ (registrar_ok _ _ _ _ _ Hs2)). fold w3.
    rewrite (bind_ret _ _ _ _ _ (leer_algo _ _ _ Hs3)).
    simpl. rewrite (registrar_ok _ _ _ _ _ Hd3). reflexivity. }
  split.
  { rewrite tras_registrar_leer. destruct (decide (destino = self)); [congruence|].
    rewrite Hs3. subst cs1 cd1. unfold con_historial. simpl.
    now rewrite <- app_assoc. }
  split.
  { rewrite tras_registrar_leer. destruct (decide (destino = destino)); [|congruence].
    subst cs1 cd1. unfold con_historial. simpl. now rewrite <- app_assoc. }
  split.
  { intros r Hr1 Hr2. rewrite tras_registrar_leer.
    destruct (decide (destino = r)); [congruence|].
    unfold w3. rewrite tras_registrar_leer. destruct (decide (self = r)); [congruence|].
    unfold w2. rewrite tras_depositar_leer. destruct (decide (destino = r)); [congruence|].
    unfold w1. rewrite tras_retirar_leer. now destruct (decide (self = r)); [congruence|]. }
  repeat split.
Qed.

Lemma tras_retirar_sigue (self : ref) (c : Cuenta) (monto : float) (w : Mundo) (r : ref) :
  is_Some (objs w !! r) -> is_Some (objs (tras_retirar self c monto w) !! r).
Proof. intros H. rewrite tras_retirar_leer. destruct (decide (self = r)); eauto. Qed.

Lemma tras_depositar_sigue (self : ref) (c : Cuenta) (monto : float) (w : Mundo) (r : ref) :
  is_Some (objs w !! r) -> is_Some (objs (tras_depositar self c monto w) !! r).
Proof. intros H. rewrite tras_depositar_leer. destruct (decide (self = r)); eauto. Qed.

Lemma tras_registrar_sigue (self : ref) (c : Cuenta) (tipo monto_str : str)
    (w : Mundo) (r : ref) :
  is_Some (objs w !! r) -> is_Some (objs (tras_registrar self c tipo monto_str w) !! r).
Proof. intros H. rewrite tras_registrar_leer. destruct (decide (self = r)); eauto. Qed.

(** Past the two guards of [retirar] nothing in a transfer can raise,
    whether or not the two references are the same. *)
Lemma transferir_pasa (w : Mundo) (self destino : ref) (cs : Cuenta) (monto : float) :
  objs w !! self = Some cs ->
  is_Some (objs w !! destino) ->
  le monto (of_int 0) = false ->
  gt monto (_saldo cs) = false ->
  exists w', transferir self destino monto w = (Ret tt, w').
Proof.
  intros Hs Hd Hm Hg. unfold transferir.
  rewrite (bind_ret _ _ _ _ _ (retirar_ok _ _ _ _ Hs Hm Hg)).
  set (w1 := tras_retirar self cs monto w).
  assert (Hs1 : is_Some (objs w1 !! self)) by (apply tras_retirar_sigue; eauto).
  destruct (tras_retirar_sigue self cs monto w destino Hd) as [cd1 Hd1]. fold w1 in Hd1.
  rewrite (bind_ret _ _ _ _ _ (depositar_ok _ _ _ _ Hd1 Hm)).
  set (w2 := tras_depositar destino cd1 monto w1).
  destruct (tras_depositar_sigue destino cd1 monto w1 destino) as [cd2 Hd2]; [eauto|].
  destruct (tras_depositar_sigue destino cd1 monto w1 self Hs1) as [cs2 Hs2].
  fold w2 in Hd2, Hs2.
  rewrite (bind_ret _ _ _ _ _ (leer_algo _ _ _ Hd2)).
  rewrite (bind_ret _ _ _ _ _ (registrar_ok _ _ _ _ _ Hs2)).
  set (w3 := tras_registrar self cs2 _ _ w2).
  destruct (tras_registrar_sigue self cs2 (lit "Transferencia a " ++ numero cd2)
              (lit "-S/. " ++ format_2f monto) w2 self) as [cs3 Hs3]; [eauto|].
  destruct (tras_registrar_sigue self cs2 (lit "Transferencia a " ++ numero cd2)
              (lit "-S/. " ++ format_2f monto) w2 destino) as [cd3 Hd3]; [eauto|].
  fold w3 in Hs3, Hd3.
  rewrite (bind_ret _ _ _ _ _ (leer_algo _ _ _ Hs3)).
  rewrite (registrar_ok _ _ _ _ _ Hd3). eauto.
Qed.

(** C9: a transfer that raises returns the world it was given, source
    and destination included; and once [retirar] has returned on the
    source, [depositar] of the same amount on the destination returns
    too, so no transfer stops half way. *)
Theorem transferir_todo_o_nada (w : Mundo) (self destino : ref) (monto : float) :
  is_Some (objs w !! self) ->
  is_Some (objs w !! destino) ->
  (forall e w', transferir self destino monto w = (Raise e, w') -> w' = w)
  /\ (forall w1, retirar self monto w = (Ret tt, w1) ->
      exists w2, depositar destino monto w1 = (Ret tt, w2)).
Proof.
  intros [cs Hs] Hd.
  destruct (le monto (of_int 0)) eqn:Hm.
  - split.
    + intros e w' H. unfold transferir in H.
      rewrite (bind_raise _ _ _ _ _ (retirar_rechaza_monto self monto w Hm)) in H.
      congruence.
    + intros w1 H. rewrite (retirar_rechaza_monto self monto w Hm) in H. discriminate.
  - destruct (gt monto (_saldo cs)) eqn:Hg.
    + split.
      * intros e w' H. unfold transferir in H.
        rewrite (bind_raise _ _ _ _ _ (retirar_rechaza_saldo _ _ _ _ Hs Hm Hg)) in H.
        congruence.
      * intros w1 H. rewrite (retirar_rechaza_saldo _ _ _ _ Hs Hm Hg) in H. discriminate.
    + split.
      * intros e w' H.
        destruct (transferir_pasa w self destino cs monto Hs Hd Hm Hg) as [w2 E].
        congruence.
      * intros w1 H. rewrite (retirar_ok _ _ _ _ Hs Hm Hg) in H.
        injection H as <-.
        destruct (tras_retirar_sigue self cs monto w destino Hd) as [cd1 Hd1].
        rewrite (depositar_ok _ _ _ _ Hd1 Hm). eauto.
Qed.

Lemma transferir_todo_o_nada_testigo :
  snd (transferir 0%nat 1%nat 500%float mundo_dos) = mundo_dos.
Proof.
  refine (proj1 (transferir_todo_o_nada mundo_dos 0%nat 1%nat 500%float _ _)
            (ValueError (msg_saldo_insuficiente 100%float 500%float)) _ _).
  - exists ana. reflexivity.
  - exists luis. reflexivity.
  - reflexivity.
Defined.

(** ** Interest *)

Lemma interes_con_ok (tasa_anual : float) (etiqueta : str) (self : ref) (c : Cuenta)
    (w : Mundo) :
  objs w !! self = Some c ->
  let ganado := PrimFloat.mul (_saldo c) (PrimFloat.div tasa_anual (of_int 12)) in
  let c1 := con_saldo (PrimFloat.add (_saldo c) ganado) c in
  interes_con tasa_anual etiqueta self w
  = (Ret tt, tras_registrar self c1 etiqueta (lit "+S/. " ++ format_2f ganado)
               (con_objs (<[self := c1]> (objs w)) w)).
Proof.
  intros H ganado c1. unfold interes_con.
  rewrite (bind_ret _ _ _ _ _ (leer_algo _ _ _ H)).
  unfold bind at 1, escribir at 1.
  apply registrar_ok. simpl. apply lookup_insert_eq.
Qed.



(** ** Identifier, owner and class are never written *)

Lemma misma_identidad_refl (c : Cuenta) : misma_identidad c c.
Proof. repeat split. Qed.

Lemma misma_identidad_trans (c1 c2 c3 : Cuenta) :
  misma_identidad c1 c2 -> misma_identidad c2 c3 -> misma_identidad c1 c3.
Proof. unfold misma_identidad. intros (?&?&?) (?&?&?). repeat split; congruence. Qed.

Lemma marco_refl (w : Mundo) : marco w w.
Proof.
  split; [|repeat split]. intros r. destruct (objs w !! r) eqn:E; [|reflexivity].
  eauto using misma_identidad_refl.
Qed.

Lemma marco_trans (w1 w2 w3 : Mundo) : marco w1 w2 -> marco w2 w3 -> marco w1 w3.
Proof.
  intros (H12 & ? & ? & ?) (H23 & ? & ? & ?).
  split; [|repeat split; congruence].
  intros r. specialize (H12 r). specialize (H23 r).
  destruct (objs w1 !! r) as [c1|].
  - destruct H12 as (c2 & E2 & I12). rewrite E2 in H23.
    destruct H23 as (c3 & E3 & I23). eauto using misma_identidad_trans.
  - now rewrite H12 in H23.
Qed.

(** Overwriting an instance with one of the same identity, and moving
    the clock, stay within the frame. *)
Lemma marco_escribir (w : Mundo) (r : ref) (c0 c : Cuenta) (n : nat) :
  objs w !! r = Some c0 ->
  misma_identidad c0 c ->
  marco w (con_objs (<[r := c]> (objs w)) (con_tics n w)).
Proof.
  intros H I. split; [|repeat split]. intros r'. simpl.
  destruct (decide (r = r')) as [<-|Hne].
  - rewrite H, lookup_insert_eq. eauto.
  - rewrite lookup_insert_ne by assumption.
    destruct (objs w !! r') eqn:E; eauto using misma_identidad_refl.
Qed.

Lemma conserva_ret {A} (a : A) : conserva (ret a).
Proof. intros w. apply marco_refl. Qed.

Lemma conserva_raise {A} (e : exn) : conserva (@raise A e).
Proof. intros w. apply marco_refl. Qed.

Lemma conserva_leer (r : ref) : conserva (leer r).
Proof. intros w. unfold leer. destruct (objs w !! r); apply marco_refl. Qed.

Lemma conserva_bind {A B} (m : M A) (k : A -> M B) :
  conserva m -> (forall a, conserva (k a)) -> conserva (bind m k).
Proof.
  intros Hm Hk w. unfold bind. specialize (Hm w).
  destruct (m w) as [[a|e] w1]; simpl in *; [|assumption].
  eapply marco_trans; [eassumption|apply Hk].
Qed.

Lemma conserva_registrar (self : ref) (tipo monto_str : str) :
  conserva (_registrar_transaccion self tipo monto_str).
Proof.
  intros w. destruct (objs w !! self) as [c|] eqn:E.
  - rewrite (registrar_ok _ _ _ _ _ E). simpl. unfold tras_registrar.
    apply (marco_escribir w self c); [assumption|repeat split].
  - unfold _registrar_transaccion, bind, ahora, leer. simpl. rewrite E. simpl.
    split; [|repeat split]. intros r. simpl.
    destruct (objs w !! r); eauto using misma_identidad_refl.
Qed.

Lemma conserva_depositar (self : ref) (monto : float) : conserva (depositar self monto).
Proof.
  intros w. destruct (le monto (of_int 0)) eqn:Hm.
  - rewrite (depositar_rechaza _ _ _ Hm). apply marco_refl.
  - destruct (objs w !! self) as [c|] eqn:E.
    + rewrite (depositar_ok _ _ _ _ E Hm). simpl. unfold tras_depositar, tras_registrar.
      simpl. rewrite insert_insert_eq.
      apply (marco_escribir w self c); [assumption|repeat split].
    + unfold depositar. rewrite Hm, (bind_raise _ _ _ _ _ (leer_nada _ _ E)).
      apply marco_refl.
Qed.

Lemma conserva_retirar (self : ref) (monto : float) : conserva (retirar self monto).
Proof.
  intros w. destruct (le monto (of_int 0)) eqn:Hm.
  - rewrite (retirar_rechaza_monto _ _ _ Hm). apply marco_refl.
  - destruct (objs w !! self) as [c|] eqn:E.
    + destruct (gt monto (_saldo c)) eqn:Hg.
      * rewrite (retirar_rechaza_saldo _ _ _ _ E Hm Hg). apply marco_refl.
      * rewrite (retirar_ok _ _ _ _ E Hm Hg). simpl. unfold tras_retirar, tras_registrar.
        simpl. rewrite insert_insert_eq.
        apply (marco_escribir w self c); [assumption|repeat split].
    + unfold retirar. rewrite Hm, (bind_raise _ _ _ _ _ (leer_nada _ _ E)).
      apply marco_refl.
Qed.

Lemma conserva_transferir (self destino : ref) (monto : float) :
  conserva (transferir self destino monto).
Proof.
  unfold transferir.
  apply conserva_bind; [apply conserva_retirar|intros _].
  apply conserva_bind; [apply conserva_depositar|intros _].
  apply conserva_bind; [apply conserva_leer|intros d].
  apply conserva_bind; [apply conserva_registrar|intros _].
  apply conserva_bind; [apply conserva_leer|intros s].
  apply conserva_registrar.
Qed.

Lemma conserva_interes_con (tasa_anual : float) (etiqueta : str) (self : ref) :
  conserva (interes_con tasa_anual etiqueta self).
Proof.
  intros w. destruct (objs w !! self) as [c|] eqn:E.
  - rewrite (interes_con_ok _ _ _ _ _ E). simpl. unfold tras_registrar.
    simpl. rewrite insert_insert_eq.
    apply (marco_escribir w self c); [assumption|repeat split].
  - unfold interes_con. rewrite (bind_raise _ _ _ _ _ (leer_nada _ _ E)).
    apply marco_refl.
Qed.

Lemma conserva_aplicar_interes (self : ref) : conserva (aplicar_interes self).
Proof.
  unfold aplicar_interes. apply conserva_bind; [apply conserva_leer|].
  intros c. destruct (clase_de c).
  - apply conserva_ret.
  - apply conserva_interes_con.
  - apply conserva_interes_con.
Qed.

Lemma conserva_ejecutar (o : operacion) : conserva (ejecutar o).
Proof.
  destruct o; simpl;
    auto using conserva_depositar, conserva_retirar, conserva_transferir,
               conserva_aplicar_interes.
Qed.

(** C8: whatever deposits, withdrawals, transfers and interest are run,
    accepted or not, every instance is still there with the identifier,
    the owner and the class it had; no instance appears, and the
    dictionary, the database and the dialogs are not touched. Only
    balances, histories and the clock can differ. *)
Theorem libro_conserva_identidad (os : list operacion) (w : Mundo) :
  marco w (ejecutar_todas os w).
Proof.
  revert w. induction os as [|o os IH]; intros w; simpl.
  - apply marco_refl.
  - eapply marco_trans; [apply conserva_ejecutar|apply IH].
Qed.

(** ** Loading the accounts *)

Lemma anexar_historial_ok (cuenta : ref) (hs : list fila_historial) (w : Mundo) :
  is_Some (objs w !! cuenta) ->
  exists w', anexar_historial cuenta hs w = (Ret tt, w')
             /\ is_Some (objs w' !! cuenta).
Proof.
  revert w. induction hs as [|h hs IH]; intros w [c Hc]; simpl.
  - exists w. split; [reflexivity|eauto].
  - rewrite (bind_ret _ _ _ _ _ (leer_algo _ _ _ Hc)).
    unfold bind at 1, escribir at 1.
    apply IH. simpl. rewrite lookup_insert_eq. eauto.
Qed.

(** Once [cuenta] is bound, no row makes the loop raise. *)
Lemma cargar_filas_ligada (db : DB) (filas : list fila_cuenta) (r : ref) (w : Mundo) :
  is_Some (objs w !! r) ->
  exists w', cargar_filas db filas (Some r) w = (Ret tt, w').
Proof.
  revert r w. induction filas as [|row filas IH]; intros r w Hr; simpl.
  - eauto.
  - assert (Hpaso : forall (r1 : ref) (w1 : Mundo),
              is_Some (objs w1 !! r1) ->
              exists w', bind (asignar_cuentas (f_numero row) r1)
                           (fun _ => bind (anexar_historial r1
                                             (historial_de db (f_numero row)))
                                       (fun _ => cargar_filas db filas (Some r1))) w1
                         = (Ret tt, w')).
    { intros r1 w1 H1. unfold bind at 1, asignar_cuentas at 1.
      destruct (anexar_historial_ok r1 (historial_de db (f_numero row))
                  (con_cuentas (<[f_numero row := r1]> (cuentas w1)) w1) H1)
        as (w2 & E2 & H2).
      rewrite (bind_ret _ _ _ _ _ E2). now apply IH. }
    destruct (str_eqb (f_tipo row) (lit "Ahorro")).
    + unfold bind at 1. unfold bind at 1, nueva at 1, ret at 1.
      apply Hpaso. simpl. rewrite lookup_insert_eq. eauto.
    + destruct (str_eqb (f_tipo row) (lit "Corriente")).
      * unfold bind at 1. unfold bind at 1, nueva at 1, ret at 1.
        apply Hpaso. simpl. rewrite lookup_insert_eq. eauto.
      * unfold bind at 1, ret at 1. now apply Hpaso.
Qed.

Lemma cargar_filas_reconocida (db : DB) (row : fila_cuenta) (filas : list fila_cuenta)
    (cuenta : option ref) (w : Mundo) :
  tipo_reconocido (f_tipo row) = true ->
  exists w', cargar_filas db (row :: filas) cuenta w = (Ret tt, w').
Proof.
  intros Ht. unfold tipo_reconocido in Ht.
  assert (Hn : forall k, exists w',
             bind (bind (nueva k (f_numero row) (f_titular row) (f_saldo row))
                     (fun r => ret (Some r)))
               (fun cuenta =>
                  match cuenta with
                  | None => raise (UnboundLocalError (lit "cuenta"))
                  | Some r =>
                    bind (asignar_cuentas (f_numero row) r)
                      (fun _ => bind (anexar_historial r (historial_de db (f_numero row)))
                                  (fun _ => cargar_filas db filas (Some r)))
                  end) w = (Ret tt, w')).
  { intros k. unfold bind at 1. unfold bind at 1, nueva at 1, ret at 1.
    unfold bind at 1, asignar_cuentas at 1.
    set (r := fresh (dom (objs w))).
    set (w1 := con_cuentas _ _).
    assert (H1 : is_Some (objs w1 !! r)).
    { unfold w1. simpl. rewrite lookup_insert_eq. eauto. }
    destruct (anexar_historial_ok r (historial_de db (f_numero row)) w1 H1)
      as (w2 & E2 & H2).
    rewrite (bind_ret _ _ _ _ _ E2). now apply cargar_filas_ligada. }
  simpl. destruct (str_eqb (f_tipo row) (lit "Ahorro")); [apply Hn|].
  destruct (str_eqb (f_tipo row) (lit "Corriente")); [apply Hn|].
  discriminate.
Qed.

Lemma cargar_filas_sin_ligar (db : DB) (row : fila_cuenta) (filas : list fila_cuenta)
    (w : Mundo) :
  tipo_reconocido (f_tipo row) = false ->
  cargar_filas db (row :: filas) None w = (Raise (UnboundLocalError (lit "cuenta")), w).
Proof.
  intros Ht. unfold tipo_reconocido in Ht. apply orb_false_iff in Ht as [H1 H2].
  simpl. now rewrite H1, H2.
Qed.

(** C10, as the code has it: [load_accounts_from_db] raises exactly when
    the first row of [cuentas] has a kind that is neither "Ahorro" nor
    "Corriente"; it then raises [UnboundLocalError] on [cuenta] before
    anything is built or registered. With no row, or a first row of a
    known kind, it returns whatever the kinds of the later rows. *)
Theorem carga_falla_solo_en_primera_fila (w : Mundo) (db : DB) :
  db_conn w = Some db ->
  match tabla_cuentas db with
  | [] => load_accounts_from_db w = (Ret tt, w)
  | row :: _ =>
    if tipo_reconocido (f_tipo row)
    then exists w', load_accounts_from_db w = (Ret tt, w')
    else load_accounts_from_db w = (Raise (UnboundLocalError (lit "cuenta")), w)
  end.
Proof.
  intros Hdb. unfold load_accounts_from_db. rewrite Hdb.
  destruct (tabla_cuentas db) as [|row filas]; [reflexivity|].
  destruct (tipo_reconocido (f_tipo row)) eqn:Ht.
  - now apply cargar_filas_reconocida.
  - now apply cargar_filas_sin_ligar.
Qed.

Lemma carga_falla_solo_en_primera_fila_testigo :
  load_accounts_from_db (mundo_con_filas [fila_luis_plazo; fila_ana])
  = (Raise (UnboundLocalError (lit "cuenta")), mundo_con_filas [fila_luis_plazo; fila_ana]).
Proof.
  exact (carga_falla_solo_en_primera_fila
           (mundo_con_filas [fila_luis_plazo; fila_ana]) _ eq_refl).
Defined.

(** A row of unknown kind after a row of known kind: nothing is raised.
    The instance built for the earlier row is registered a second time
    under the later identifier and receives the later row's history. *)
Lemma carga_con_tipo_desconocido_no_falla :
  let w := mundo_con_filas [fila_ana; fila_luis_plazo] in
  let w' := snd (load_accounts_from_db w) in
  Exists (fun f => tipo_reconocido (f_tipo f) = false)
    [fila_ana; fila_luis_plazo]
  /\ fst (load_accounts_from_db w) = Ret tt
  /\ cuentas w' !! lit "1000000001" = Some 0%nat
  /\ cuentas w' !! lit "1000000002" = Some 0%nat
  /\ numero <$> objs w' !! 0%nat = Some (lit "1000000001")
  /\ length <$> (historial <$> objs w' !! 0%nat) = Some 1%nat.
Proof.
  split; [right; left; reflexivity|].
  vm_compute. repeat split.
Qed.

(** ** The matcher and the words it accepts *)

Section Regex.

Lemma anulable_acepta (r : regex) : anulable r = true -> acepta r [].
Proof.
  induction r; simpl; intros H; try discriminate.
  - constructor.
  - apply andb_true_iff in H as [H1 H2].
    change (@nil N) with (@nil N ++ []). constructor; auto.
  - apply orb_true_iff in H as [H|H]; [apply acepta_alt_i|apply acepta_alt_d]; auto.
  - constructor.
Qed.

Lemma acepta_anulable (r : regex) (s : str) : acepta r s -> s = [] -> anulable r = true.
Proof.
  induction 1; simpl; intros E; try reflexivity; try discriminate.
  - apply app_eq_nil in E as [-> ->]. now rewrite IHacepta1, IHacepta2.
  - now rewrite IHacepta.
  - rewrite IHacepta by assumption. apply orb_true_r.
Qed.

Lemma derivada_acepta (r : regex) (c : N) (s : str) :
  acepta (derivada c r) s -> acepta r (c :: s).
Proof.
  revert s. induction r; simpl; intros s H.
  - inversion H.
  - inversion H.
  - destruct (p c) eqn:E; inversion H; subst. now constructor.
  - destruct (anulable r1) eqn:E.
    + inversion H; subst.
      * match goal with H1 : acepta (Sec _ _) _ |- _ => inversion H1; subst end.
        change (c :: u ++ v) with ((c :: u) ++ v). constructor; auto.
      * change (c :: s) with ([] ++ c :: s). constructor; auto using anulable_acepta.
    + inversion H; subst.
      change (c :: u ++ v) with ((c :: u) ++ v). constructor; auto.
  - inversion H; subst; [apply acepta_alt_i|apply acepta_alt_d]; auto.
  - inversion H; subst.
    change (c :: u ++ v) with ((c :: u) ++ v). constructor; auto.
Qed.

Lemma acepta_derivada (r : regex) (t : str) :
  acepta r t -> forall c s, t = c :: s -> acepta (derivada c r) s.
Proof.
  induction 1; intros c0 s0 E; simpl.
  - discriminate.
  - injection E as <- <-. rewrite H. constructor.
  - destruct u as [|a u]; simpl in E.
    + subst v. rewrite (acepta_anulable _ _ H eq_refl).
      apply acepta_alt_d. now apply IHacepta2.
    + injection E as <- <-.
      assert (acepta (Sec (derivada a r) s) (u ++ v))
        by (constructor; auto).
      destruct (anulable r); [now apply acepta_alt_i|assumption].
  - apply acepta_alt_i. now apply IHacepta.
  - apply acepta_alt_d. now apply IHacepta.
  - discriminate.
  - destruct u as [|a u]; simpl in E.
    + subst v. now apply IHacepta2.
    + injection E as <- <-. constructor; auto.
Qed.

(** The matcher decides membership in the language of the pattern. *)
Lemma fullmatch_acepta (r : regex) (s : str) : fullmatch r s = true <-> acepta r s.
Proof.
  revert r. induction s as [|c s IH]; intros r; simpl.
  - split; [apply anulable_acepta|]. intros H. now apply (acepta_anulable r []).
  - rewrite IH. split; [apply derivada_acepta|].
    intros H. now apply (acepta_derivada r (c :: s)).
Qed.

Lemma acepta_estrella_clase (p : N -> bool) (r : regex) (s : str) :
  acepta r s -> r = Estrella (Clase p) -> Forall (fun c => p c = true) s.
Proof.
  induction 1; intros E; try discriminate.
  - constructor.
  - injection E as ->. inversion H; subst. simpl. constructor; auto.
Qed.

Lemma acepta_mas_clase (p : N -> bool) (s : str) :
  acepta (Mas (Clase p)) s <-> s <> [] /\ Forall (fun c => p c = true) s.
Proof.
  split.
  - intros H. inversion H; subst.
    match goal with H1 : acepta (Clase _) _ |- _ => inversion H1; subst end.
    split; [discriminate|]. simpl. constructor; [assumption|].
    now apply (acepta_estrella_clase p (Estrella (Clase p))).
  - intros [Hne Hall]. destruct s as [|c s]; [congruence|].
    inversion Hall; subst. change (c :: s) with ([c] ++ s).
    constructor; [now constructor|].
    clear -H2. induction s as [|a s IH].
    + constructor.
    + inversion H2; subst. change (a :: s) with ([a] ++ s).
      constructor; [now constructor|auto].
Qed.

Lemma acepta_veces_clase (p : N -> bool) (n : nat) (s : str) :
  acepta (Veces n (Clase p)) s <-> length s = n /\ Forall (fun c => p c = true) s.
Proof.
  revert s. induction n as [|n IH]; intros s; simpl.
  - split.
    + intros H. inversion H; subst. split; [reflexivity|constructor].
    + intros [H _]. destruct s; [constructor|discriminate].
  - split.
    + intros H. inversion H; subst.
      match goal with H1 : acepta (Clase _) _ |- _ => inversion H1; subst end.
      match goal with H1 : acepta (Veces _ _) _ |- _ => apply IH in H1 as [E F] end.
      simpl. split; [congruence|]. constructor; assumption.
    + intros [H F]. destruct s as [|c s]; [discriminate|].
      inversion F; subst. injection H as H.
      change (c :: s) with ([c] ++ s). constructor; [now constructor|].
      apply IH. auto.
Qed.

End Regex.

(** ** The two patterns of [_crear_cuenta] *)

Lemma unir_cons (p : str) (ps : list str) :
  unir (p :: ps) = p ++ flat_map (fun q => 32%N :: q) ps.
Proof.
  revert p. induction ps as [|q ps IH]; intros p.
  - simpl. now rewrite app_nil_r.
  - change (unir (p :: q :: ps)) with (p ++ 32%N :: unir (q :: ps)).
    rewrite IH. reflexivity.
Qed.

Lemma espacio_32 (c : N) : espacio c = true <-> c = 32%N.
Proof. unfold espacio. apply N.eqb_eq. Qed.

Lemma acepta_espacio_palabra (u : str) :
  acepta (Sec (Clase espacio) (Mas (Clase letra))) u
  <-> exists p, palabra p /\ u = 32%N :: p.
Proof.
  split.
  - intros H. inversion H; subst.
    match goal with H1 : acepta (Clase _) _ |- _ => inversion H1; subst end.
    match goal with H1 : espacio _ = true |- _ => apply espacio_32 in H1; subst end.
    match goal with H1 : acepta (Mas _) _ |- _ => apply acepta_mas_clase in H1 end.
    eauto.
  - intros (p & Hp & ->). change (32%N :: p) with ([32%N] ++ p).
    constructor; [now constructor|]. now apply acepta_mas_clase.
Qed.

Lemma acepta_estrella_palabras (r : regex) (v : str) :
  acepta r v ->
  r = Estrella (Sec (Clase espacio) (Mas (Clase letra))) ->
  exists ps, Forall palabra ps /\ v = flat_map (fun q => 32%N :: q) ps.
Proof.
  induction 1; intros E; try discriminate.
  - exists []. split; [constructor|reflexivity].
  - injection E as ->.
    apply acepta_espacio_palabra in H as (p & Hp & ->).
    destruct (IHacepta2 eq_refl) as (ps & Hps & ->).
    exists (p :: ps). split; [now constructor|reflexivity].
Qed.

Lemma palabras_acepta_estrella (ps : list str) :
  Forall palabra ps ->
  acepta (Estrella (Sec (Clase espacio) (Mas (Clase letra))))
    (flat_map (fun q => 32%N :: q) ps).
Proof.
  induction 1 as [|p ps Hp Hps IH]; simpl.
  - constructor.
  - change (32%N :: p ++ flat_map (fun q => 32%N :: q) ps)
      with ((32%N :: p) ++ flat_map (fun q => 32%N :: q) ps).
    constructor; [|assumption]. apply acepta_espacio_palabra. eauto.
Qed.

(** The pattern for the owner accepts the names of two words or more,
    each made of its letters, with one space between them. *)
Lemma patron_titular_acepta (s : str) :
  fullmatch patron_titular s = true <-> nombre_y_apellido s.
Proof.
  rewrite fullmatch_acepta. unfold patron_titular. split.
  - intros H. inversion H; subst.
    match goal with H1 : acepta (Mas (Clase _)) _ |- _ =>
      apply acepta_mas_clase in H1 end.
    match goal with H1 : acepta (Mas (Sec _ _)) _ |- _ => inversion H1; subst end.
    match goal with H1 : acepta (Sec (Clase _) _) _ |- _ =>
      apply acepta_espacio_palabra in H1 as (p & Hp & ->) end.
    match goal with H1 : acepta (Estrella _) _ |- _ =>
      destruct (acepta_estrella_palabras _ _ H1 eq_refl) as (ps & Hps & ->) end.
    exists (u :: p :: ps). split; [simpl; lia|].
    split; [constructor; [assumption|constructor; assumption]|].
    rewrite unir_cons. reflexivity.
  - intros (ps & Hlen & Hps & ->).
    destruct ps as [|p [|q ps]]; simpl in Hlen; try lia.
    rewrite unir_cons. inversion Hps as [|? ? Hp Hps']; subst.
    inversion Hps' as [|? ? Hq Hps'']; subst.
    constructor; [now apply acepta_mas_clase|].
    simpl.
    change (32%N :: q ++ flat_map (fun q0 => 32%N :: q0) ps)
      with ((32%N :: q) ++ flat_map (fun q0 => 32%N :: q0) ps).
    constructor; [|now apply palabras_acepta_estrella].
    apply acepta_espacio_palabra. eauto.
Qed.

(** The pattern for the identifier accepts the strings of ten digits. *)
Lemma patron_numero_acepta (digito : N -> bool) (s : str) :
  fullmatch (patron_numero digito) s = true <-> diez_digitos digito s.
Proof. rewrite fullmatch_acepta. apply acepta_veces_clase. Qed.

(** ** [strip] and the line feed that [$] forgives *)

Lemma lstrip_cabeza (s : str) :
  match lstrip s with
  | [] => True
  | c :: _ => is_space c = false
  end.
Proof.
  induction s as [|c s IH]; simpl; [exact I|].
  destruct (is_space c) eqn:E; [assumption|]. exact E.
Qed.

Lemma rev_strip (s : str) : rev (strip s) = lstrip (rev (lstrip s)).
Proof. unfold strip, rstrip. apply rev_involutive. Qed.

(** After [strip] no line feed ends the string, so [$] is the end. *)
Lemma match_anclado_strip (r : regex) (s : str) :
  match_anclado r (strip s) = fullmatch r (strip s).
Proof.
  unfold match_anclado. rewrite rev_strip.
  pose proof (lstrip_cabeza (rev (lstrip s))) as H.
  destruct (lstrip (rev (lstrip s))) as [|c t]; [apply orb_false_r|].
  destruct (N.eqb_spec c 10) as [->|]; [discriminate H|].
  simpl. apply orb_false_r.
Qed.

(** ** Opening an account *)

Section CrearCuenta.

Variable float_de_str : str -> str + float.
Variable digito : N -> bool.

Lemma crear_cuenta_cuerpo_rechaza (f : formulario) (w : Mundo) :
  solicitud_invalida float_de_str digito f w ->
  exists msg,
    crear_cuenta_cuerpo float_de_str digito f w = (Raise (ValueError msg), w).
Proof.
  unfold solicitud_invalida, crear_cuenta_cuerpo. intros H.
  destruct (bool_decide (strip (entry_numero_crear f) = [])); [unfold raise; eauto|].
  destruct (bool_decide (strip (entry_titular_crear f) = [])); [unfold raise; eauto|].
  destruct (bool_decide (strip (entry_saldo_crear f) = [])); [unfold raise; eauto|].
  destruct (float_de_str (strip (entry_saldo_crear f))) as [msg|x] eqn:Ef;
    [unfold raise; eauto|].
  rewrite !match_anclado_strip.
  destruct (fullmatch (patron_numero digito) (strip (entry_numero_crear f))) eqn:En;
    [|unfold raise; simpl; eauto].
  destruct (fullmatch patron_titular (strip (entry_titular_crear f))) eqn:Et;
    [|unfold raise; simpl; eauto].
  simpl. destruct (lt x (of_int 0)) eqn:Ex; [unfold raise; eauto|].
  unfold bind, en_cuentas. case_bool_decide as Hc; [unfold raise; eauto|].
  exfalso. destruct H as [H|[H|[H|H]]].
  - apply H. now apply patron_numero_acepta.
  - apply H. now apply patron_titular_acepta.
  - destruct H as (y & Ey & Hy). congruence.
  - contradiction.
Qed.

End CrearCuenta.

(** C7: a request whose identifier is not ten digits, whose owner is not
    two or more alphabetic words separated by spaces, whose initial
    balance is negative, or whose identifier is already a key of
    [cuentas], is refused with a [ValueError], shown under "Error al
    Crear Cuenta"; the dictionary, the instances and the database are
    what they were. *)
Theorem solicitud_invalida_rechazada (float_de_str : str -> str + float)
    (digito : N -> bool) (f : formulario) (w : Mundo) :
  solicitud_invalida float_de_str digito f w ->
  exists msg w',
    crear_cuenta_cuerpo float_de_str digito f w = (Raise (ValueError msg), w)
    /\ _crear_cuenta float_de_str digito f w = (Ret tt, w')
    /\ dialogos w' = dialogos w ++ [showerror (lit "Error al Crear Cuenta") msg]
    /\ cuentas w' = cuentas w /\ objs w' = objs w /\ db_conn w' = db_conn w.
Proof.
  intros H.
  destruct (crear_cuenta_cuerpo_rechaza float_de_str digito f w H) as [msg E].
  exists msg. eexists. split; [exact E|].
  unfold _crear_cuenta, try_except. rewrite E. unfold mostrar.
  repeat split.
Qed.

Lemma solicitud_invalida_rechazada_testigo :
  exists msg w',
    _crear_cuenta float_de_prueba digito_ascii formulario_ana mundo_dos = (Ret tt, w')
    /\ dialogos w' = [showerror (lit "Error al Crear Cuenta") msg]
    /\ cuentas w' = cuentas mundo_dos.
Proof.
  destruct (solicitud_invalida_rechazada float_de_prueba digito_ascii
              formulario_ana mundo_dos) as (msg & w' & _ & E & Hd & Hc & _).
  - right; right; right. exists 0%nat. reflexivity.
  - exists msg, w'. repeat split; assumption.
Defined.

(** ** Binary64: rounding, order and sign *)

Section Binary64.

Lemma fexp_64 (x : Z) : fexp prec emax x = Z.max (x - 53) (-1074).
Proof. reflexivity. Qed.

Lemma digitos_cotas (p : positive) :
  2 ^ (Zpos (digits2_pos p) - 1) <= Zpos p < 2 ^ Zpos (digits2_pos p).
Proof.
  induction p as [p IH|p IH|]; simpl digits2_pos.
  - rewrite Pos2Z.inj_succ, (Pos2Z.inj_xI p).
    replace (Z.succ (Zpos (digits2_pos p)) - 1) with (Z.succ (Zpos (digits2_pos p) - 1)) by lia.
    rewrite !Z.pow_succ_r by lia. lia.
  - rewrite Pos2Z.inj_succ, (Pos2Z.inj_xO p).
    replace (Z.succ (Zpos (digits2_pos p)) - 1) with (Z.succ (Zpos (digits2_pos p) - 1)) by lia.
    rewrite !Z.pow_succ_r by lia. lia.
  - simpl. lia.
Qed.

(** Fewer than [2^n] means at most [n] digits. *)
Lemma digitos_max (p : positive) (n : Z) :
  Zpos p < 2 ^ n -> Zpos (digits2_pos p) <= n.
Proof.
  intros H. destruct (Z.le_gt_cases (Zpos (digits2_pos p)) n) as [|Hgt]; [assumption|].
  exfalso. pose proof (digitos_cotas p) as [Hlo _].
  assert (0 <= n).
  { destruct (Z.lt_ge_cases n 0) as [Hn|Hn]; [|assumption].
    rewrite Z.pow_neg_r in H by assumption. lia. }
  assert (2 ^ n <= 2 ^ (Zpos (digits2_pos p) - 1)) by (apply Z.pow_le_mono_r; lia).
  lia.
Qed.

Lemma iter_xO (m d : positive) : Zpos (Pos.iter xO m d) = Zpos m * 2 ^ Zpos d.
Proof.
  induction d as [|d IH] using Pos.peano_ind.
  - simpl. lia.
  - rewrite Pos.iter_succ, (Pos2Z.inj_xO (Pos.iter xO m d)), IH, Pos2Z.inj_succ, Z.pow_succ_r by lia. lia.
Qed.

Lemma shl_align_spec (mx : positive) (ex e : Z) :
  let '(m, e') := shl_align mx ex e in
  e' = Z.min ex e /\ Zpos m = Zpos mx * 2 ^ (ex - e').
Proof.
  unfold shl_align. destruct (e - ex) as [|d|d] eqn:E.
  - split; [lia|]. replace (ex - ex) with 0 by lia. simpl. lia.
  - split; [lia|]. replace (ex - ex) with 0 by lia. simpl. lia.
  - split; [lia|]. rewrite iter_xO. f_equal. f_equal. lia.
Qed.

Lemma shr_1_m (mrs : shr_record) :
  0 <= shr_m mrs -> shr_m (shr_1 mrs) = shr_m mrs / 2.
Proof.
  destruct mrs as [m r s]. simpl. intros H.
  destruct m as [|[p|p|]|p]; try lia; simpl shr_m; rewrite <- Z.div2_div; reflexivity.
Qed.

Lemma iter_shr_m (p : positive) (mrs : shr_record) :
  0 <= shr_m mrs ->
  shr_m (SpecFloat.iter_pos shr_1 p mrs) = shr_m mrs / 2 ^ Zpos p.
Proof.
  revert mrs. induction p as [p IH|p IH|]; intros mrs H; simpl SpecFloat.iter_pos.
  - assert (H1 : 0 <= shr_m (shr_1 mrs)).
    { rewrite shr_1_m by assumption. apply Z.div_pos; lia. }
    assert (H2 : 0 <= shr_m (SpecFloat.iter_pos shr_1 p (shr_1 mrs))).
    { rewrite IH by assumption. apply Z.div_pos; [assumption|]. apply Z.pow_pos_nonneg; lia. }
    rewrite IH, IH, shr_1_m by assumption.
    rewrite !Z.div_div by (try apply Z.pow_pos_nonneg; lia).
    f_equal. rewrite (Pos2Z.inj_xI p).
    replace (2 * Zpos p + 1) with (1 + Zpos p + Zpos p) by lia.
    rewrite !Z.pow_add_r by lia. lia.
  - assert (H2 : 0 <= shr_m (SpecFloat.iter_pos shr_1 p mrs)).
    { rewrite IH by assumption. apply Z.div_pos; [assumption|]. apply Z.pow_pos_nonneg; lia. }
    rewrite IH, IH by assumption.
    rewrite !Z.div_div by (try apply Z.pow_pos_nonneg; lia).
    f_equal. rewrite (Pos2Z.inj_xO p).
    replace (2 * Zpos p) with (Zpos p + Zpos p) by lia.
    rewrite !Z.pow_add_r by lia. lia.
  - rewrite shr_1_m by assumption. reflexivity.
Qed.

(** The mantissa and exponent [shr_fexp] leaves, from an exact location. *)
Lemma shr_fexp_spec (m e : Z) :
  0 <= m ->
  let k := fexp prec emax (Zdigits2 m + e) - e in
  let '(mrs, e') := shr_fexp prec emax m e loc_Exact in
  (k <= 0 /\ mrs = Build_shr_record m false false /\ e' = e)
  \/ (0 < k /\ shr_m mrs = m / 2 ^ k /\ e' = e + k).
Proof.
  intros Hm k. unfold shr_fexp, shr. fold k.
  destruct k as [|p|p] eqn:E.
  - left. repeat split; lia.
  - right. split; [lia|]. split; [|reflexivity].
    now apply iter_shr_m.
  - left. repeat split; lia.
Qed.

Lemma round_nearest_even_cotas (m : Z) (l : location) :
  m <= round_nearest_even m l <= m + 1.
Proof.
  destruct l as [|[]]; simpl; try lia. destruct (Z.even m); lia.
Qed.

Lemma pow2_pos (a : Z) : 0 <= a -> 0 < 2 ^ a.
Proof. intros. apply Z.pow_pos_nonneg; lia. Qed.

Lemma pow2_suma (a b : Z) : 0 <= a -> 0 <= b -> 2 ^ (a + b) = 2 ^ a * 2 ^ b.
Proof. intros. apply Z.pow_add_r; lia. Qed.

Lemma pow2_mono (a b : Z) : 0 <= a <= b -> 2 ^ a <= 2 ^ b.
Proof. intros. apply Z.pow_le_mono_r; lia. Qed.

(** What [bounded] says of a mantissa and its exponent. *)
Lemma bounded_cotas (m : positive) (e : Z) :
  bounded prec emax m e = true ->
  -1074 <= e <= 971
  /\ Zpos m < 2 ^ 53
  /\ (-1074 < e -> 2 ^ 52 <= Zpos m).
Proof.
  unfold bounded, canonical_mantissa. rewrite fexp_64. intros H.
  apply andb_true_iff in H as [H1 H2].
  apply Z.eqb_eq in H1. apply Z.leb_le in H2. change (emax - prec) with 971 in H2.
  pose proof (digitos_cotas m) as [Hlo Hhi].
  split; [lia|]. split.
  - assert (2 ^ Zpos (digits2_pos m) <= 2 ^ 53) by (apply pow2_mono; lia). lia.
  - intros He. assert (Zpos (digits2_pos m) = 53) as E by lia.
    rewrite E in Hlo. exact Hlo.
Qed.

Lemma escala_pos (m e : Z) : 0 < m -> -1074 <= e -> 0 < escala m e.
Proof. intros. unfold escala. apply Z.mul_pos_pos; [lia|apply pow2_pos; lia]. Qed.

Lemma Zdigits2_max (m : Z) : 0 <= m < 2 ^ 53 -> Zdigits2 m <= 53.
Proof.
  intros [H0 H1]. destruct m as [|p|p]; simpl; try lia.
  now apply digitos_max.
Qed.

(** Rounding never falls below a number of the format that the exact
    value reaches. *)
Lemma binary_round_aux_cota (mz : positive) (ez : Z) (mm : positive) (em : Z) :
  -1074 <= ez ->
  bounded prec emax mm em = true ->
  escala (Zpos mm) em <= escala (Zpos mz) ez ->
  match binary_round_aux prec emax false (Zpos mz) ez loc_Exact with
  | S754_finite false m3 e3 => escala (Zpos mm) em <= escala (Zpos m3) e3
  | S754_infinity false => True
  | _ => False
  end.
Proof.
  intros Hez Hb Hle.
  apply bounded_cotas in Hb as (Hem & Hmm & Hnorm).
  unfold binary_round_aux.
  pose proof (shr_fexp_spec (Zpos mz) ez ltac:(lia)) as H1.
  destruct (shr_fexp prec emax (Zpos mz) ez loc_Exact) as [mrs1 e1].
  rewrite fexp_64 in H1. simpl Zdigits2 in H1.
  pose proof (digitos_cotas mz) as [Hdlo Hdhi].
  set (d := Zpos (digits2_pos mz)) in *.
  assert (Hd : 0 < d) by (unfold d; lia).
  assert (F : 0 <= shr_m mrs1 < 2 ^ 53 /\ -1074 <= e1
              /\ escala (Zpos mm) em <= escala (shr_m mrs1) e1).
  { destruct H1 as [(Hk & -> & ->)|(Hk & Hm1 & ->)].
    - simpl shr_m. split; [|split; assumption]. split; [lia|].
      assert (2 ^ d <= 2 ^ 53) by (apply pow2_mono; lia). lia.
    - set (k := Z.max (d + ez - 53) (-1074) - ez) in *.
      rewrite Hm1. split; [|split; [lia|]].
      + split; [apply Z.div_pos; [lia|apply pow2_pos; lia]|].
        apply Z.div_lt_upper_bound; [apply pow2_pos; lia|].
        rewrite <- pow2_suma by lia.
        assert (2 ^ d <= 2 ^ (k + 53)) by (apply pow2_mono; lia). lia.
      + unfold escala in *.
        destruct (Z.le_gt_cases (ez + k) em) as [Hc|Hc].
        * set (j := em - ez - k).
          replace (em + 1074) with (j + (k + (ez + 1074))) in * by (unfold j; lia).
          replace (ez + k + 1074) with (k + (ez + 1074)) by lia.
          rewrite !pow2_suma in * by (unfold j; lia).
          pose proof (pow2_pos (ez + 1074) ltac:(lia)) as Pz.
          pose proof (pow2_pos k ltac:(lia)) as Pk.
          pose proof (pow2_pos j ltac:(unfold j; lia)) as Pj.
          assert (Hq : Zpos mm * 2 ^ j <= Zpos mz / 2 ^ k).
          { apply Z.div_le_lower_bound; [assumption|]. nia. }
          nia.
        * assert (Ek : k = d - 53) by lia.
          assert (Hq : 2 ^ 52 <= Zpos mz / 2 ^ k).
          { apply Z.div_le_lower_bound; [apply pow2_pos; lia|].
            rewrite <- pow2_suma by lia. replace (k + 52) with (d - 1) by lia. lia. }
          assert (Hp : 2 ^ (em + 1 + 1074) <= 2 ^ (ez + k + 1074))
            by (apply pow2_mono; lia).
          replace (em + 1 + 1074) with (1 + (em + 1074)) in Hp by lia.
          rewrite pow2_suma in Hp by lia.
          pose proof (pow2_pos (em + 1074) ltac:(lia)) as Pe.
          change (2 ^ 1) with 2 in Hp.
          change (2 ^ 52) with 4503599627370496 in *.
          change (2 ^ 53) with 9007199254740992 in *.
          nia. }
  destruct F as ((Hm1lo & Hm1hi) & He1 & Hval). clear H1.
  pose proof (round_nearest_even_cotas (shr_m mrs1) (loc_of_shr_record mrs1)) as Hr.
  set (m2 := round_nearest_even (shr_m mrs1) (loc_of_shr_record mrs1)) in *.
  pose proof (shr_fexp_spec m2 e1 ltac:(lia)) as H2.
  destruct (shr_fexp prec emax m2 e1 loc_Exact) as [mrs2 e2].
  rewrite fexp_64 in H2.
  assert (G : 0 <= shr_m mrs2 /\ escala (shr_m mrs2) e2 = escala m2 e1).
  { destruct (Z.eq_dec m2 (2 ^ 53)) as [E|NE].
    - rewrite E in H2. change (Zdigits2 (2 ^ 53)) with 54 in H2.
      destruct H2 as [(Hk & _)|(Hk & Hm & ->)]; [lia|].
      replace (Z.max (54 + e1 - 53) (-1074) - e1) with 1 in Hm by lia.
      rewrite Hm, E. unfold escala.
      replace (e1 + (Z.max (54 + e1 - 53) (-1074) - e1) + 1074) with (1 + (e1 + 1074)) by lia.
      rewrite pow2_suma by lia. change (2 ^ 53 / 2 ^ 1) with (2 ^ 52).
      change (2 ^ 1) with 2. change (2 ^ 52) with 4503599627370496.
      change (2 ^ 53) with 9007199254740992. lia.
    - assert (Hd2 : Zdigits2 m2 <= 53) by (apply Zdigits2_max; lia).
      destruct H2 as [(Hk & -> & ->)|(Hk & _)]; [|lia].
      simpl. split; [lia|reflexivity]. }
  destruct G as (Hm3 & Hval3).
  assert (Hpos : 0 < escala (Zpos mm) em) by (apply escala_pos; lia).
  assert (Hm2 : escala (shr_m mrs1) e1 <= escala m2 e1).
  { unfold escala. apply Z.mul_le_mono_nonneg_r; [|lia].
    apply Z.lt_le_incl, pow2_pos. lia. }
  destruct (shr_m mrs2) as [|m3|m3] eqn:E3.
  - unfold escala in Hval3 at 1. simpl in Hval3. lia.
  - destruct (e2 <=? emax - prec); [lia|exact I].
  - lia.
Qed.

Lemma binary_round_cota (s : positive) (ez : Z) (mm : positive) (em : Z) :
  -1074 <= ez ->
  bounded prec emax mm em = true ->
  escala (Zpos mm) em <= escala (Zpos s) ez ->
  match binary_round prec emax false s ez with
  | S754_finite false m3 e3 => escala (Zpos mm) em <= escala (Zpos m3) e3
  | S754_infinity false => True
  | _ => False
  end.
Proof.
  intros Hez Hb Hle. unfold binary_round.
  pose proof (shl_align_spec s ez (fexp prec emax (Zpos (digits2_pos s) + ez))) as H.
  destruct (shl_align s ez (fexp prec emax (Zpos (digits2_pos s) + ez))) as [mz ez'].
  destruct H as [He Hm]. rewrite fexp_64 in He.
  apply binary_round_aux_cota; [lia|assumption|].
  unfold escala in *. rewrite Hm.
  replace (ez + 1074) with ((ez - ez') + (ez' + 1074)) in Hle by lia.
  rewrite (pow2_suma (ez - ez') (ez' + 1074)) in Hle by lia. lia.
Qed.

(** On positive numbers of the format, [SFcompare] is the order of
    the values. *)
Lemma SFcompare_escala (m1 : positive) (e1 : Z) (m2 : positive) (e2 : Z) :
  bounded prec emax m1 e1 = true ->
  bounded prec emax m2 e2 = true ->
  SFcompare (S754_finite false m1 e1) (S754_finite false m2 e2)
  = Some (escala (Zpos m1) e1 ?= escala (Zpos m2) e2).
Proof.
  intros H1 H2.
  apply bounded_cotas in H1 as (He1 & Hm1 & Hn1).
  apply bounded_cotas in H2 as (He2 & Hm2 & Hn2).
  change (SFcompare (S754_finite false m1 e1) (S754_finite false m2 e2))
    with (Some (match e1 ?= e2 with
                | Eq => Pos.compare_cont Eq m1 m2
                | Lt => Lt
                | Gt => Gt
                end)).
  f_equal. unfold escala.
  pose proof (pow2_pos (e1 + 1074) ltac:(lia)) as P1.
  pose proof (pow2_pos (e2 + 1074) ltac:(lia)) as P2.
  change (2 ^ 52) with 4503599627370496 in *.
  change (2 ^ 53) with 9007199254740992 in *.
  destruct (Z.compare_spec e1 e2) as [E|L|G].
  - subst e2. rewrite Pos.compare_cont_spec.
    destruct (Pos.compare_spec m1 m2) as [E|L|G]; symmetry.
    + subst m2. apply Z.compare_refl.
    + apply Z.compare_lt_iff. apply Z.mul_lt_mono_pos_r; [assumption|lia].
    + apply Z.compare_gt_iff. apply Z.mul_lt_mono_pos_r; [assumption|lia].
  - symmetry. apply Z.compare_lt_iff.
    assert (Hp : 2 ^ (1 + (e1 + 1074)) <= 2 ^ (e2 + 1074)) by (apply pow2_mono; lia).
    rewrite pow2_suma in Hp by lia. change (2 ^ 1) with 2 in Hp.
    specialize (Hn2 ltac:(lia)). nia.
  - symmetry. apply Z.compare_gt_iff.
    assert (Hp : 2 ^ (1 + (e2 + 1074)) <= 2 ^ (e1 + 1074)) by (apply pow2_mono; lia).
    rewrite pow2_suma in Hp by lia. change (2 ^ 1) with 2 in Hp.
    specialize (Hn1 ltac:(lia)). nia.
Qed.

Lemma SFcompare_refl (x : spec_float) :
  x <> S754_nan -> SFcompare x x = Some Eq.
Proof.
  destruct x as [s|s| |s m e]; try destruct s; simpl; try congruence; intros _;
    rewrite Z.compare_refl, Pos.compare_cont_refl; reflexivity.
Qed.

(** Adding a positive amount to a balance that is not negative never
    gives less than the amount. *)
Lemma SFadd_no_menor (B M : spec_float) :
  valid_binary B = true ->
  valid_binary M = true ->
  valid_binary (SF64add B M) = true ->
  SFleb (S754_zero false) B = true ->
  SFltb (S754_zero false) M = true ->
  SFltb (SF64add B M) M = false.
Proof.
  intros VB VM VR HB HM.
  destruct B as [sb|sb| |sb mb eb]; try destruct sb; try discriminate HB;
    destruct M as [sm|sm| |sm mm em]; try destruct sm; try discriminate HM;
    try reflexivity;
    try (unfold SF64add, SFadd, SFltb; rewrite SFcompare_refl by discriminate; reflexivity).
  unfold SF64add, SFadd in *. simpl cond_Zopp in *.
  pose proof (shl_align_spec mb eb (Z.min eb em)) as Hb.
  pose proof (shl_align_spec mm em (Z.min eb em)) as Hm.
  destruct (shl_align mb eb (Z.min eb em)) as [mb' eb'].
  destruct (shl_align mm em (Z.min eb em)) as [mm' em'].
  simpl fst in *. destruct Hb as [Eb Hb], Hm as [Em Hm].
  simpl in VB, VM.
  pose proof (bounded_cotas _ _ VB) as (Heb & _).
  pose proof (bounded_cotas _ _ VM) as (Hem & _).
  change (Zpos mb' + Zpos mm') with (Zpos (mb' + mm')) in *.
  unfold binary_normalize in *.
  pose proof (binary_round_cota (mb' + mm') (Z.min eb em) mm em ltac:(lia) VM) as H.
  assert (Hle : escala (Zpos mm) em <= escala (Zpos (mb' + mm')) (Z.min eb em)).
  { unfold escala. rewrite Pos2Z.inj_add, Hm.
    replace (em - em') with (em - Z.min eb em) by lia.
    replace (em + 1074) with ((em - Z.min eb em) + (Z.min eb em + 1074)) by lia.
    rewrite (pow2_suma (em - Z.min eb em) (Z.min eb em + 1074)) by lia.
    pose proof (pow2_pos (Z.min eb em + 1074) ltac:(lia)).
    pose proof (pow2_pos (em - Z.min eb em) ltac:(lia)). nia. }
  specialize (H Hle).
  destruct (binary_round prec emax false (mb' + mm') (Z.min eb em))
    as [s|s| |s m3 e3]; try destruct s; try contradiction.
  - reflexivity.
  - simpl in VR. unfold SFltb. rewrite (SFcompare_escala _ _ _ _ VR VM).
    destruct (Z.compare_spec (escala (Zpos m3) e3) (escala (Zpos mm) em)); try reflexivity.
    lia.
Qed.

(** Rounding a positive mantissa gives zero, a positive number or
    plus infinity, never NaN. *)
Lemma binary_round_aux_no_negativo (m : positive) (e : Z) :
  SFleb (S754_zero false) (binary_round_aux prec emax false (Zpos m) e loc_Exact) = true.
Proof.
  unfold binary_round_aux.
  pose proof (shr_fexp_spec (Zpos m) e ltac:(lia)) as H1.
  destruct (shr_fexp prec emax (Zpos m) e loc_Exact) as [mrs1 e1].
  assert (F : 0 <= shr_m mrs1).
  { destruct H1 as [(_ & -> & _)|(Hk & -> & _)]; [simpl; lia|].
    apply Z.div_pos; [lia|]. apply pow2_pos. lia. }
  pose proof (round_nearest_even_cotas (shr_m mrs1) (loc_of_shr_record mrs1)) as Hr.
  set (m2 := round_nearest_even (shr_m mrs1) (loc_of_shr_record mrs1)) in *.
  pose proof (shr_fexp_spec m2 e1 ltac:(lia)) as H2.
  destruct (shr_fexp prec emax m2 e1 loc_Exact) as [mrs2 e2].
  assert (G : 0 <= shr_m mrs2).
  { destruct H2 as [(_ & -> & _)|(Hk & -> & _)]; [simpl; lia|].
    apply Z.div_pos; [lia|]. apply pow2_pos. lia. }
  destruct (shr_m mrs2) as [|m3|m3]; [reflexivity| |lia].
  destruct (e2 <=? emax - prec); reflexivity.
Qed.

Lemma binary_round_no_negativo (m : positive) (e : Z) :
  SFleb (S754_zero false) (binary_round prec emax false m e) = true.
Proof.
  unfold binary_round.
  destruct (shl_align m e (fexp prec emax (Zpos (digits2_pos m) + e))) as [mz ez].
  apply binary_round_aux_no_negativo.
Qed.

Lemma SFadd_no_negativo (B M : spec_float) :
  SFleb (S754_zero false) B = true ->
  SFleb (S754_zero false) M = true ->
  SFleb (S754_zero false) (SF64add B M) = true.
Proof.
  intros HB HM.
  destruct B as [sb|sb| |sb mb eb]; try destruct sb; try discriminate HB;
    destruct M as [sm|sm| |sm mm em]; try destruct sm; try discriminate HM;
    try reflexivity.
  unfold SF64add, SFadd. simpl cond_Zopp.
  destruct (shl_align mb eb (Z.min eb em)) as [mb' eb'].
  destruct (shl_align mm em (Z.min eb em)) as [mm' em'].
  simpl fst. change (Zpos mb' + Zpos mm') with (Zpos (mb' + mm')).
  apply binary_round_no_negativo.
Qed.

Lemma SFmul_no_negativo (B : spec_float) (mr : positive) (er : Z) :
  SFleb (S754_zero false) B = true ->
  SFleb (S754_zero false) (SF64mul B (S754_finite false mr er)) = true.
Proof.
  intros HB.
  destruct B as [sb|sb| |sb mb eb]; try destruct sb; try discriminate HB;
    try reflexivity.
  unfold SF64mul, SFmul. simpl xorb. apply binary_round_aux_no_negativo.
Qed.

(** Taking from a balance a positive amount that it covers leaves a
    balance that is not negative, unless both are infinite. *)
Lemma SFsub_no_negativo (B M : spec_float) :
  valid_binary B = true ->
  valid_binary M = true ->
  SFltb (S754_zero false) M = true ->
  SFleb M B = true ->
  M <> S754_infinity false ->
  SFleb (S754_zero false) (SF64sub B M) = true.
Proof.
  intros VB VM HM HMB Hfin.
  destruct M as [sm|sm| |sm mm em]; try destruct sm; try discriminate HM;
    try congruence.
  destruct B as [sb|sb| |sb mb eb]; try destruct sb; try discriminate HMB;
    try reflexivity.
  simpl in VB, VM. unfold SFleb in HMB.
  rewrite (SFcompare_escala _ _ _ _ VM VB) in HMB.
  assert (Hle : escala (Zpos mm) em <= escala (Zpos mb) eb).
  { destruct (Z.compare_spec (escala (Zpos mm) em) (escala (Zpos mb) eb));
      try discriminate; lia. }
  unfold SF64sub, SFsub. simpl cond_Zopp.
  pose proof (shl_align_spec mb eb (Z.min eb em)) as Hb.
  pose proof (shl_align_spec mm em (Z.min eb em)) as Hm.
  destruct (shl_align mb eb (Z.min eb em)) as [mb' eb'].
  destruct (shl_align mm em (Z.min eb em)) as [mm' em'].
  simpl fst. destruct Hb as [Eb Hb], Hm as [Em Hm].
  pose proof (bounded_cotas _ _ VB) as (Heb & _).
  pose proof (bounded_cotas _ _ VM) as (Hem & _).
  assert (Hd : 0 <= Zpos mb' - Zpos mm').
  { unfold escala in Hle. rewrite Hb, Hm.
    replace (eb - eb') with (eb - Z.min eb em) by lia.
    replace (em - em') with (em - Z.min eb em) by lia.
    replace (em + 1074) with ((em - Z.min eb em) + (Z.min eb em + 1074)) in Hle by lia.
    replace (eb + 1074) with ((eb - Z.min eb em) + (Z.min eb em + 1074)) in Hle by lia.
    rewrite (pow2_suma (em - Z.min eb em)), (pow2_suma (eb - Z.min eb em)) in Hle by lia.
    pose proof (pow2_pos (Z.min eb em + 1074) ltac:(lia)). nia. }
  destruct (Zpos mb' - Zpos mm') as [|d|d]; [reflexivity| |lia].
  apply binary_round_no_negativo.
Qed.


End Binary64.

(** ** Arithmetic of balances *)

Section Flotantes.

Lemma Prim2SF_cero : Prim2SF (of_int 0) = S754_zero false.
Proof. reflexivity. Qed.

Lemma finito_spec (x : float) :
  PrimFloat.is_finite x = true ->
  Prim2SF x <> S754_nan /\ forall s, Prim2SF x <> S754_infinity s.
Proof.
  unfold PrimFloat.is_finite, PrimFloat.is_nan, PrimFloat.is_infinity.
  rewrite !FloatAxioms.eqb_spec, abs_spec.
  change (Prim2SF infinity) with (S754_infinity false).
  destruct (Prim2SF x) as [s|s| |s m e]; simpl; intros H;
    try discriminate H; try (split; [|intros ?]; discriminate).
  destruct s; discriminate H.
Qed.

Lemma lt_le (x y : float) : lt x y = true -> le x y = true.
Proof.
  unfold lt, le. rewrite ltb_spec, leb_spec. unfold SFltb, SFleb.
  destruct (SFcompare (Prim2SF x) (Prim2SF y)) as [[]|]; congruence.
Qed.

(** A finite amount that is not [<= 0] is [> 0]. *)
Lemma finito_no_le_es_positivo (m : float) :
  PrimFloat.is_finite m = true -> le m (of_int 0) = false -> lt (of_int 0) m = true.
Proof.
  intros Hf. apply finito_spec in Hf as [Hn Hi].
  unfold lt, le. rewrite ltb_spec, leb_spec, Prim2SF_cero.
  destruct (Prim2SF m) as [s|s| |s mm em]; try destruct s;
    cbv [SFleb SFltb SFcompare]; congruence.
Qed.

(** A finite amount that is not above a balance [>= 0] is covered by it. *)
Lemma finito_no_gt_es_le (b m : float) :
  le (of_int 0) b = true ->
  PrimFloat.is_finite m = true ->
  gt m b = false -> le m b = true.
Proof.
  intros Hb Hf. apply finito_spec in Hf as [Hn Hi].
  unfold gt, le in *. rewrite ltb_spec, leb_spec in *. rewrite Prim2SF_cero in Hb.
  unfold SFltb, SFleb in *.
  rewrite (SFcompare_opp (Prim2SF b) (Prim2SF m)).
  destruct (Prim2SF b) as [sb|sb| |sb mb eb]; try discriminate Hb;
    destruct (Prim2SF m) as [sm|sm| |sm mm em]; try congruence;
    try (now destruct (Hi sm));
    match goal with
    | |- context [SFcompare ?x ?y] => destruct (SFcompare x y) as [[]|] eqn:E
    end; simpl; try congruence;
    try destruct sb; try destruct sm; simpl in E; try discriminate E;
    destruct (eb ?= em)%Z; discriminate E.
Qed.

(** [m <= b + m] in binary64, for [b >= 0] and [m > 0]. *)
Lemma suma_no_menor (b m : float) :
  le (of_int 0) b = true ->
  lt (of_int 0) m = true ->
  gt m (PrimFloat.add b m) = false.
Proof.
  unfold le, lt, gt. rewrite leb_spec, !ltb_spec, add_spec, Prim2SF_cero.
  apply SFadd_no_menor; try apply Prim2SF_valid.
  rewrite <- add_spec. apply Prim2SF_valid.
Qed.

Lemma suma_no_negativa (b m : float) :
  le (of_int 0) b = true ->
  le (of_int 0) m = true ->
  le (of_int 0) (PrimFloat.add b m) = true.
Proof.
  unfold le. rewrite !leb_spec, add_spec, Prim2SF_cero. apply SFadd_no_negativo.
Qed.

Lemma producto_no_negativo (b r : float) (mr : positive) (er : Z) :
  Prim2SF r = S754_finite false mr er ->
  le (of_int 0) b = true ->
  le (of_int 0) (PrimFloat.mul b r) = true.
Proof.
  intros Hr. unfold le. rewrite !leb_spec, mul_spec, Prim2SF_cero, Hr.
  apply SFmul_no_negativo.
Qed.

Lemma resta_no_negativa (b m : float) :
  lt (of_int 0) m = true ->
  le m b = true ->
  PrimFloat.is_finite m = true ->
  le (of_int 0) (PrimFloat.sub b m) = true.
Proof.
  intros Hm Hmb Hf. apply finito_spec in Hf as [_ Hi].
  unfold le, lt in *. rewrite leb_spec in *. rewrite ltb_spec, Prim2SF_cero in Hm.
  rewrite sub_spec, Prim2SF_cero.
  apply SFsub_no_negativo; auto using Prim2SF_valid.
Qed.

End Flotantes.

(** ** A deposit taken out again *)

(** Ten cents, twenty deposited and withdrawn: both calls return, and
    the balance is 0.10000000000000003, not 0.1. *)
Lemma deposito_y_retiro_no_restituyen :
  lt (of_int 0) 0.2%float = true
  /\ ~ deposito_y_retiro_restituyen mundo_rosa 0%nat 0.2%float.
Proof.
  split; [reflexivity|].
  intros (c & w1 & w2 & c2 & Hc & H1 & H2 & Hc2 & Hs & _).
  assert (Hl : objs mundo_rosa !! 0%nat = Some rosa) by reflexivity.
  rewrite Hl in Hc. injection Hc as <-.
  rewrite (depositar_ok 0%nat rosa 0.2%float mundo_rosa eq_refl eq_refl) in H1.
  injection H1 as <-.
  assert (Hr : objs (tras_depositar 0%nat rosa 0.2%float mundo_rosa) !! 0%nat
               = Some {| clase_de := clase_de rosa; numero := numero rosa;
                         titular := titular rosa;
                         _saldo := (0.1 + 0.2)%float;
                         historial := [(reloj_de_prueba 0, lit "Depósito",
                                        lit "+S/. " ++ format_2f 0.2%float)] |}).
  { rewrite tras_depositar_leer. reflexivity. }
  rewrite (retirar_ok 0%nat _ 0.2%float _ Hr eq_refl eq_refl) in H2.
  injection H2 as <-.
  rewrite tras_retirar_leer in Hc2. simpl in Hc2. injection Hc2 as <-.
  simpl in Hs. apply (f_equal Prim2SF) in Hs. vm_compute in Hs. discriminate Hs.
Qed.

(** C5, as the code has it: on a balance [B >= 0], [depositar] of a
    finite amount [> 0] and then [retirar] of the same amount both
    return and append one row each; the balance is left at
    [(B + monto) - monto] as binary64 computes it, which is [>= 0]. *)
Theorem deposito_y_retiro (w : Mundo) (self : ref) (c : Cuenta) (monto : float) :
  objs w !! self = Some c ->
  le (of_int 0) (_saldo c) = true ->
  lt (of_int 0) monto = true ->
  PrimFloat.is_finite monto = true ->
  exists w1 w2,
    depositar self monto w = (Ret tt, w1)
    /\ retirar self monto w1 = (Ret tt, w2)
    /\ objs w2 !! self
       = Some {| clase_de := clase_de c; numero := numero c; titular := titular c;
                 _saldo := PrimFloat.sub (PrimFloat.add (_saldo c) monto) monto;
                 historial := historial c
                   ++ [(reloj w (tics w), lit "Depósito", lit "+S/. " ++ format_2f monto);
                       (reloj w (1 + tics w)%nat, lit "Retiro",
                        lit "-S/. " ++ format_2f monto)] |}
    /\ le (of_int 0) (PrimFloat.sub (PrimFloat.add (_saldo c) monto) monto) = true.
Proof.
  intros Hc Hb Hm Hf.
  pose proof (lt_no_le _ _ Hm) as Hg.
  pose proof (suma_no_menor _ _ Hb Hm) as Hcubre.
  exists (tras_depositar self c monto w).
  assert (H1 : objs (tras_depositar self c monto w) !! self
               = Some {| clase_de := clase_de c; numero := numero c; titular := titular c;
                         _saldo := PrimFloat.add (_saldo c) monto;
                         historial := historial c
                           ++ [(reloj w (tics w), lit "Depósito",
                                lit "+S/. " ++ format_2f monto)] |}).
  { rewrite tras_depositar_leer. now destruct (decide (self = self)). }
  eexists. split; [now apply depositar_ok|].
  split; [|split].
  - apply (retirar_ok _ _ _ _ H1 Hg). exact Hcubre.
  - rewrite tras_retirar_leer. destruct (decide (self = self)); [|congruence].
    simpl. now rewrite <- app_assoc.
  - apply resta_no_negativa; [assumption| |assumption].
    apply finito_no_gt_es_le; [|assumption|assumption].
    apply suma_no_negativa; [assumption|now apply lt_le].
Qed.

Lemma deposito_y_retiro_testigo :
  exists w1 w2,
    depositar 0%nat 0.2%float mundo_rosa = (Ret tt, w1)
    /\ retirar 0%nat 0.2%float w1 = (Ret tt, w2)
    /\ _saldo <$> objs w2 !! 0%nat = Some (0.1 + 0.2 - 0.2)%float
    /\ length <$> (historial <$> objs w2 !! 0%nat) = Some 2%nat.
Proof.
  destruct (deposito_y_retiro mundo_rosa 0%nat rosa 0.2%float)
    as (w1 & w2 & E1 & E2 & H & _); try reflexivity.
  exists w1, w2. rewrite H. repeat split; assumption.
Defined.

(** ** A transfer, to the last bit *)

(** From ten thousand million million, a transfer of 1 returns and the
    destination gains 1, but the source still holds what it held: the
    difference is no number of binary64 and rounds back. *)
Lemma transferencia_no_exacta :
  0%nat <> 1%nat
  /\ lt (of_int 0) 1%float = true
  /\ le 1%float (_saldo sara) = true
  /\ ~ transferencia_exacta mundo_sara 0%nat 1%nat 1%float.
Proof.
  split; [discriminate|]. split; [reflexivity|]. split; [reflexivity|].
  intros (cs & cd & w' & cs' & cd' & vs & vd & vm
          & Hcs & _ & Ht & Hcs' & _ & Hvs & _ & Hvm & Hvs' & _).
  assert (Hl : objs mundo_sara !! 0%nat = Some sara) by reflexivity.
  rewrite Hl in Hcs. injection Hcs as <-.
  destruct (transferencia_pasos mundo_sara 0%nat 1%nat sara luis 1%float)
    as (w1 & E & Hs & _); try reflexivity; try discriminate.
  rewrite E in Ht. injection Ht as <-.
  rewrite Hs in Hcs'. injection Hcs' as <-.
  vm_compute in Hvs. injection Hvs as <-.
  vm_compute in Hvm. injection Hvm as <-.
  vm_compute in Hvs'. discriminate Hvs'.
Qed.

(** C3, as the code has it: between two distinct accounts, a transfer
    of a finite amount [0 < monto <= saldo] succeeds; the source holds
    [saldo - monto] as binary64 computes it, which is [>= 0], and two
    more rows (the withdrawal, then the transfer out, naming the
    destination); the destination holds [saldo + monto] as binary64
    computes it, which is [>= 0] if its balance was, and two more rows
    (the deposit, then the transfer in, naming the source): four rows
    in all, and nothing else in the world moves but the clock. *)
Theorem transferencia_exitosa (w : Mundo) (self destino : ref) (cs cd : Cuenta)
    (monto : float) :
  self <> destino ->
  objs w !! self = Some cs ->
  objs w !! destino = Some cd ->
  PrimFloat.is_finite monto = true ->
  lt (of_int 0) monto = true ->
  le monto (_saldo cs) = true ->
  exists w',
    transferir self destino monto w = (Ret tt, w')
    /\ objs w' !! self
       = Some {| clase_de := clase_de cs; numero := numero cs; titular := titular cs;
                 _saldo := PrimFloat.sub (_saldo cs) monto;
                 historial := historial cs
                   ++ [(reloj w (tics w), lit "Retiro", lit "-S/. " ++ format_2f monto);
                       (reloj w (2 + tics w)%nat, lit "Transferencia a " ++ numero cd,
                        lit "-S/. " ++ format_2f monto)] |}
    /\ objs w' !! destino
       = Some {| clase_de := clase_de cd; numero := numero cd; titular := titular cd;
                 _saldo := PrimFloat.add (_saldo cd) monto;
                 historial := historial cd
                   ++ [(reloj w (1 + tics w)%nat, lit "Depósito", lit "+S/. " ++ format_2f monto);
                       (reloj w (3 + tics w)%nat, lit "Transferencia de " ++ numero cs,
                        lit "+S/. " ++ format_2f monto)] |}
    /\ le (of_int 0) (PrimFloat.sub (_saldo cs) monto) = true
    /\ (le (of_int 0) (_saldo cd) = true ->
        le (of_int 0) (PrimFloat.add (_saldo cd) monto) = true)
    /\ (forall r, r <> self -> r <> destino -> objs w' !! r = objs w !! r)
    /\ cuentas w' = cuentas w /\ db_conn w' = db_conn w /\ dialogos w' = dialogos w.
Proof.
  intros Hne Hs Hd Hf Hpos Hle.
  destruct (transferencia_pasos w self destino cs cd monto Hne Hs Hd Hpos Hle)
    as (w' & E & Hs' & Hd' & Hr & Hc & Hdb & Hdi).
  exists w'. do 3 (split; [assumption|]).
  split; [now apply resta_no_negativa|].
  split; [intros Hcd; apply suma_no_negativa; [assumption|now apply lt_le]|].
  repeat split; assumption.
Qed.

Lemma transferencia_exitosa_testigo :
  exists w',
    transferir 0%nat 1%nat 30%float mundo_dos = (Ret tt, w')
    /\ _saldo <$> objs w' !! 0%nat = Some 70%float
    /\ _saldo <$> objs w' !! 1%nat = Some 30%float
    /\ length <$> (historial <$> objs w' !! 0%nat) = Some 2%nat
    /\ length <$> (historial <$> objs w' !! 1%nat) = Some 2%nat.
Proof.
  destruct (transferencia_exitosa mundo_dos 0%nat 1%nat ana luis 30%float)
    as (w' & E & Hs & Hd & _); try reflexivity; try discriminate.
  exists w'. rewrite Hs, Hd. repeat split; assumption.
Defined.

(** ** Balances below zero *)

Lemma saldos_mundo_dos : saldos_no_negativos mundo_dos.
Proof.
  intros r c H. unfold mundo_dos in H. simpl in H.
  rewrite lookup_insert in H. destruct (decide (1%nat = r)).
  - injection H as <-. reflexivity.
  - rewrite lookup_insert in H. destruct (decide (0%nat = r)).
    + injection H as <-. reflexivity.
    + rewrite lookup_empty in H. discriminate H.
Qed.

(** C1 fails on the code: every balance of the sample world passes
    [0 <= saldo]; after [depositar(inf)] and [retirar(inf)] on Luis's
    account, both accepted, his balance is NaN, and [0 <= nan] is
    false. *)
Theorem saldo_nan_tras_retiro_infinito :
  let os := [Depositar 1%nat infinity; Retirar 1%nat infinity] in
  let w := ejecutar_todas os mundo_dos in
  saldos_no_negativos mundo_dos
  /\ fst (depositar 1%nat infinity mundo_dos) = Ret tt
  /\ fst (retirar 1%nat infinity (snd (depositar 1%nat infinity mundo_dos))) = Ret tt
  /\ _saldo <$> objs w !! 1%nat = Some nan
  /\ le (of_int 0) nan = false
  /\ ~ saldos_no_negativos w.
Proof.
  intros os w.
  assert (Hn : _saldo <$> objs w !! 1%nat = Some nan) by (vm_compute; reflexivity).
  split; [exact saldos_mundo_dos|].
  split; [vm_compute; reflexivity|].
  split; [vm_compute; reflexivity|].
  split; [exact Hn|]. split; [reflexivity|].
  intros H. destruct (objs w !! 1%nat) as [c|] eqn:E; [|discriminate Hn].
  specialize (H 1%nat c E). simpl in Hn. injection Hn as Hn.
  rewrite Hn in H. discriminate H.
Qed.

(** With amounts that are finite numbers the balances stay [>= 0]. *)

Lemma saldos_escribir (w : Mundo) (r : ref) (c : Cuenta) (n : nat) :
  saldos_no_negativos w ->
  le (of_int 0) (_saldo c) = true ->
  saldos_no_negativos (con_objs (<[r := c]> (objs w)) (con_tics n w)).
Proof.
  intros H Hc r' c' E. simpl in E. rewrite lookup_insert in E.
  destruct (decide (r = r')); [congruence|]. now apply (H r').
Qed.

Lemma mantiene_ret {A} (a : A) : mantiene (ret a).
Proof. intros w H. exact H. Qed.

Lemma mantiene_leer (r : ref) : mantiene (leer r).
Proof. intros w H. unfold leer. now destruct (objs w !! r). Qed.

Lemma mantiene_bind {A B} (m : M A) (k : A -> M B) :
  mantiene m -> (forall a, mantiene (k a)) -> mantiene (bind m k).
Proof.
  intros Hm Hk w H. unfold bind. specialize (Hm w H).
  destruct (m w) as [[a|e] w1]; simpl in *; [|assumption].
  now apply Hk.
Qed.

Lemma mantiene_registrar (self : ref) (tipo monto_str : str) :
  mantiene (_registrar_transaccion self tipo monto_str).
Proof.
  intros w H. destruct (objs w !! self) as [c|] eqn:E.
  - rewrite (registrar_ok _ _ _ _ _ E). simpl. unfold tras_registrar.
    apply (saldos_escribir w self _ (S (tics w))); [assumption|]. simpl. now apply (H self).
  - unfold _registrar_transaccion, bind, ahora, leer. simpl. rewrite E. simpl.
    intros r c Hr. now apply (H r).
Qed.

Lemma mantiene_depositar (self : ref) (monto : float) :
  PrimFloat.is_finite monto = true -> mantiene (depositar self monto).
Proof.
  intros Hf w H. destruct (le monto (of_int 0)) eqn:Hm.
  - now rewrite (depositar_rechaza _ _ _ Hm).
  - destruct (objs w !! self) as [c|] eqn:E.
    + rewrite (depositar_ok _ _ _ _ E Hm). simpl. unfold tras_depositar, tras_registrar.
      simpl. rewrite insert_insert_eq.
      apply (saldos_escribir w self _ (S (tics w))); [assumption|]. simpl.
      apply suma_no_negativa; [now apply (H self)|].
      now apply lt_le, finito_no_le_es_positivo.
    + unfold depositar. now rewrite Hm, (bind_raise _ _ _ _ _ (leer_nada _ _ E)).
Qed.

Lemma mantiene_retirar (self : ref) (monto : float) :
  PrimFloat.is_finite monto = true -> mantiene (retirar self monto).
Proof.
  intros Hf w H. destruct (le monto (of_int 0)) eqn:Hm.
  - now rewrite (retirar_rechaza_monto _ _ _ Hm).
  - destruct (objs w !! self) as [c|] eqn:E.
    + destruct (gt monto (_saldo c)) eqn:Hg.
      * now rewrite (retirar_rechaza_saldo _ _ _ _ E Hm Hg).
      * rewrite (retirar_ok _ _ _ _ E Hm Hg). simpl. unfold tras_retirar, tras_registrar.
        simpl. rewrite insert_insert_eq.
        apply (saldos_escribir w self _ (S (tics w))); [assumption|]. simpl.
        apply resta_no_negativa; [now apply finito_no_le_es_positivo| |assumption].
        apply finito_no_gt_es_le; [now apply (H self)|assumption|assumption].
    + unfold retirar. now rewrite Hm, (bind_raise _ _ _ _ _ (leer_nada _ _ E)).
Qed.

Lemma mantiene_transferir (self destino : ref) (monto : float) :
  PrimFloat.is_finite monto = true -> mantiene (transferir self destino monto).
Proof.
  intros Hf. unfold transferir.
  apply mantiene_bind; [now apply mantiene_retirar|intros _].
  apply mantiene_bind; [now apply mantiene_depositar|intros _].
  apply mantiene_bind; [apply mantiene_leer|intros d].
  apply mantiene_bind; [apply mantiene_registrar|intros _].
  apply mantiene_bind; [apply mantiene_leer|intros s].
  apply mantiene_registrar.
Qed.

Lemma mantiene_interes_con (tasa_anual : float) (etiqueta : str) (self : ref)
    (mr : positive) (er : Z) :
  Prim2SF (PrimFloat.div tasa_anual (of_int 12)) = S754_finite false mr er ->
  mantiene (interes_con tasa_anual etiqueta self).
Proof.
  intros Hr w H. destruct (objs w !! self) as [c|] eqn:E.
  - rewrite (interes_con_ok _ _ _ _ _ E). simpl. unfold tras_registrar.
    simpl. rewrite insert_insert_eq.
    apply (saldos_escribir w self _ (S (tics w))); [assumption|]. simpl.
    pose proof (H self c E) as Hc.
    apply suma_no_negativa; [assumption|].
    now apply (producto_no_negativo _ _ mr er).
  - unfold interes_con. now rewrite (bind_raise _ _ _ _ _ (leer_nada _ _ E)).
Qed.

Lemma mantiene_aplicar_interes (self : ref) : mantiene (aplicar_interes self).
Proof.
  unfold aplicar_interes. apply mantiene_bind; [apply mantiene_leer|].
  intros c. destruct (clase_de c).
  - apply mantiene_ret.
  - eapply mantiene_interes_con. vm_compute. reflexivity.
  - eapply mantiene_interes_con. vm_compute. reflexivity.
Qed.

(** X1: from balances [>= 0], any list of deposits, withdrawals,
    transfers and interest whose amounts are finite numbers leaves
    balances [>= 0], after each call. *)
Theorem saldos_no_negativos_con_montos_finitos (os : list operacion) (w : Mundo) :
  saldos_no_negativos w ->
  Forall monto_finito os ->
  saldos_no_negativos (ejecutar_todas os w).
Proof.
  revert w. induction os as [|o os IH]; intros w H Hf; simpl; [assumption|].
  inversion Hf as [|? ? Ho Hos]; subst. apply IH; [|assumption].
  destruct o; simpl in *.
  - now apply mantiene_depositar.
  - now apply mantiene_retirar.
  - now apply mantiene_transferir.
  - now apply mantiene_aplicar_interes.
Qed.

Lemma saldos_no_negativos_con_montos_finitos_testigo :
  saldos_no_negativos
    (ejecutar_todas [Depositar 0%nat 50%float; Retirar 0%nat 200%float;
                     Transferir 0%nat 1%nat 30%float; AplicarInteres 1%nat] mundo_dos).
Proof.
  apply saldos_no_negativos_con_montos_finitos.
  - exact saldos_mundo_dos.
  - repeat constructor.
Defined.

(** ** Rows of unknown kind *)

(** Not every row of unknown kind makes the loading raise: the one that
    follows a row of known kind does not. *)
Lemma no_toda_fila_desconocida_falla : ~ toda_fila_desconocida_falla.
Proof.
  intros H.
  destruct (H (mundo_con_filas [fila_ana; fila_luis_plazo]) _ eq_refl) as [w' E].
  - apply carga_con_tipo_desconocido_no_falla.
  - pose proof carga_con_tipo_desconocido_no_falla as (_ & Hr & _).
    simpl in Hr. rewrite E in Hr. discriminate Hr.
Qed.

(** * Further properties *)

(** ** What the fields of the forms may hold *)

(** X2: the identifier check of [_crear_cuenta] passes on the stripped
    field exactly when it is ten digits. *)
Theorem identificador_aceptado_sii_diez_digitos (digito : N -> bool) (s : str) :
  match_anclado (patron_numero digito) (strip s) = true
  <-> diez_digitos digito (strip s).
Proof. rewrite match_anclado_strip. apply patron_numero_acepta. Qed.

(** X3: the owner check of [_crear_cuenta] passes on the stripped field
    exactly when it is two words or more, of the letters of the pattern,
    with one space between them. *)
Theorem titular_aceptado_sii_nombre_y_apellido (s : str) :
  match_anclado patron_titular (strip s) = true
  <-> nombre_y_apellido (strip s).
Proof. rewrite match_anclado_strip. apply patron_titular_acepta. Qed.

Lemma fullmatch_estrella_clase (p : N -> bool) (s : str) :
  fullmatch (Estrella (Clase p)) s = true <-> Forall (fun c => p c = true) s.
Proof.
  rewrite fullmatch_acepta. split.
  - intros H. now apply (acepta_estrella_clase p (Estrella (Clase p))).
  - induction 1 as [|c s Hc Hs IH].
    + constructor.
    + change (c :: s) with ([c] ++ s). constructor; [now constructor|assumption].
Qed.

Lemma nombre_letras_y_espacios (ps : list str) :
  Forall palabra ps -> Forall (fun c => letra_o_espacio c = true) (unir ps).
Proof.
  induction 1 as [|p ps [_ Hp] Hps IH]; [constructor|].
  assert (Hl : Forall (fun c => letra_o_espacio c = true) p).
  { eapply Forall_impl; [exact Hp|]. intros c Hc. unfold letra_o_espacio.
    simpl in Hc. now rewrite Hc. }
  destruct ps as [|q ps]; [exact Hl|].
  change (unir (p :: q :: ps)) with (p ++ 32%N :: unir (q :: ps)).
  apply Forall_app. split; [exact Hl|]. constructor; [|exact IH].
  unfold letra_o_espacio. apply orb_true_r.
Qed.

(** X4: every name that [_crear_cuenta] accepts can be typed: the
    validator of the owner entry lets each of its prefixes through. *)
Theorem nombre_valido_se_puede_teclear (s P : str) :
  nombre_y_apellido s ->
  P `prefix_of` s ->
  vcmd_titular P = true.
Proof.
  intros (ps & _ & Hps & ->) [r Hr].
  apply fullmatch_estrella_clase.
  pose proof (nombre_letras_y_espacios ps Hps) as H.
  rewrite Hr in H. now apply Forall_app in H as [H _].
Qed.

Lemma nombre_valido_se_puede_teclear_testigo :
  vcmd_titular (lit "Ana Per") = true.
Proof.
  apply (nombre_valido_se_puede_teclear (lit "Ana Perez") (lit "Ana Per")).
  - apply patron_titular_acepta. reflexivity.
  - exists (lit "ez"). reflexivity.
Defined.

Lemma acepta_opc_clase (p : N -> bool) (s : str) :
  acepta (Opc (Clase p)) s <-> s = [] \/ exists c, p c = true /\ s = [c].
Proof.
  split.
  - intros H. inversion H; subst.
    + match goal with H1 : acepta (Clase _) _ |- _ => inversion H1; subst end. eauto.
    + match goal with H1 : acepta Epsilon _ |- _ => inversion H1; subst end. auto.
  - intros [->|(c & Hc & ->)].
    + apply acepta_alt_d. constructor.
    + apply acepta_alt_i. now constructor.
Qed.

Lemma acepta_estrella_clase_sii (p : N -> bool) (s : str) :
  acepta (Estrella (Clase p)) s <-> Forall (fun c => p c = true) s.
Proof. rewrite <- fullmatch_acepta. apply fullmatch_estrella_clase. Qed.

(** X5: what the validator of the amount entries lets through: digits,
    then at most one point, then at most two digits; no sign and no
    exponent. *)
Theorem monto_tecleable (digito : N -> bool) (P : str) :
  vcmd_saldo digito P = true
  <-> exists ent dec : str,
        Forall (fun c => digito c = true) ent
        /\ Forall (fun c => digito c = true) dec
        /\ (length dec <= 2)%nat
        /\ (P = ent ++ dec \/ P = ent ++ 46%N :: dec).
Proof.
  unfold vcmd_saldo. rewrite fullmatch_acepta. split.
  - intros H. inversion H as [| |? ? ent r1 Hent H1| | | |]; subst.
    inversion H1 as [| |? ? pt r2 Hpt H2| | | |]; subst.
    inversion H2 as [| |? ? d1 d2 Hd1 Hd2| | | |]; subst.
    apply acepta_estrella_clase_sii in Hent.
    apply acepta_opc_clase in Hpt, Hd1, Hd2.
    exists ent, (d1 ++ d2).
    assert (Hdec : Forall (fun c => digito c = true) (d1 ++ d2) /\ (length (d1 ++ d2) <= 2)%nat).
    { destruct Hd1 as [->|(a & Ha & ->)], Hd2 as [->|(b & Hb & ->)]; simpl;
        repeat constructor; assumption. }
    destruct Hdec as [Hf Hl]. repeat split; try assumption.
    destruct Hpt as [->|(c & Hc & ->)]; [left; reflexivity|].
    right. apply N.eqb_eq in Hc. subst c. reflexivity.
  - intros (ent & dec & Hent & Hdec & Hl & HP).
    assert (Hd : acepta (Sec (Opc (Clase digito)) (Opc (Clase digito))) dec).
    { destruct dec as [|a [|b [|c dec]]]; simpl in Hl; try lia.
      - change (@nil N) with (@nil N ++ []).
        constructor; apply acepta_opc_clase; auto.
      - inversion Hdec; subst. change [a] with ([a] ++ []).
        constructor; apply acepta_opc_clase; eauto.
      - inversion Hdec as [|? ? Ha Hdec']; subst. inversion Hdec'; subst.
        change [a; b] with ([a] ++ [b]).
        constructor; apply acepta_opc_clase; eauto. }
    apply acepta_estrella_clase_sii in Hent.
    destruct HP as [->| ->].
    + constructor; [assumption|].
      change dec with ([] ++ dec). constructor; [|assumption].
      apply acepta_opc_clase. auto.
    + constructor; [assumption|].
      change (46%N :: dec) with ([46%N] ++ dec). constructor; [|assumption].
      apply acepta_opc_clase. right. exists 46%N. split; reflexivity.
Qed.

(** ** Rules for statements *)

Section Triples.

Context {A B : Type}.

Lemma triple_ret (a : A) (P : Mundo -> Prop) (Q : A -> Mundo -> Prop)
    (E : exn -> Mundo -> Prop) :
  (forall w, P w -> Q a w) -> triple P (ret a) Q E.
Proof. intros H w Hw. simpl. auto. Qed.

Lemma triple_raise (e : exn) (P : Mundo -> Prop) (Q : A -> Mundo -> Prop)
    (E : exn -> Mundo -> Prop) :
  (forall w, P w -> E e w) -> triple P (@raise A e) Q E.
Proof. intros H w Hw. simpl. auto. Qed.

Lemma triple_bind (m : M A) (k : A -> M B) (P : Mundo -> Prop)
    (Q1 : A -> Mundo -> Prop) (Q : B -> Mundo -> Prop) (E : exn -> Mundo -> Prop) :
  triple P m Q1 E ->
  (forall a, triple (Q1 a) (k a) Q E) ->
  triple P (bind m k) Q E.
Proof.
  intros Hm Hk w Hw. unfold bind. specialize (Hm w Hw).
  destruct (m w) as [[a|e] w1]; [|exact Hm].
  exact (Hk a w1 Hm).
Qed.

Lemma triple_consecuencia (m : M A) (P P' : Mundo -> Prop)
    (Q Q' : A -> Mundo -> Prop) (E E' : exn -> Mundo -> Prop) :
  triple P' m Q' E' ->
  (forall w, P w -> P' w) ->
  (forall a w, Q' a w -> Q a w) ->
  (forall e w, E' e w -> E e w) ->
  triple P m Q E.
Proof.
  intros Hm HP HQ HE w Hw. specialize (Hm w (HP w Hw)).
  destruct (m w) as [[a|e] w1]; auto.
Qed.

Lemma triple_try_except (m : M A) (h : exn -> M A) (P : Mundo -> Prop)
    (Q : A -> Mundo -> Prop) (E1 E : exn -> Mundo -> Prop) :
  triple P m Q E1 ->
  (forall e, triple (E1 e) (h e) Q E) ->
  triple P (try_except m h) Q E.
Proof.
  intros Hm Hh w Hw. unfold try_except. specialize (Hm w Hw).
  destruct (m w) as [[a|e] w1]; [exact Hm|].
  exact (Hh e w1 Hm).
Qed.

End Triples.

(** ** What an error of the operations form leaves behind *)

Lemma sin_ValueError_ret {A} (a : A) : sin_ValueError (ret a).
Proof. intros w e w' H. discriminate H. Qed.

Lemma sin_ValueError_bind {A B} (m : M A) (k : A -> M B) :
  sin_ValueError m -> (forall a, sin_ValueError (k a)) -> sin_ValueError (bind m k).
Proof.
  intros Hm Hk w e w' H. unfold bind in H.
  destruct (m w) as [[a|e1] w1] eqn:E1.
  - exact (Hk a w1 e w' H).
  - inversion H; subst. eapply Hm; eassumption.
Qed.

Lemma sin_ValueError_leer (r : ref) : sin_ValueError (leer r).
Proof.
  intros w e w' H. unfold leer in H. destruct (objs w !! r); [discriminate H|].
  inversion H; subst. intros [msg Hm]. discriminate Hm.
Qed.

Lemma sin_ValueError_escribir (r : ref) (c : Cuenta) : sin_ValueError (escribir r c).
Proof. intros w e w' H. discriminate H. Qed.

Lemma sin_ValueError_registrar (self : ref) (tipo monto_str : str) :
  sin_ValueError (_registrar_transaccion self tipo monto_str).
Proof.
  unfold _registrar_transaccion.
  apply sin_ValueError_bind; [intros w e w' H; discriminate H|intros fecha].
  apply sin_ValueError_bind; [apply sin_ValueError_leer|intros c].
  apply sin_ValueError_escribir.
Qed.

Lemma sin_ValueError_saldo (self : ref) : sin_ValueError (saldo self).
Proof.
  unfold saldo. apply sin_ValueError_bind; [apply sin_ValueError_leer|intros c].
  apply sin_ValueError_ret.
Qed.

Lemma sin_ValueError_mostrar (d : dialogo) : sin_ValueError (mostrar d).
Proof. intros w e w' H. discriminate H. Qed.

Lemma sin_ValueError_buscar (numero : str) : sin_ValueError (buscar_cuenta numero).
Proof. intros w e w' H. discriminate H. Qed.

Lemma sin_ValueError_update (cuenta : ref) : sin_ValueError (update_account_in_db cuenta).
Proof.
  intros w e w' H. unfold update_account_in_db in H.
  destruct (db_conn w); [|discriminate H].
  destruct (objs w !! cuenta).
  - destruct (_ && _); [|discriminate H].
    inversion H; subst. intros [msg Hm]. discriminate Hm.
  - inversion H; subst. intros [msg Hm]. discriminate Hm.
Qed.

Lemma sin_ValueError_actualizar_saldo_op (v : Ventana) :
  sin_ValueError (actualizar_saldo_op v).
Proof.
  unfold actualizar_saldo_op.
  apply sin_ValueError_bind; [apply sin_ValueError_buscar|intros [cuenta|]].
  - apply sin_ValueError_bind; [apply sin_ValueError_saldo|intros s].
    apply sin_ValueError_ret.
  - apply sin_ValueError_ret.
Qed.

(** Once the amount has passed [monto <= 0], a deposit raises no
    [ValueError]. *)
Lemma sin_ValueError_depositar (self : ref) (monto : float) :
  le monto (of_int 0) = false -> sin_ValueError (depositar self monto).
Proof.
  intros Hm. unfold depositar. rewrite Hm.
  apply sin_ValueError_bind; [apply sin_ValueError_leer|intros c].
  apply sin_ValueError_bind; [apply sin_ValueError_escribir|intros _].
  apply sin_ValueError_registrar.
Qed.

Lemma falla_sin_efecto_depositar (self : ref) (monto : float) :
  falla_sin_efecto (depositar self monto).
Proof.
  intros w e w' H. destruct (le monto (of_int 0)) eqn:Hm.
  - rewrite (depositar_rechaza _ _ _ Hm) in H. congruence.
  - destruct (objs w !! self) as [c|] eqn:E.
    + rewrite (depositar_ok _ _ _ _ E Hm) in H. discriminate H.
    + unfold depositar in H.
      rewrite Hm, (bind_raise _ _ _ _ _ (leer_nada _ _ E)) in H. congruence.
Qed.

Lemma falla_sin_efecto_retirar (self : ref) (monto : float) :
  falla_sin_efecto (retirar self monto).
Proof.
  intros w e w' H. destruct (le monto (of_int 0)) eqn:Hm.
  - rewrite (retirar_rechaza_monto _ _ _ Hm) in H. congruence.
  - destruct (objs w !! self) as [c|] eqn:E.
    + destruct (gt monto (_saldo c)) eqn:Hg.
      * rewrite (retirar_rechaza_saldo _ _ _ _ E Hm Hg) in H. congruence.
      * rewrite (retirar_ok _ _ _ _ E Hm Hg) in H. discriminate H.
    + unfold retirar in H.
      rewrite Hm, (bind_raise _ _ _ _ _ (leer_nada _ _ E)) in H. congruence.
Qed.

Lemma retirar_pasa_monto (self : ref) (monto : float) (w w1 : Mundo) :
  retirar self monto w = (Ret tt, w1) -> le monto (of_int 0) = false.
Proof.
  intros H. destruct (le monto (of_int 0)) eqn:Hm; [|reflexivity].
  rewrite (retirar_rechaza_monto _ _ _ Hm) in H. discriminate H.
Qed.

(** A transfer that raises a [ValueError] has written nothing. *)
Lemma transferir_ValueError_sin_efecto (self destino : ref) (monto : float)
    (w w' : Mundo) (e : exn) :
  transferir self destino monto w = (Raise e, w') -> es_ValueError e -> w' = w.
Proof.
  intros H He. unfold transferir in H. unfold bind at 1 in H.
  destruct (retirar self monto w) as [[[]|e1] w1] eqn:E1.
  - exfalso. pose proof (retirar_pasa_monto _ _ _ _ E1) as Hm.
    revert He. eapply (sin_ValueError_bind (depositar destino monto)); [| |exact H].
    + now apply sin_ValueError_depositar.
    + intros ?.
      apply sin_ValueError_bind; [apply sin_ValueError_leer|intros d].
      apply sin_ValueError_bind; [apply sin_ValueError_registrar|intros _].
      apply sin_ValueError_bind; [apply sin_ValueError_leer|intros s].
      apply sin_ValueError_registrar.
  - inversion H; subst. eapply falla_sin_efecto_retirar; eassumption.
Qed.

Lemma falla_sin_efecto_aplicar_interes (self : ref) :
  falla_sin_efecto (aplicar_interes self).
Proof.
  intros w e w' H. unfold aplicar_interes in H.
  destruct (objs w !! self) as [c|] eqn:E.
  - rewrite (bind_ret _ _ _ _ _ (leer_algo _ _ _ E)) in H.
    destruct (clase_de c); [discriminate H| |];
      unfold CuentaAhorro_aplicar_interes, CuentaCorriente_aplicar_interes in H;
      rewrite (interes_con_ok _ _ _ _ _ E) in H; discriminate H.
  - rewrite (bind_raise _ _ _ _ _ (leer_nada _ _ E)) in H. congruence.
Qed.

Lemma inerte_si (b : bool) (e : exn) : inerte (if b then raise e else ret tt).
Proof. intros w. now destruct b. Qed.

Lemma inerte_buscar (numero : str) : inerte (buscar_cuenta numero).
Proof. intros w. reflexivity. Qed.

Lemma inerte_leer_monto (float_de_str : str -> str + float) (monto_str : str) :
  inerte (leer_monto float_de_str monto_str).
Proof. intros w. unfold leer_monto. now destruct (float_de_str monto_str). Qed.

Lemma sin_efecto_bind_inerte {A B} (m : M A) (k : A -> M B) :
  inerte m -> (forall a, ValueError_sin_efecto (k a)) ->
  ValueError_sin_efecto (bind m k).
Proof.
  intros Hm Hk w e w' H He. unfold bind in H. specialize (Hm w).
  destruct (m w) as [[a|e1] w1]; simpl in Hm; subst w1.
  - exact (Hk a w e w' H He).
  - now inversion H.
Qed.

Lemma sin_efecto_bind_final {A B} (m : M A) (k : A -> M B) :
  ValueError_sin_efecto m -> (forall a, sin_ValueError (k a)) ->
  ValueError_sin_efecto (bind m k).
Proof.
  intros Hm Hk w e w' H He. unfold bind in H.
  destruct (m w) as [[a|e1] w1] eqn:E1.
  - now destruct (Hk a w1 e w' H).
  - inversion H; subst. eapply Hm; eassumption.
Qed.

Lemma sin_efecto_raise {A} (e : exn) : ValueError_sin_efecto (@raise A e).
Proof. intros w e1 w' H _. now inversion H. Qed.

Lemma sin_efecto_de_sin_ValueError {A} (m : M A) :
  sin_ValueError m -> ValueError_sin_efecto m.
Proof. intros Hm w e w' H He. now destruct (Hm w e w' H). Qed.

Lemma sin_efecto_de_falla {A} (m : M A) :
  falla_sin_efecto m -> ValueError_sin_efecto m.
Proof. intros Hm w e w' H _. exact (Hm w e w' H). Qed.

(** After the call on the ledger: the database, the balance read back,
    the dialog. *)
Lemma sin_ValueError_cierre (cuenta : ref) (titulo : str) (texto : float -> str) :
  sin_ValueError
    (bind (update_account_in_db cuenta)
       (fun _ => bind (saldo cuenta)
                   (fun s => mostrar (showinfo titulo (texto s))))).
Proof.
  apply sin_ValueError_bind; [apply sin_ValueError_update|intros ?].
  apply sin_ValueError_bind; [apply sin_ValueError_saldo|intros s].
  apply sin_ValueError_mostrar.
Qed.

Section ErroresDeOperacion.

Variable float_de_str : str -> str + float.

Lemma cuerpo_ValueError_sin_efecto (v : Ventana) :
  ValueError_sin_efecto (realizar_operacion_cuerpo float_de_str v).
Proof.
  unfold realizar_operacion_cuerpo.
  apply sin_efecto_bind_inerte; [apply inerte_si|intros ?].
  apply sin_efecto_bind_inerte; [apply inerte_buscar|intros [cuenta_origen|]];
    [|apply sin_efecto_raise].
  apply sin_efecto_bind_final; [|intros ?; apply sin_ValueError_actualizar_saldo_op].
  destruct (str_eqb (op_type_var v) (lit "Depósito")).
  { apply sin_efecto_bind_inerte; [apply inerte_si|intros ?].
    apply sin_efecto_bind_inerte; [apply inerte_leer_monto|intros monto].
    apply sin_efecto_bind_final;
      [apply sin_efecto_de_falla, falla_sin_efecto_depositar|intros ?].
    apply sin_ValueError_cierre. }
  destruct (str_eqb (op_type_var v) (lit "Retiro")).
  { apply sin_efecto_bind_inerte; [apply inerte_si|intros ?].
    apply sin_efecto_bind_inerte; [apply inerte_leer_monto|intros monto].
    apply sin_efecto_bind_final;
      [apply sin_efecto_de_falla, falla_sin_efecto_retirar|intros ?].
    apply sin_ValueError_cierre. }
  destruct (str_eqb (op_type_var v) (lit "Transferencia")).
  { apply sin_efecto_bind_inerte; [apply inerte_si|intros ?].
    apply sin_efecto_bind_inerte; [apply inerte_si|intros ?].
    apply sin_efecto_bind_inerte; [apply inerte_leer_monto|intros monto].
    apply sin_efecto_bind_inerte; [apply inerte_buscar|intros [cuenta_destino|]];
      [|apply sin_efecto_raise].
    apply sin_efecto_bind_inerte; [apply inerte_si|intros ?].
    apply sin_efecto_bind_final;
      [intros w e w' H He; eapply transferir_ValueError_sin_efecto; eassumption
      |intros ?].
    apply sin_ValueError_bind; [apply sin_ValueError_update|intros ?].
    apply sin_ValueError_bind; [apply sin_ValueError_update|intros ?].
    apply sin_ValueError_bind; [apply sin_ValueError_saldo|intros s].
    apply sin_ValueError_mostrar. }
  destruct (str_eqb (op_type_var v) (lit "Aplicar Interés")).
  { apply sin_efecto_bind_final;
      [apply sin_efecto_de_falla, falla_sin_efecto_aplicar_interes|intros ?].
    apply sin_ValueError_cierre. }
  apply sin_efecto_de_sin_ValueError, sin_ValueError_ret.
Qed.

End ErroresDeOperacion.

(** X6: an error that the operations form shows under "Error en ..."
    means that nothing was done: when the body of [_realizar_operacion] raises
    a [ValueError] (an empty or unknown account, an amount that is
    missing, unreadable, not positive or above the balance, a transfer to
    the same account), the instances, the dictionary and the database
    are what they were, the widgets too, and the only trace is the
    dialog with the message. *)
Theorem error_de_operacion_sin_efecto (float_de_str : str -> str + float)
    (v : Ventana) (w w' : Mundo) (msg : str) :
  realizar_operacion_cuerpo float_de_str v w = (Raise (ValueError msg), w') ->
  w' = w
  /\ _realizar_operacion float_de_str v w
     = (Ret v, con_dialogos
                 (dialogos w ++ [showerror (lit "Error en " ++ op_type_var v) msg]) w).
Proof.
  intros H.
  assert (E : w' = w).
  { eapply cuerpo_ValueError_sin_efecto; [exact H|]. now exists msg. }
  subst w'. split; [reflexivity|].
  unfold _realizar_operacion, try_except. rewrite H. reflexivity.
Qed.

Lemma error_de_operacion_sin_efecto_testigo :
  exists msg,
    _realizar_operacion float_de_montos
      (ventana (lit "Retiro") (lit "1000000001") (lit "200") []) mundo_banco
    = (Ret (ventana (lit "Retiro") (lit "1000000001") (lit "200") []),
       con_dialogos (dialogos mundo_banco ++ [showerror (lit "Error en Retiro") msg])
         mundo_banco).
Proof.
  exists (msg_saldo_insuficiente 100%float 200%float).
  refine (proj2 (error_de_operacion_sin_efecto float_de_montos
                   (ventana (lit "Retiro") (lit "1000000001") (lit "200") [])
                   mundo_banco mundo_banco _ _)).
  vm_compute. reflexivity.
Defined.

(** ** Steps of the ledger, seen from the registry *)

Section PasoLibro.

Variable S : list ref.

Lemma paso_libro_refl (w : Mundo) : paso_libro S w w.
Proof.
  split; [|repeat split]. intros r. destruct (objs w !! r) as [c|]; [|reflexivity].
  exists c. repeat split; auto.
Qed.

Lemma paso_libro_trans (w1 w2 w3 : Mundo) :
  paso_libro S w1 w2 -> paso_libro S w2 w3 -> paso_libro S w1 w3.
Proof.
  intros (H12 & ? & ? & ?) (H23 & ? & ? & ?).
  split; [|repeat split; congruence].
  intros r. specialize (H12 r). specialize (H23 r).
  destruct (objs w1 !! r) as [c1|].
  - destruct H12 as (c2 & E2 & I12 & F12 & P12). rewrite E2 in H23.
    destruct H23 as (c3 & E3 & I23 & F23 & P23).
    exists c3. split; [assumption|]. split; [eauto using misma_identidad_trans|].
    split; [|auto]. intros Hr. rewrite (F23 Hr). auto.
  - now rewrite H12 in H23.
Qed.

Lemma paso_libro_escribir (w : Mundo) (r : ref) (c0 c : Cuenta) (n : nat) :
  objs w !! r = Some c0 ->
  In r S ->
  misma_identidad c0 c ->
  (le (of_int 0) (_saldo c0) = true -> le (of_int 0) (_saldo c) = true) ->
  paso_libro S w (con_objs (<[r := c]> (objs w)) (con_tics n w)).
Proof.
  intros H Hr I P. split; [|repeat split]. intros r'. simpl.
  destruct (decide (r = r')) as [<-|Hne].
  - rewrite H, lookup_insert_eq. exists c. repeat split; try apply I; auto.
    intros Hn. contradiction.
  - rewrite lookup_insert_ne by assumption.
    destruct (objs w !! r') as [c'|] eqn:E; [|reflexivity].
    exists c'. repeat split; auto.
Qed.

Lemma respeta_ret {A} (a : A) : respeta (paso_libro S) (ret a).
Proof. intros w. apply paso_libro_refl. Qed.

Lemma respeta_leer (r : ref) : respeta (paso_libro S) (leer r).
Proof. intros w. unfold leer. destruct (objs w !! r); apply paso_libro_refl. Qed.

Lemma respeta_bind {A B} (m : M A) (k : A -> M B) :
  respeta (paso_libro S) m -> (forall a, respeta (paso_libro S) (k a)) ->
  respeta (paso_libro S) (bind m k).
Proof.
  intros Hm Hk w. unfold bind. specialize (Hm w).
  destruct (m w) as [[a|e] w1]; simpl in *; [|assumption].
  eapply paso_libro_trans; [eassumption|apply Hk].
Qed.

Lemma respeta_registrar (self : ref) (tipo monto_str : str) :
  In self S -> respeta (paso_libro S) (_registrar_transaccion self tipo monto_str).
Proof.
  intros Hs w. destruct (objs w !! self) as [c|] eqn:E.
  - rewrite (registrar_ok _ _ _ _ _ E). simpl. unfold tras_registrar.
    apply (paso_libro_escribir w self c); auto. repeat split.
  - unfold _registrar_transaccion, bind, ahora, leer. simpl. rewrite E. simpl.
    split; [|repeat split]. intros r. simpl.
    destruct (objs w !! r) as [c|]; [|reflexivity]. exists c. repeat split; auto.
Qed.

Lemma respeta_depositar (self : ref) (monto : float) :
  In self S -> PrimFloat.is_finite monto = true ->
  respeta (paso_libro S) (depositar self monto).
Proof.
  intros Hs Hf w. destruct (le monto (of_int 0)) eqn:Hm.
  - rewrite (depositar_rechaza _ _ _ Hm). apply paso_libro_refl.
  - destruct (objs w !! self) as [c|] eqn:E.
    + rewrite (depositar_ok _ _ _ _ E Hm). simpl. unfold tras_depositar, tras_registrar.
      simpl. rewrite insert_insert_eq.
      apply (paso_libro_escribir w self c); auto; [repeat split|].
      simpl. intros Hb. apply suma_no_negativa; [assumption|].
      now apply lt_le, finito_no_le_es_positivo.
    + unfold depositar. rewrite Hm, (bind_raise _ _ _ _ _ (leer_nada _ _ E)).
      apply paso_libro_refl.
Qed.

Lemma respeta_retirar (self : ref) (monto : float) :
  In self S -> PrimFloat.is_finite monto = true ->
  respeta (paso_libro S) (retirar self monto).
Proof.
  intros Hs Hf w. destruct (le monto (of_int 0)) eqn:Hm.
  - rewrite (retirar_rechaza_monto _ _ _ Hm). apply paso_libro_refl.
  - destruct (objs w !! self) as [c|] eqn:E.
    + destruct (gt monto (_saldo c)) eqn:Hg.
      * rewrite (retirar_rechaza_saldo _ _ _ _ E Hm Hg). apply paso_libro_refl.
      * rewrite (retirar_ok _ _ _ _ E Hm Hg). simpl. unfold tras_retirar, tras_registrar.
        simpl. rewrite insert_insert_eq.
        apply (paso_libro_escribir w self c); auto; [repeat split|].
        simpl. intros Hb.
        apply resta_no_negativa; [now apply finito_no_le_es_positivo| |assumption].
        now apply finito_no_gt_es_le.
    + unfold retirar. rewrite Hm, (bind_raise _ _ _ _ _ (leer_nada _ _ E)).
      apply paso_libro_refl.
Qed.

Lemma respeta_transferir (self destino : ref) (monto : float) :
  In self S -> In destino S -> PrimFloat.is_finite monto = true ->
  respeta (paso_libro S) (transferir self destino monto).
Proof.
  intros Hs Hd Hf. unfold transferir.
  apply respeta_bind; [now apply respeta_retirar|intros ?].
  apply respeta_bind; [now apply respeta_depositar|intros ?].
  apply respeta_bind; [apply respeta_leer|intros d].
  apply respeta_bind; [now apply respeta_registrar|intros ?].
  apply respeta_bind; [apply respeta_leer|intros s].
  now apply respeta_registrar.
Qed.

Lemma respeta_interes_con (tasa_anual : float) (etiqueta : str) (self : ref)
    (mr : positive) (er : Z) :
  Prim2SF (PrimFloat.div tasa_anual (of_int 12)) = S754_finite false mr er ->
  In self S ->
  respeta (paso_libro S) (interes_con tasa_anual etiqueta self).
Proof.
  intros Hr Hs w. destruct (objs w !! self) as [c|] eqn:E.
  - rewrite (interes_con_ok _ _ _ _ _ E). simpl. unfold tras_registrar.
    simpl. rewrite insert_insert_eq.
    apply (paso_libro_escribir w self c); auto; [repeat split|].
    simpl. intros Hb. apply suma_no_negativa; [assumption|].
    now apply (producto_no_negativo _ _ mr er).
  - unfold interes_con. rewrite (bind_raise _ _ _ _ _ (leer_nada _ _ E)).
    apply paso_libro_refl.
Qed.

Lemma respeta_aplicar_interes (self : ref) :
  In self S -> respeta (paso_libro S) (aplicar_interes self).
Proof.
  intros Hs. unfold aplicar_interes. apply respeta_bind; [apply respeta_leer|].
  intros c. destruct (clase_de c).
  - apply respeta_ret.
  - eapply respeta_interes_con; [vm_compute; reflexivity|assumption].
  - eapply respeta_interes_con; [vm_compute; reflexivity|assumption].
Qed.

End PasoLibro.

(** ** Writing an account back *)

Lemma le_cero_no_nan (x : float) :
  le (of_int 0) x = true -> PrimFloat.is_nan x = false.
Proof.
  unfold le, PrimFloat.is_nan. rewrite leb_spec, FloatAxioms.eqb_spec, Prim2SF_cero.
  intros H. unfold SFeqb. rewrite SFcompare_refl; [reflexivity|].
  intros E. rewrite E in H. discriminate H.
Qed.

Lemma str_eqb_eq (a b : str) : str_eqb a b = true <-> a = b.
Proof. unfold str_eqb. apply bool_decide_eq_true. Qed.

Lemma str_eqb_neq (a b : str) : str_eqb a b = false <-> a <> b.
Proof. unfold str_eqb. apply bool_decide_eq_false. Qed.

Lemma actualizar_saldo_numeros (n : str) (s : float) (filas : list fila_cuenta) :
  map f_numero (actualizar_saldo n s filas) = map f_numero filas.
Proof.
  unfold actualizar_saldo. rewrite map_map. apply map_ext.
  intros f. now destruct (str_eqb (f_numero f) n).
Qed.

Lemma actualizar_saldo_In (n : str) (s : float) (filas : list fila_cuenta)
    (f' : fila_cuenta) :
  In f' (actualizar_saldo n s filas)
  <-> exists f, In f filas
        /\ f' = if str_eqb (f_numero f) n
                then {| f_numero := f_numero f; f_titular := f_titular f;
                        f_saldo := s; f_tipo := f_tipo f |}
                else f.
Proof.
  unfold actualizar_saldo. rewrite in_map_iff. split.
  - intros (f & E & H). eauto.
  - intros (f & H & E). eauto.
Qed.

Lemma historial_de_reemplazado (db : DB) (filas : list fila_cuenta) (n n1 : str)
    (hs : list transaccion) :
  historial_guardado
    {| tabla_cuentas := filas;
       tabla_historial := reemplazar_historial n hs (tabla_historial db) |} n1
  = if decide (n1 = n) then hs else historial_guardado db n1.
Proof.
  unfold historial_guardado, historial_de, reemplazar_historial. simpl.
  rewrite filter_app, map_app.
  assert (H1 : filter (fun h => h_numero_cuenta h = n1)
                 (filter (fun h => h_numero_cuenta h <> n) (tabla_historial db))
               = if decide (n1 = n) then []
                 else filter (fun h => h_numero_cuenta h = n1) (tabla_historial db)).
  { induction (tabla_historial db) as [|h l IH].
    - now destruct (decide (n1 = n)).
    - rewrite (filter_cons (fun h => h_numero_cuenta h <> n)).
      rewrite (filter_cons (fun h => h_numero_cuenta h = n1) h l).
      destruct (decide (h_numero_cuenta h <> n)) as [Hn|Hn].
      + rewrite filter_cons, IH.
        destruct (decide (h_numero_cuenta h = n1)), (decide (n1 = n));
          congruence.
      + rewrite IH. destruct (decide (h_numero_cuenta h = n1)), (decide (n1 = n));
          try congruence.
        exfalso. apply Hn. congruence. }
  assert (H2 : filter (fun h => h_numero_cuenta h = n1)
                 (map (fun t : str * str * str =>
                         {| h_numero_cuenta := n; h_fecha := t.1.1;
                            h_tipo_transaccion := t.1.2; h_monto_str := t.2 |}) hs)
               = if decide (n1 = n)
                 then map (fun t : str * str * str =>
                             {| h_numero_cuenta := n; h_fecha := t.1.1;
                                h_tipo_transaccion := t.1.2; h_monto_str := t.2 |}) hs
                 else []).
  { induction hs as [|t hs IH]; simpl.
    - now destruct (decide (n1 = n)).
    - rewrite filter_cons, IH. simpl.
      destruct (decide (n = n1)), (decide (n1 = n)); congruence. }
  rewrite H1, H2. destruct (decide (n1 = n)).
  - simpl. rewrite map_map. rewrite <- (map_id hs) at 2. apply map_ext.
    intros [[a b] c]. reflexivity.
  - now rewrite app_nil_r.
Qed.

Lemma casi_espejo_debil (pend pend' : list ref) (w : Mundo) :
  casi_espejo pend w ->
  (forall r, In r pend -> In r pend') ->
  casi_espejo pend' w.
Proof.
  intros (db & Hdb & Hnd & Hf & Hh & Hc) Hp.
  exists db. do 4 (split; [assumption|]).
  intros n r Hr. destruct (Hc n r Hr) as (c & ? & ? & ? & ? & ? & Hd).
  exists c. do 5 (split; [assumption|]). intros Hn. apply Hd. auto.
Qed.

Lemma asentada_identidad (db : DB) (c c' : Cuenta) :
  misma_identidad c c' -> asentada db c -> asentada db c'.
Proof.
  intros (Hn & Ht & Hk) [s H]. exists s. unfold tipo_de in *.
  now rewrite Hn, Ht, Hk.
Qed.

(** A step of the ledger leaves the mirror with the accounts it touched
    pending. *)
Lemma casi_espejo_paso (pend S : list ref) (w w' : Mundo) :
  casi_espejo pend w -> paso_libro S w w' -> casi_espejo (S ++ pend) w'.
Proof.
  intros (db & Hdb & Hnd & Hf & Hh & Hc) (Ho & Ec & Ed & _).
  exists db. rewrite Ed, Ec. do 4 (split; [assumption|]).
  intros n r Hr. destruct (Hc n r Hr) as (c & Hoc & Hn & Hk & Hs & Ha & Hd).
  specialize (Ho r). rewrite Hoc in Ho.
  destruct Ho as (c' & Hoc' & I & Hfr & Hpos).
  exists c'. split; [assumption|]. destruct I as (In1 & It & Ik).
  split; [congruence|]. split; [congruence|]. split; [auto|].
  split; [apply (asentada_identidad db c c'); [repeat split|]; assumption|].
  intros Hnp. rewrite in_app_iff in Hnp.
  rewrite (Hfr ltac:(tauto)). apply Hd. tauto.
Qed.

(** [update_account_in_db] on a registered account returns and brings
    that account up to date; the other accounts are as they were. *)
Lemma update_pone_al_dia (pend pend' : list ref) (w : Mundo) (n : str) (r : ref) :
  casi_espejo pend w ->
  cuentas w !! n = Some r ->
  (forall r', In r' pend -> r' = r \/ In r' pend') ->
  exists db', update_account_in_db r w = (Ret tt, con_db (Some db') w)
              /\ casi_espejo pend' (con_db (Some db') w).
Proof.
  intros (db & Hdb & Hnd & Hf & Hh & Hc) Hr Hp.
  destruct (Hc n r Hr) as (c & Hoc & Hn & Hk & Hs & Ha & Hd).
  unfold update_account_in_db. rewrite Hdb, Hoc, (le_cero_no_nan _ Hs). simpl.
  eexists. split; [reflexivity|].
  eexists. split; [reflexivity|]. simpl.
  split; [now rewrite actualizar_saldo_numeros|].
  split.
  { intros f' Hf'. apply actualizar_saldo_In in Hf' as (f & Hin & ->).
    specialize (Hf f Hin). now destruct (str_eqb (f_numero f) (numero c)). }
  split.
  { intros h Hin. unfold reemplazar_historial in Hin. apply in_app_iff in Hin as [Hin|Hin].
    - apply list_elem_of_In, list_elem_of_filter in Hin as [_ Hin].
      apply Hh. now apply list_elem_of_In.
    - apply in_map_iff in Hin as (t & <- & _). simpl. rewrite Hn, Hr. eauto. }
  intros n1 r1 Hr1.
  destruct (Hc n1 r1 Hr1) as (c1 & Hoc1 & Hn1 & Hk1 & Hs1 & [s1 Ha1] & Hd1).
  exists c1. do 4 (split; [assumption|]). split; [|intros Hnp'; split].
  - destruct (decide (numero c1 = numero c)) as [E|NE].
    + exists (_saldo c). apply actualizar_saldo_In. eexists. split; [exact Ha1|].
      simpl. now rewrite (proj2 (str_eqb_eq _ _) E).
    + exists s1. apply actualizar_saldo_In. eexists. split; [exact Ha1|].
      simpl. now rewrite (proj2 (str_eqb_neq _ _) NE).
  - destruct (decide (r1 = r)) as [->|NEr].
    + rewrite Hoc in Hoc1. injection Hoc1 as <-.
      apply actualizar_saldo_In. eexists. split; [exact Ha1|].
      simpl. rewrite (proj2 (str_eqb_eq (numero c) (numero c)) eq_refl). reflexivity.
    + assert (Hnp : ~ In r1 pend) by (intros Hin; destruct (Hp r1 Hin); tauto).
      destruct (Hd1 Hnp) as [Hfila _].
      assert (NE : numero c1 <> numero c).
      { intros E. apply NEr. rewrite Hn1, Hn in E. subst n1. congruence. }
      apply actualizar_saldo_In. exists (fila_de c1). split; [assumption|].
      simpl. now rewrite (proj2 (str_eqb_neq _ _) NE).
  - rewrite historial_de_reemplazado.
    destruct (decide (r1 = r)) as [->|NEr].
    + rewrite Hoc in Hoc1. injection Hoc1 as <-.
      now destruct (decide (numero c = numero c)).
    + assert (Hnp : ~ In r1 pend) by (intros Hin; destruct (Hp r1 Hin); tauto).
      destruct (Hd1 Hnp) as [_ Hhist].
      destruct (decide (numero c1 = numero c)) as [E|NE]; [|assumption].
      exfalso. apply NEr. rewrite Hn1, Hn in E. subst n1. congruence.
Qed.

(** ** The operations form keeps the mirror *)

Lemma triple_inerte {A} (m : M A) (P : Mundo -> Prop) :
  inerte m -> triple P m (fun _ => P) (fun _ => P).
Proof.
  intros Hm w Hw. specialize (Hm w).
  destruct (m w) as [[a|e] w1]; simpl in Hm; now subst w1.
Qed.

Lemma triple_puro {A} (m : M A) (P : Mundo -> Prop) (phi : Prop)
    (Q : A -> Mundo -> Prop) (E : exn -> Mundo -> Prop) :
  (phi -> triple P m Q E) -> triple (fun w => P w /\ phi) m Q E.
Proof. intros H w [Hw Hphi]. now apply H. Qed.

Lemma triple_buscar (numero : str) (P : Mundo -> Prop) (E : exn -> Mundo -> Prop) :
  triple P (buscar_cuenta numero)
    (fun o w => P w /\ cuentas w !! numero = o) E.
Proof. intros w Hw. simpl. auto. Qed.

Lemma solo_dialoga_inerte {A} (m : M A) : inerte m -> solo_dialoga m.
Proof.
  intros H w. exists (dialogos w). rewrite (H w). now destruct w.
Qed.

Lemma solo_dialoga_mostrar (d : dialogo) : solo_dialoga (mostrar d).
Proof. intros w. eexists. reflexivity. Qed.

Lemma solo_dialoga_bind {A B} (m : M A) (k : A -> M B) :
  solo_dialoga m -> (forall a, solo_dialoga (k a)) -> solo_dialoga (bind m k).
Proof.
  intros Hm Hk w. unfold bind. destruct (Hm w) as [d Hd].
  destruct (m w) as [[a|e] w1]; simpl in Hd; subst w1; [|eauto].
  destruct (Hk a (con_dialogos d w)) as [d' Hd']. exists d'. rewrite Hd'. reflexivity.
Qed.

Lemma inerte_saldo (self : ref) : inerte (saldo self).
Proof. intros w. unfold saldo, bind, leer. now destruct (objs w !! self). Qed.

Lemma inerte_actualizar_saldo_op (v : Ventana) : inerte (actualizar_saldo_op v).
Proof.
  intros w. unfold actualizar_saldo_op, bind, buscar_cuenta.
  destruct (cuentas w !! strip (entry_numero_op v)) as [r|]; [|reflexivity].
  pose proof (inerte_saldo r w) as H.
  destruct (saldo r w) as [[s|e] w1]; simpl in *; now subst.
Qed.

(** What does not depend on the dialogs survives a statement that only
    shows dialogs. *)
Lemma triple_solo_dialoga {A} (m : M A) (P : Mundo -> Prop) :
  solo_dialoga m ->
  (forall d w, P w -> P (con_dialogos d w)) ->
  triple P m (fun _ => P) (fun _ => P).
Proof.
  intros Hm HP w Hw. destruct (Hm w) as [d Hd].
  destruct (m w) as [[a|e] w1]; simpl in Hd; subst w1; now apply HP.
Qed.

(** A call on the ledger that touches the instances of [S]: when it
    returns, they are pending; when it raises, nothing has moved. *)
Lemma triple_libro {A} (m : M A) (S : list ref) (G : gmap str ref -> Prop) :
  respeta (paso_libro S) m ->
  (forall w e w', casi_espejo [] w -> G (cuentas w) -> m w = (Raise e, w') -> w' = w) ->
  triple (fun w => casi_espejo [] w /\ G (cuentas w)) m
    (fun _ w => casi_espejo S w /\ G (cuentas w))
    (fun _ w => casi_espejo [] w).
Proof.
  intros Hr Hf w [Hw HG]. specialize (Hr w). specialize (Hf w).
  destruct (m w) as [[a|e] w1] eqn:E; simpl in Hr.
  - split.
    + apply (casi_espejo_debil (S ++ [])); [now apply (casi_espejo_paso [] S w)|].
      intros r. rewrite app_nil_r. auto.
    + destruct Hr as (_ & -> & _). exact HG.
  - rewrite (Hf e w1 Hw HG eq_refl). exact Hw.
Qed.

Lemma triple_update (pend pend' : list ref) (n : str) (r : ref)
    (G : gmap str ref -> Prop) (E : exn -> Mundo -> Prop) :
  (forall d, G d -> d !! n = Some r) ->
  (forall r', In r' pend -> r' = r \/ In r' pend') ->
  triple (fun w => casi_espejo pend w /\ G (cuentas w)) (update_account_in_db r)
    (fun _ w => casi_espejo pend' w /\ G (cuentas w)) E.
Proof.
  intros HG Hp w [Hw Hg].
  destruct (update_pone_al_dia pend pend' w n r Hw (HG _ Hg) Hp) as (db' & -> & H').
  split; [exact H'|exact Hg].
Qed.

(** The end of each branch: the balance read back and the dialog. *)
Lemma triple_cierre (cuenta : ref) (titulo : str) (texto : float -> str)
    (G : gmap str ref -> Prop) :
  triple (fun w => casi_espejo [] w /\ G (cuentas w))
    (bind (saldo cuenta) (fun s => mostrar (showinfo titulo (texto s))))
    (fun _ => espejo) (fun _ => espejo).
Proof.
  eapply triple_consecuencia.
  - apply (triple_solo_dialoga _ espejo).
    + apply solo_dialoga_bind; [apply solo_dialoga_inerte, inerte_saldo|].
      intros s. apply solo_dialoga_mostrar.
    + intros d w H. exact H.
  - intros w [H _]. exact H.
  - auto.
  - auto.
Qed.

Lemma registrada_existe (pend : list ref) (w : Mundo) (n : str) (r : ref) :
  casi_espejo pend w -> cuentas w !! n = Some r -> is_Some (objs w !! r).
Proof.
  intros (db & _ & _ & _ & _ & Hc) Hr.
  destruct (Hc n r Hr) as (c & Hoc & _). eauto.
Qed.

Lemma transferir_falla_sin_efecto (self destino : ref) (monto : float)
    (w w' : Mundo) (e : exn) :
  is_Some (objs w !! self) -> is_Some (objs w !! destino) ->
  transferir self destino monto w = (Raise e, w') -> w' = w.
Proof.
  intros [cs Hs] Hd H.
  destruct (le monto (of_int 0)) eqn:Hm.
  - unfold transferir in H.
    rewrite (bind_raise _ _ _ _ _ (retirar_rechaza_monto self monto w Hm)) in H.
    congruence.
  - destruct (gt monto (_saldo cs)) eqn:Hg.
    + unfold transferir in H.
      rewrite (bind_raise _ _ _ _ _ (retirar_rechaza_saldo _ _ _ _ Hs Hm Hg)) in H.
      congruence.
    + destruct (transferir_pasa w self destino cs monto Hs Hd Hm Hg) as [w2 E].
      congruence.
Qed.

Lemma triple_inerte_E {A} (m : M A) (P : Mundo -> Prop) (E : exn -> Mundo -> Prop) :
  inerte m -> (forall e w, P w -> E e w) -> triple P m (fun _ => P) E.
Proof.
  intros Hm HE. eapply triple_consecuencia; [now apply (triple_inerte m P)| | |]; auto.
Qed.

Lemma triple_leer_monto_E (float_de_str : str -> str + float) (monto_str : str)
    (P : Mundo -> Prop) (E : exn -> Mundo -> Prop) :
  (forall e w, P w -> E e w) ->
  triple P (leer_monto float_de_str monto_str)
    (fun x w => P w /\ float_de_str monto_str = inr x) E.
Proof.
  intros HE w Hw. unfold leer_monto.
  destruct (float_de_str monto_str); simpl; auto.
Qed.

Section OperarEspejo.

Variable float_de_str : str -> str + float.

Lemma cuerpo_guarda_espejo (v : Ventana) :
  evento_ordinario float_de_str (RealizarOperacion v) ->
  triple espejo (realizar_operacion_cuerpo float_de_str v)
    (fun _ => espejo) (fun _ => espejo).
Proof.
  intros Hord. simpl in Hord. unfold realizar_operacion_cuerpo.
  eapply triple_bind; [apply triple_inerte_E; [apply inerte_si|auto]|intros ?].
  eapply triple_bind; [apply triple_buscar|intros [r|]];
    [|apply triple_raise; intros w [H _]; exact H].
  eapply triple_bind with (Q1 := fun _ => espejo);
    [|intros ?; apply triple_inerte_E; [apply inerte_actualizar_saldo_op|auto]].
  set (numero := strip (entry_numero_op v)).
  set (G := fun d : gmap str ref => d !! numero = Some r).
  change (fun w => espejo w /\ cuentas w !! numero = Some r)
    with (fun w => casi_espejo [] w /\ G (cuentas w)).
  assert (HE : forall (e : exn) w, casi_espejo [] w /\ G (cuentas w) -> espejo w)
    by (intros e w [H _]; exact H).
  destruct (str_eqb (op_type_var v) (lit "Depósito")).
  { eapply triple_bind; [apply triple_inerte_E; [apply inerte_si|exact HE]|intros ?].
    apply (triple_bind _ _ _
             (fun x w => (casi_espejo [] w /\ G (cuentas w))
                         /\ float_de_str (strip (entry_monto_op v)) = inr x));
      [apply triple_leer_monto_E; exact HE|].
    intros monto. apply triple_puro. intros Hx.
    specialize (Hord monto Hx).
    eapply triple_bind.
    { apply (triple_libro _ [r] G); [apply respeta_depositar; [now left|assumption]|].
      intros w e w' _ _. apply falla_sin_efecto_depositar. }
    intros ?. eapply triple_bind.
    { apply (triple_update [r] [] numero r G); [auto|].
      intros r' [<-|[]]. now left. }
    intros ?. apply triple_cierre. }
  destruct (str_eqb (op_type_var v) (lit "Retiro")).
  { eapply triple_bind; [apply triple_inerte_E; [apply inerte_si|exact HE]|intros ?].
    apply (triple_bind _ _ _
             (fun x w => (casi_espejo [] w /\ G (cuentas w))
                         /\ float_de_str (strip (entry_monto_op v)) = inr x));
      [apply triple_leer_monto_E; exact HE|].
    intros monto. apply triple_puro. intros Hx.
    specialize (Hord monto Hx).
    eapply triple_bind.
    { apply (triple_libro _ [r] G); [apply respeta_retirar; [now left|assumption]|].
      intros w e w' _ _. apply falla_sin_efecto_retirar. }
    intros ?. eapply triple_bind.
    { apply (triple_update [r] [] numero r G); [auto|].
      intros r' [<-|[]]. now left. }
    intros ?. apply triple_cierre. }
  destruct (str_eqb (op_type_var v) (lit "Transferencia")).
  { eapply triple_bind; [apply triple_inerte_E; [apply inerte_si|exact HE]|intros ?].
    eapply triple_bind; [apply triple_inerte_E; [apply inerte_si|exact HE]|intros ?].
    apply (triple_bind _ _ _
             (fun x w => (casi_espejo [] w /\ G (cuentas w))
                         /\ float_de_str (strip (entry_monto_op v)) = inr x));
      [apply triple_leer_monto_E; exact HE|].
    intros monto. apply triple_puro. intros Hx.
    specialize (Hord monto Hx).
    eapply triple_bind; [apply triple_buscar|intros [rd|]];
      [|apply triple_raise; intros w [[H _] _]; exact H].
    set (destino := strip (entry_destino_op v)).
    set (G2 := fun d : gmap str ref => d !! numero = Some r /\ d !! destino = Some rd).
    apply (triple_consecuencia _ _ (fun w => casi_espejo [] w /\ G2 (cuentas w))
             _ (fun _ => espejo) _ (fun _ => espejo)); auto;
      [|intros w [[H1 H2] H3]; split; [exact H1|split; assumption]].
    assert (HE2 : forall (e : exn) w, casi_espejo [] w /\ G2 (cuentas w) -> espejo w)
      by (intros e w [H _]; exact H).
    eapply triple_bind; [apply triple_inerte_E; [apply inerte_si|exact HE2]|intros ?].
    eapply triple_bind.
    { apply (triple_libro _ [r; rd] G2).
      - apply respeta_transferir; [now left|right; now left|assumption].
      - intros w e w' Hw [Hg1 Hg2].
        apply transferir_falla_sin_efecto.
        + exact (registrada_existe [] w numero r Hw Hg1).
        + exact (registrada_existe [] w destino rd Hw Hg2). }
    intros ?. eapply triple_bind.
    { apply (triple_update [r; rd] [rd] numero r G2); [intros d [H _]; exact H|].
      intros r' [<-|[<-|[]]]; [now left|right; now left]. }
    intros ?. eapply triple_bind.
    { apply (triple_update [rd] [] destino rd G2); [intros d [_ H]; exact H|].
      intros r' [<-|[]]. now left. }
    intros ?. apply triple_cierre. }
  destruct (str_eqb (op_type_var v) (lit "Aplicar Interés")).
  { eapply triple_bind.
    { apply (triple_libro _ [r] G); [apply respeta_aplicar_interes; now left|].
      intros w e w' _ _. apply falla_sin_efecto_aplicar_interes. }
    intros ?. eapply triple_bind.
    { apply (triple_update [r] [] numero r G); [auto|].
      intros r' [<-|[]]. now left. }
    intros ?. apply triple_cierre. }
  apply triple_ret. intros w [H _]. exact H.
Qed.

Lemma realizar_operacion_guarda_espejo (v : Ventana) (w : Mundo) :
  espejo w ->
  evento_ordinario float_de_str (RealizarOperacion v) ->
  espejo (snd (_realizar_operacion float_de_str v w)).
Proof.
  intros Hw Hord.
  assert (T : triple espejo (_realizar_operacion float_de_str v)
                (fun _ => espejo) (fun _ => espejo)).
  { unfold _realizar_operacion.
    eapply triple_try_except; [now apply cuerpo_guarda_espejo|].
    intros e. destruct e;
      (apply (triple_solo_dialoga _ espejo);
       [apply solo_dialoga_bind; [apply solo_dialoga_mostrar|];
        intros ?; apply solo_dialoga_inerte; intros w0; reflexivity
       |intros d w0 H; exact H]). }
  specialize (T w Hw).
  destruct (_realizar_operacion float_de_str v w) as [[a|e] w1]; exact T.
Qed.

End OperarEspejo.

(** ** Opening an account keeps the mirror *)

Lemma no_negativo_es_le (x : float) :
  PrimFloat.is_nan x = false -> lt x (of_int 0) = false -> le (of_int 0) x = true.
Proof.
  unfold le, lt, PrimFloat.is_nan.
  rewrite leb_spec, ltb_spec, FloatAxioms.eqb_spec, Prim2SF_cero.
  destruct (Prim2SF x) as [s|s| |s m e]; try destruct s;
    cbv [SFleb SFltb SFeqb SFcompare negb]; congruence.
Qed.

Lemma sin_fila (filas : list fila_cuenta) (n : str) :
  ~ In n (map f_numero filas) ->
  existsb (fun f => str_eqb (f_numero f) n) filas = false.
Proof.
  intros H. apply not_true_is_false. intros E.
  apply existsb_exists in E as (f & Hin & Hf). apply str_eqb_eq in Hf.
  apply H. rewrite <- Hf. now apply in_map.
Qed.

Lemma no_registrada_sin_fila (pend : list ref) (w : Mundo) (db : DB) (n : str) :
  casi_espejo pend w -> db_conn w = Some db -> cuentas w !! n = None ->
  ~ In n (map f_numero (tabla_cuentas db)).
Proof.
  intros (db0 & Hdb & _ & Hf & _) E Hn Hin. rewrite Hdb in E. injection E as ->.
  apply in_map_iff in Hin as (f & <- & Hin).
  destruct (Hf f Hin) as [r Hr]. congruence.
Qed.

Lemma no_registrada_sin_historial (pend : list ref) (w : Mundo) (db : DB) (n : str) :
  casi_espejo pend w -> db_conn w = Some db -> cuentas w !! n = None ->
  historial_guardado db n = [].
Proof.
  intros (db0 & Hdb & _ & _ & Hh & _) E Hn. rewrite Hdb in E. injection E as ->.
  unfold historial_guardado, historial_de.
  induction (tabla_historial db) as [|h l IH]; [reflexivity|].
  rewrite filter_cons. destruct (decide (h_numero_cuenta h = n)) as [Eh|_].
  - destruct (Hh h (or_introl eq_refl)) as [r Hr]. congruence.
  - apply IH. intros h' Hin. apply Hh. now right.
Qed.

(** The statements of [_crear_cuenta] from [Cuenta(...)] on, when
    the database takes the row. *)
Lemma alta_ok (k : clase) (n t : str) (s : float) (d : dialogo) (w : Mundo) (db : DB) :
  db_conn w = Some db ->
  PrimFloat.is_nan s = false ->
  ~ In n (map f_numero (tabla_cuentas db)) ->
  let r := fresh (dom (objs w)) in
  let c := {| clase_de := k; numero := n; titular := t; _saldo := s; historial := [] |} in
  (cuenta <- nueva k n t s ;;
   asignar_cuentas n cuenta ;;
   add_new_account_to_db cuenta ;;
   mostrar d) w
  = (Ret tt,
     {| objs := <[r := c]> (objs w);
        cuentas := <[n := r]> (cuentas w);
        db_conn := Some {| tabla_cuentas := tabla_cuentas db ++ [fila_de c];
                           tabla_historial := tabla_historial db |};
        reloj := reloj w; tics := tics w;
        dialogos := dialogos w ++ [d] |}).
Proof.
  intros Hdb Hs Hn r c.
  unfold bind, nueva, asignar_cuentas, add_new_account_to_db, mostrar. simpl.
  rewrite Hdb. fold r. rewrite lookup_insert_eq. simpl. rewrite Hs.
  rewrite (sin_fila _ _ Hn). reflexivity.
Qed.

(** The same statements when the database refuses the row. *)
Lemma alta_rechazada (k : clase) (n t : str) (s : float) (d : dialogo) (w : Mundo)
    (db : DB) :
  db_conn w = Some db ->
  PrimFloat.is_nan s = true \/ In n (map f_numero (tabla_cuentas db)) ->
  let r := fresh (dom (objs w)) in
  let c := {| clase_de := k; numero := n; titular := t; _saldo := s; historial := [] |} in
  exists m,
    (cuenta <- nueva k n t s ;;
     asignar_cuentas n cuenta ;;
     add_new_account_to_db cuenta ;;
     mostrar d) w
    = (Raise (IntegrityError m),
       {| objs := <[r := c]> (objs w);
          cuentas := <[n := r]> (cuentas w);
          db_conn := Some db;
          reloj := reloj w; tics := tics w;
          dialogos := dialogos w |}).
Proof.
  intros Hdb Hmal r c.
  unfold bind, nueva, asignar_cuentas, add_new_account_to_db, mostrar. simpl.
  rewrite Hdb. fold r. rewrite lookup_insert_eq. simpl.
  destruct (PrimFloat.is_nan s) eqn:Hnan;
    [eexists; unfold con_cuentas, con_objs; simpl; rewrite Hdb; reflexivity|].
  destruct Hmal as [Hmal|Hmal]; [discriminate Hmal|].
  assert (E : existsb (fun f0 => str_eqb (f_numero f0) n) (tabla_cuentas db) = true).
  { apply existsb_exists. apply in_map_iff in Hmal as (f0 & E0 & Hin).
    exists f0. split; [assumption|]. now apply str_eqb_eq. }
  rewrite E. eexists. unfold con_cuentas, con_objs. simpl. rewrite Hdb. reflexivity.
Qed.

Lemma fresca_sin_objeto (w : Mundo) : objs w !! fresh (dom (objs w)) = None.
Proof. apply not_elem_of_dom. apply is_fresh. Qed.

(** The world after the row is written mirrors the new account too. *)
Lemma alta_guarda_espejo (k : clase) (n t : str) (s : float) (d : list dialogo)
    (w : Mundo) (db : DB) :
  espejo w ->
  db_conn w = Some db ->
  cuentas w !! n = None ->
  k <> Cls_Cuenta ->
  le (of_int 0) s = true ->
  let r := fresh (dom (objs w)) in
  let c := {| clase_de := k; numero := n; titular := t; _saldo := s; historial := [] |} in
  espejo {| objs := <[r := c]> (objs w);
            cuentas := <[n := r]> (cuentas w);
            db_conn := Some {| tabla_cuentas := tabla_cuentas db ++ [fila_de c];
                               tabla_historial := tabla_historial db |};
            reloj := reloj w; tics := tics w;
            dialogos := d |}.
Proof.
  intros Hw Hdb Hn Hk Hs r c.
  pose proof (no_registrada_sin_fila [] w db n Hw Hdb Hn) as Hfila.
  pose proof (no_registrada_sin_historial [] w db n Hw Hdb Hn) as Hhist.
  destruct Hw as (db0 & Hdb0 & Hnd & Hf & Hh & Hc).
  rewrite Hdb in Hdb0. injection Hdb0 as <-.
  eexists. split; [reflexivity|]. simpl.
  split.
  { rewrite List.map_app. simpl. apply NoDup_app. split; [assumption|]. split.
    - intros x Hx Hx'. apply list_elem_of_In in Hx, Hx'.
      destruct Hx' as [<-|[]]. now apply Hfila.
    - apply NoDup_singleton. }
  split.
  { intros f Hin. apply in_app_iff in Hin as [Hin|[<-|[]]].
    - destruct (decide (f_numero f = n)) as [->|NE].
      + rewrite lookup_insert_eq. eauto.
      + rewrite lookup_insert_ne by congruence. now apply Hf.
    - simpl. rewrite lookup_insert_eq. eauto. }
  split.
  { intros h Hin. destruct (decide (h_numero_cuenta h = n)) as [->|NE].
    - rewrite lookup_insert_eq. eauto.
    - rewrite lookup_insert_ne by congruence. now apply Hh. }
  intros n1 r1 Hr1. destruct (decide (n1 = n)) as [->|NE].
  - rewrite lookup_insert_eq in Hr1. injection Hr1 as <-.
    exists c. rewrite lookup_insert_eq. split; [reflexivity|].
    split; [reflexivity|]. split; [assumption|]. split; [assumption|].
    split; [|intros _; split].
    + exists s. apply in_app_iff. right. now left.
    + apply in_app_iff. right. now left.
    + exact Hhist.
  - rewrite lookup_insert_ne in Hr1 by congruence.
    destruct (Hc n1 r1 Hr1) as (c1 & Hoc1 & Hn1 & Hk1 & Hs1 & [s1 Ha1] & Hd1).
    exists c1. split.
    { rewrite lookup_insert_ne; [assumption|].
      intros E. pose proof (fresca_sin_objeto w) as Hfr. fold r in Hfr. congruence. }
    do 3 (split; [assumption|]). split; [|intros Hp; split].
    + exists s1. apply in_app_iff. now left.
    + apply in_app_iff. left. now apply Hd1.
    + now apply Hd1.
Qed.

Section CrearEspejo.

Variable float_de_str : str -> str + float.
Variable digito : N -> bool.

Lemma crear_cuenta_cuerpo_guarda_espejo (f : formulario) :
  evento_ordinario float_de_str (CrearCuenta f) ->
  triple espejo (crear_cuenta_cuerpo float_de_str digito f)
    (fun _ => espejo) (fun _ => espejo).
Proof.
  intros Hord w Hw. simpl in Hord. unfold crear_cuenta_cuerpo.
  destruct (bool_decide (strip (entry_numero_crear f) = [])); [exact Hw|].
  destruct (bool_decide (strip (entry_titular_crear f) = [])); [exact Hw|].
  destruct (bool_decide (strip (entry_saldo_crear f) = [])); [exact Hw|].
  destruct (float_de_str (strip (entry_saldo_crear f))) as [msg|x] eqn:Ef; [exact Hw|].
  destruct (negb (match_anclado (patron_numero digito) (strip (entry_numero_crear f))));
    [exact Hw|].
  destruct (negb (match_anclado patron_titular (strip (entry_titular_crear f))));
    [exact Hw|].
  destruct (lt x (of_int 0)) eqn:Ex; [exact Hw|].
  unfold bind at 1. unfold en_cuentas at 1.
  case_bool_decide as Hc; [exact Hw|].
  assert (Hn : cuentas w !! strip (entry_numero_crear f) = None).
  { destruct (cuentas w !! strip (entry_numero_crear f)) eqn:E; [|reflexivity].
    exfalso. apply Hc. eauto. }
  destruct Hw as (db & Hdb & Hw').
  assert (Hw : espejo w) by (exists db; split; assumption).
  rewrite (alta_ok _ _ _ _ _ w db Hdb (Hord x eq_refl)
             (no_registrada_sin_fila [] w db _ Hw Hdb Hn)).
  apply alta_guarda_espejo; try assumption.
  - now destruct (str_eqb (tipo_cuenta f) (lit "Ahorro")).
  - apply no_negativo_es_le; [now apply Hord|assumption].
Qed.

Lemma crear_cuenta_guarda_espejo_aux (f : formulario) (w : Mundo) :
  espejo w ->
  evento_ordinario float_de_str (CrearCuenta f) ->
  espejo (snd (_crear_cuenta float_de_str digito f w)).
Proof.
  intros Hw Hord.
  assert (T : triple espejo (_crear_cuenta float_de_str digito f)
                (fun _ => espejo) (fun _ => espejo)).
  { unfold _crear_cuenta.
    eapply triple_try_except; [now apply crear_cuenta_cuerpo_guarda_espejo|].
    intros e. destruct e;
      (apply (triple_solo_dialoga _ espejo);
       [apply solo_dialoga_mostrar|intros d w0 H; exact H]). }
  specialize (T w Hw).
  destruct (_crear_cuenta float_de_str digito f w) as [[a|e] w1]; exact T.
Qed.

End CrearEspejo.

(** ** Loading what was stored *)

Lemma anexar_historial_exacto (cuenta : ref) (hs : list fila_historial) (c : Cuenta)
    (w : Mundo) :
  objs w !! cuenta = Some c ->
  exists w', anexar_historial cuenta hs w = (Ret tt, w')
    /\ objs w' = <[cuenta := con_historial (historial c ++ map tupla hs) c]> (objs w)
    /\ cuentas w' = cuentas w /\ db_conn w' = db_conn w /\ dialogos w' = dialogos w.
Proof.
  revert c w. induction hs as [|h hs IH]; intros c w Hc; simpl.
  - exists w. split; [reflexivity|]. rewrite app_nil_r.
    replace (con_historial (historial c) c) with c by now destruct c.
    now rewrite insert_id.
  - rewrite (bind_ret _ _ _ _ _ (leer_algo _ _ _ Hc)).
    unfold bind at 1, escribir at 1.
    edestruct (IH (con_historial (historial c ++ [(h_fecha h, h_tipo_transaccion h, h_monto_str h)]) c))
      as (w' & E & Ho & Hcu & Hdb & Hdi);
      [|exists w'; split; [exact E|]].
    + simpl. apply lookup_insert_eq.
    + rewrite Ho, Hcu, Hdb, Hdi. simpl. rewrite insert_insert_eq.
      rewrite <- app_assoc. repeat split.
Qed.

(** One turn of the loop on a row of a known kind. *)
Lemma cargar_fila_paso (db : DB) (row : fila_cuenta) (filas : list fila_cuenta)
    (cuenta : option ref) (w : Mundo) :
  tipo_reconocido (f_tipo row) = true ->
  let r := fresh (dom (objs w)) in
  exists w1,
    cargar_filas db (row :: filas) cuenta w = cargar_filas db filas (Some r) w1
    /\ objs w1 = <[r := cuenta_de_fila db row]> (objs w)
    /\ cuentas w1 = <[f_numero row := r]> (cuentas w)
    /\ db_conn w1 = db_conn w /\ dialogos w1 = dialogos w.
Proof.
  intros Ht r. unfold tipo_reconocido in Ht.
  assert (Hn : forall k,
             k = (if str_eqb (f_tipo row) (lit "Ahorro")
                  then Cls_CuentaAhorro else Cls_CuentaCorriente) ->
             exists w1,
               bind (bind (nueva k (f_numero row) (f_titular row) (f_saldo row))
                       (fun r => ret (Some r)))
                 (fun cuenta =>
                    match cuenta with
                    | None => raise (UnboundLocalError (lit "cuenta"))
                    | Some r =>
                      bind (asignar_cuentas (f_numero row) r)
                        (fun _ => bind (anexar_historial r (historial_de db (f_numero row)))
                                    (fun _ => cargar_filas db filas (Some r)))
                    end) w
               = cargar_filas db filas (Some r) w1
               /\ objs w1 = <[r := cuenta_de_fila db row]> (objs w)
               /\ cuentas w1 = <[f_numero row := r]> (cuentas w)
               /\ db_conn w1 = db_conn w /\ dialogos w1 = dialogos w).
  { intros k Hk. unfold bind at 1 2, nueva at 1, ret at 1. fold r.
    unfold bind at 1, asignar_cuentas at 1. simpl.
    set (c0 := {| clase_de := k; numero := f_numero row; titular := f_titular row;
                  _saldo := f_saldo row; historial := [] |}).
    set (w0 := con_cuentas _ _).
    destruct (anexar_historial_exacto r (historial_de db (f_numero row)) c0 w0)
      as (w1 & E & Ho & Hcu & Hdb & Hdi); [apply lookup_insert_eq|].
    exists w1. unfold bind. rewrite E. split; [reflexivity|].
    rewrite Ho, Hcu, Hdb, Hdi. simpl. rewrite insert_insert_eq.
    repeat split. unfold cuenta_de_fila, historial_guardado. now rewrite <- Hk. }
  simpl. destruct (str_eqb (f_tipo row) (lit "Ahorro")); [now apply Hn|].
  simpl in Ht. rewrite Ht. now apply Hn.
Qed.

Lemma cargar_filas_cargadas (db : DB) (filas pre : list fila_cuenta)
    (cuenta : option ref) (w : Mundo) :
  (forall f, In f filas -> tipo_reconocido (f_tipo f) = true) ->
  NoDup (map f_numero (pre ++ filas)) ->
  cargadas db pre w ->
  exists w', cargar_filas db filas cuenta w = (Ret tt, w')
             /\ cargadas db (pre ++ filas) w'
             /\ db_conn w' = db_conn w /\ dialogos w' = dialogos w.
Proof.
  revert pre cuenta w. induction filas as [|row filas IH]; intros pre cuenta w Ht Hnd Hpre.
  - exists w. rewrite app_nil_r. repeat split; apply Hpre.
  - destruct (cargar_fila_paso db row filas cuenta w (Ht row (or_introl eq_refl)))
      as (w1 & E & Ho & Hcu & Hdb & Hdi).
    rewrite E. change (row :: filas) with ([row] ++ filas) in *.
    rewrite app_assoc in *.
    destruct (IH (pre ++ [row]) (Some (fresh (dom (objs w)))) w1)
      as (w' & E' & Hcar & Hdb' & Hdi').
    + intros f Hf. apply Ht. now right.
    + assumption.
    + destruct Hpre as [Hsolo Hcada]. split.
      * intros n Hn. rewrite Hcu in Hn. rewrite List.map_app, in_app_iff. simpl.
        destruct (decide (n = f_numero row)) as [->|NE]; [auto|].
        rewrite lookup_insert_ne in Hn by congruence. auto.
      * intros f Hf. rewrite Hcu, Ho. apply in_app_iff in Hf as [Hf|[<-|[]]].
        -- destruct (Hcada f Hf) as (r & Hr & Hc).
           assert (NE : f_numero f <> f_numero row).
           { intros Eq. rewrite List.map_app, List.map_app in Hnd.
             apply NoDup_app in Hnd as [Hnd _].
             apply NoDup_app in Hnd as (_ & Hnd & _).
             apply (Hnd (f_numero f)).
             - apply list_elem_of_In. now apply in_map.
             - rewrite Eq. simpl. apply list_elem_of_In. now left. }
           exists r. rewrite lookup_insert_ne by congruence. split; [assumption|].
           rewrite lookup_insert_ne; [assumption|].
           intros Eq. pose proof (fresca_sin_objeto w) as Hfr. congruence.
        -- eexists. rewrite !lookup_insert_eq. split; reflexivity.
    + exists w'. split; [exact E'|]. split; [assumption|]. split; congruence.
Qed.

Lemma fila_de_cuenta_de_fila (db : DB) (f : fila_cuenta) :
  tipo_reconocido (f_tipo f) = true -> fila_de (cuenta_de_fila db f) = f.
Proof.
  unfold tipo_reconocido, fila_de, cuenta_de_fila, tipo_de. simpl. intros H.
  destruct (str_eqb (f_tipo f) (lit "Ahorro")) eqn:E1; simpl in *.
  - apply str_eqb_eq in E1. destruct f; simpl in *; congruence.
  - apply str_eqb_eq in H. destruct f; simpl in *; congruence.
Qed.

Lemma cuenta_de_fila_de (db : DB) (c : Cuenta) :
  clase_de c <> Cls_Cuenta ->
  historial_guardado db (numero c) = historial c ->
  cuenta_de_fila db (fila_de c) = c.
Proof.
  unfold cuenta_de_fila, fila_de, tipo_de. simpl. intros Hk ->.
  destruct c as [k n t s h]; simpl in *.
  destruct k; [contradiction|reflexivity|reflexivity].
Qed.

(** Loaded from a sound database, the dictionary is mirrored by it. *)
Lemma cargadas_espejo (db : DB) (w : Mundo) :
  db_sana db -> db_conn w = Some db -> cargadas db (tabla_cuentas db) w -> espejo w.
Proof.
  intros (Hnd & Hfilas & Hhist) Hdb [Hsolo Hcada].
  exists db. split; [assumption|]. split; [assumption|].
  split; [intros f Hf; destruct (Hcada f Hf) as (r & Hr & _); eauto|].
  split.
  { intros h Hh. apply Hhist in Hh. apply in_map_iff in Hh as (f & <- & Hf).
    destruct (Hcada f Hf) as (r & Hr & _). eauto. }
  intros n r Hr.
  pose proof (Hsolo n ltac:(eauto)) as Hn. apply in_map_iff in Hn as (f & <- & Hf).
  destruct (Hcada f Hf) as (r' & Hr' & Hc). rewrite Hr in Hr'. injection Hr' as <-.
  destruct (Hfilas f Hf) as [Ht Hs].
  exists (cuenta_de_fila db f). split; [assumption|]. split; [reflexivity|].
  split; [simpl; now destruct (str_eqb (f_tipo f) (lit "Ahorro"))|].
  split; [assumption|].
  assert (Hin : In (fila_de (cuenta_de_fila db f)) (tabla_cuentas db))
    by now rewrite fila_de_cuenta_de_fila.
  split; [exists (f_saldo f); exact Hin|]. intros _. split; [exact Hin|reflexivity].
Qed.

Lemma carga_desde_sana (w : Mundo) (db : DB) :
  db_conn w = Some db -> cuentas w = ∅ -> db_sana db ->
  exists w', load_accounts_from_db w = (Ret tt, w')
             /\ cargadas db (tabla_cuentas db) w'
             /\ db_conn w' = Some db /\ dialogos w' = dialogos w.
Proof.
  intros Hdb Hvac (Hnd & Hfilas & Hhist).
  unfold load_accounts_from_db. rewrite Hdb.
  destruct (cargar_filas_cargadas db (tabla_cuentas db) [] None w)
    as (w' & E & Hcar & Hdb' & Hdi).
  - intros f Hf. now apply Hfilas.
  - assumption.
  - split; [|intros f []]. intros n [r Hr]. rewrite Hvac, lookup_empty in Hr.
    discriminate Hr.
  - exists w'. split; [exact E|]. split; [exact Hcar|]. split; congruence.
Qed.

(** A mirrored world has a sound database. *)
Lemma espejo_db_sana (w : Mundo) (db : DB) :
  espejo w -> db_conn w = Some db -> db_sana db.
Proof.
  intros (db0 & Hdb & Hnd & Hf & Hh & Hc) E. rewrite Hdb in E. injection E as ->.
  assert (Hfila : forall f, In f (tabla_cuentas db) ->
            exists r c, cuentas w !! f_numero f = Some r /\ objs w !! r = Some c
                        /\ clase_de c <> Cls_Cuenta /\ le (of_int 0) (_saldo c) = true
                        /\ f = fila_de c).
  { intros f Hin. destruct (Hf f Hin) as [r Hr].
    destruct (Hc _ r Hr) as (c & Hoc & Hn & Hk & Hs & _ & Hd).
    destruct (Hd ltac:(intros [])) as [Hfc _].
    exists r, c. do 4 (split; [assumption|]).
    assert (En : f_numero f = f_numero (fila_de c)) by (simpl; congruence).
    clear - Hnd Hin Hfc En. induction (tabla_cuentas db) as [|g l IH]; [destruct Hin|].
    simpl in Hnd. apply NoDup_cons in Hnd as [Hg Hl].
    destruct Hin as [->|Hin], Hfc as [E|Hfc]; auto.
    - exfalso. apply Hg. apply list_elem_of_In. rewrite En. now apply in_map.
    - exfalso. apply Hg. apply list_elem_of_In. rewrite E, <- En. now apply in_map. }
  split; [assumption|]. split.
  - intros f Hin. destruct (Hfila f Hin) as (r & c & _ & _ & Hk & Hs & ->).
    split; [|exact Hs]. unfold tipo_reconocido, fila_de, tipo_de. simpl.
    destruct (clase_de c); [contradiction|reflexivity|reflexivity].
  - intros h Hin. destruct (Hh h Hin) as [r Hr].
    destruct (Hc _ r Hr) as (c & _ & Hn & _ & _ & [s Hs] & _).
    apply in_map_iff. eexists. split; [|exact Hs]. exact Hn.
Qed.

Lemma recarga_aux (w w0 : Mundo) (db : DB) :
  espejo w -> db_conn w = Some db -> db_conn w0 = Some db -> cuentas w0 = ∅ ->
  exists w', load_accounts_from_db w0 = (Ret tt, w')
    /\ espejo w'
    /\ (forall n, is_Some (cuentas w' !! n) <-> is_Some (cuentas w !! n))
    /\ forall n r c, cuentas w !! n = Some r -> objs w !! r = Some c ->
         exists r', cuentas w' !! n = Some r' /\ objs w' !! r' = Some c.
Proof.
  intros Hw Hdb Hdb0 Hvac.
  pose proof (espejo_db_sana w db Hw Hdb) as Hsana.
  destruct (carga_desde_sana w0 db Hdb0 Hvac Hsana) as (w' & E & Hcar & Hdb' & _).
  exists w'. split; [exact E|]. split; [now apply (cargadas_espejo db)|].
  destruct Hw as (db1 & Hdb1 & Hnd & Hf & Hh & Hc).
  rewrite Hdb in Hdb1. injection Hdb1 as <-.
  destruct Hcar as [Hsolo Hcada].
  assert (Hreg : forall n r c, cuentas w !! n = Some r -> objs w !! r = Some c ->
            exists r', cuentas w' !! n = Some r' /\ objs w' !! r' = Some c).
  { intros n r c Hr Hoc.
    destruct (Hc n r Hr) as (c' & Hoc' & Hn & Hk & _ & _ & Hd).
    rewrite Hoc in Hoc'. injection Hoc' as <-.
    destruct (Hd ltac:(intros [])) as [Hfila Hhist].
    destruct (Hcada _ Hfila) as (r' & Hr' & Hc').
    simpl in Hr'. rewrite Hn in Hr'. rewrite cuenta_de_fila_de in Hc' by assumption.
    eauto. }
  split; [|exact Hreg].
  intros n. split.
  - intros Hn. apply Hsolo in Hn. apply in_map_iff in Hn as (f & <- & Hin).
    now apply Hf.
  - intros [r Hr]. destruct (Hc n r Hr) as (c & Hoc & _).
    destruct (Hreg n r c Hr Hoc) as (r' & Hr' & _). eauto.
Qed.

(** ** The history view and whole sessions *)

Lemma solo_dialoga_ver_historial (v : Ventana) : solo_dialoga (_ver_historial v).
Proof.
  unfold _ver_historial.
  destruct (bool_decide (strip (entry_historial v) = [])).
  { apply solo_dialoga_bind; [apply solo_dialoga_mostrar|].
    intros ?. apply solo_dialoga_inerte. intros w. reflexivity. }
  apply solo_dialoga_bind; [apply solo_dialoga_inerte, inerte_buscar|].
  intros [r|].
  - apply solo_dialoga_bind.
    { apply solo_dialoga_inerte. intros w. unfold leer. now destruct (objs w !! r). }
    intros c. destruct (historial c).
    + apply solo_dialoga_bind; [apply solo_dialoga_mostrar|].
      intros ?. apply solo_dialoga_inerte. intros w. reflexivity.
    + apply solo_dialoga_inerte. intros w. reflexivity.
  - apply solo_dialoga_bind; [apply solo_dialoga_mostrar|].
    intros ?. apply solo_dialoga_inerte. intros w. reflexivity.
Qed.

Lemma snd_bind_ret {A B} (m : M A) (b : B) (w : Mundo) :
  snd (bind m (fun _ => ret b) w) = snd (m w).
Proof. unfold bind. now destruct (m w) as [[a|e] w1]. Qed.

Lemma atender_guarda_espejo (float_de_str : str -> str + float) (digito : N -> bool)
    (e : evento) (w : Mundo) :
  espejo w ->
  evento_ordinario float_de_str e ->
  espejo (snd (atender float_de_str digito e w)).
Proof.
  intros Hw Hord. destruct e as [f|v|v]; simpl atender.
  - now apply crear_cuenta_guarda_espejo_aux.
  - rewrite snd_bind_ret. now apply realizar_operacion_guarda_espejo.
  - rewrite snd_bind_ret. destruct (solo_dialoga_ver_historial v w) as [d ->].
    exact Hw.
Qed.

Lemma sesion_guarda_espejo_aux (float_de_str : str -> str + float) (digito : N -> bool)
    (es : list evento) (w : Mundo) :
  espejo w ->
  Forall (evento_ordinario float_de_str) es ->
  espejo (sesion float_de_str digito es w).
Proof.
  revert w. induction es as [|e es IH]; intros w Hw Hes; simpl; [assumption|].
  inversion Hes; subst. apply IH; [|assumption]. now apply atender_guarda_espejo.
Qed.

Lemma espejo_mundo_vacio : espejo mundo_vacio.
Proof.
  eexists. split; [reflexivity|]. simpl. split; [constructor|].
  split; [intros f []|]. split; [intros h []|].
  intros n r H. rewrite lookup_empty in H. discriminate H.
Qed.

(** ** Histories only grow *)

Lemma solo_anade_objs (w w' : Mundo) : objs w' = objs w -> solo_anade w w'.
Proof.
  intros E r c H. exists c. rewrite E. split; [assumption|].
  split; [apply misma_identidad_refl|reflexivity].
Qed.

Lemma solo_anade_trans (w1 w2 w3 : Mundo) :
  solo_anade w1 w2 -> solo_anade w2 w3 -> solo_anade w1 w3.
Proof.
  intros H12 H23 r c1 H1.
  destruct (H12 r c1 H1) as (c2 & H2 & I12 & P12).
  destruct (H23 r c2 H2) as (c3 & H3 & I23 & P23).
  exists c3. split; [assumption|].
  split; [eauto using misma_identidad_trans|now transitivity (historial c2)].
Qed.

Lemma solo_anade_escribir (w w' : Mundo) (r : ref) (c0 c : Cuenta) :
  objs w !! r = Some c0 ->
  misma_identidad c0 c ->
  historial c0 `prefix_of` historial c ->
  objs w' = <[r := c]> (objs w) ->
  solo_anade w w'.
Proof.
  intros H I P E r' c' H'. rewrite E.
  destruct (decide (r = r')) as [<-|Hne].
  - rewrite lookup_insert_eq. exists c. rewrite H in H'. injection H' as <-. auto.
  - rewrite lookup_insert_ne by assumption. exists c'.
    split; [assumption|]. split; [apply misma_identidad_refl|reflexivity].
Qed.

Lemma solo_anade_nueva (w w' : Mundo) (r : ref) (c : Cuenta) :
  objs w !! r = None -> objs w' = <[r := c]> (objs w) -> solo_anade w w'.
Proof.
  intros H E r' c' H'. rewrite E. exists c'.
  rewrite lookup_insert_ne by congruence.
  split; [assumption|]. split; [apply misma_identidad_refl|reflexivity].
Qed.

Lemma anade_ret {A} (a : A) : respeta solo_anade (ret a).
Proof. intros w. now apply solo_anade_objs. Qed.

Lemma anade_inerte {A} (m : M A) : inerte m -> respeta solo_anade m.
Proof. intros H w. rewrite (H w). now apply solo_anade_objs. Qed.

Lemma anade_solo_dialoga {A} (m : M A) : solo_dialoga m -> respeta solo_anade m.
Proof. intros H w. destruct (H w) as [d ->]. now apply solo_anade_objs. Qed.

Lemma anade_bind {A B} (m : M A) (k : A -> M B) :
  respeta solo_anade m -> (forall a, respeta solo_anade (k a)) ->
  respeta solo_anade (bind m k).
Proof.
  intros Hm Hk w. unfold bind. specialize (Hm w).
  destruct (m w) as [[a|e] w1]; simpl in *; [|assumption].
  eapply solo_anade_trans; [eassumption|apply Hk].
Qed.

Lemma anade_try_except {A} (m : M A) (h : exn -> M A) :
  respeta solo_anade m -> (forall e, respeta solo_anade (h e)) ->
  respeta solo_anade (try_except m h).
Proof.
  intros Hm Hh w. unfold try_except. specialize (Hm w).
  destruct (m w) as [[a|e] w1]; simpl in *; [assumption|].
  eapply solo_anade_trans; [eassumption|apply Hh].
Qed.

Lemma anade_leer (r : ref) : respeta solo_anade (leer r).
Proof. apply anade_inerte. intros w. unfold leer. now destruct (objs w !! r). Qed.

Lemma anade_registrar (self : ref) (tipo monto_str : str) :
  respeta solo_anade (_registrar_transaccion self tipo monto_str).
Proof.
  intros w. destruct (objs w !! self) as [c|] eqn:E.
  - rewrite (registrar_ok _ _ _ _ _ E). simpl.
    eapply (solo_anade_escribir _ _ self c); [exact E|..].
    3: reflexivity.
    + repeat split.
    + simpl. now apply prefix_app_r.
  - unfold _registrar_transaccion, bind, ahora, leer. simpl. rewrite E. simpl.
    now apply solo_anade_objs.
Qed.

Lemma anade_depositar (self : ref) (monto : float) :
  respeta solo_anade (depositar self monto).
Proof.
  intros w. destruct (le monto (of_int 0)) eqn:Hm.
  - rewrite (depositar_rechaza _ _ _ Hm). now apply solo_anade_objs.
  - destruct (objs w !! self) as [c|] eqn:E.
    + rewrite (depositar_ok _ _ _ _ E Hm). simpl.
      eapply (solo_anade_escribir _ _ self c); [exact E|..].
      3:{ unfold tras_depositar, tras_registrar. simpl.
          rewrite insert_insert_eq. reflexivity. }
      * repeat split.
      * simpl. now apply prefix_app_r.
    + unfold depositar. rewrite Hm, (bind_raise _ _ _ _ _ (leer_nada _ _ E)).
      now apply solo_anade_objs.
Qed.

Lemma anade_retirar (self : ref) (monto : float) :
  respeta solo_anade (retirar self monto).
Proof.
  intros w. destruct (le monto (of_int 0)) eqn:Hm.
  - rewrite (retirar_rechaza_monto _ _ _ Hm). now apply solo_anade_objs.
  - destruct (objs w !! self) as [c|] eqn:E.
    + destruct (gt monto (_saldo c)) eqn:Hg.
      * rewrite (retirar_rechaza_saldo _ _ _ _ E Hm Hg). now apply solo_anade_objs.
      * rewrite (retirar_ok _ _ _ _ E Hm Hg). simpl.
        eapply (solo_anade_escribir _ _ self c); [exact E|..].
        3:{ unfold tras_retirar, tras_registrar. simpl.
            rewrite insert_insert_eq. reflexivity. }
        -- repeat split.
        -- simpl. now apply prefix_app_r.
    + unfold retirar. rewrite Hm, (bind_raise _ _ _ _ _ (leer_nada _ _ E)).
      now apply solo_anade_objs.
Qed.

Lemma anade_transferir (self destino : ref) (monto : float) :
  respeta solo_anade (transferir self destino monto).
Proof.
  unfold transferir.
  apply anade_bind; [apply anade_retirar|intros ?].
  apply anade_bind; [apply anade_depositar|intros ?].
  apply anade_bind; [apply anade_leer|intros d].
  apply anade_bind; [apply anade_registrar|intros ?].
  apply anade_bind; [apply anade_leer|intros s].
  apply anade_registrar.
Qed.

Lemma anade_interes_con (tasa_anual : float) (etiqueta : str) (self : ref) :
  respeta solo_anade (interes_con tasa_anual etiqueta self).
Proof.
  intros w. destruct (objs w !! self) as [c|] eqn:E.
  - rewrite (interes_con_ok _ _ _ _ _ E). simpl.
    eapply (solo_anade_escribir _ _ self c); [exact E|..].
    3:{ unfold tras_registrar. simpl. rewrite insert_insert_eq. reflexivity. }
    + repeat split.
    + simpl. now apply prefix_app_r.
  - unfold interes_con. rewrite (bind_raise _ _ _ _ _ (leer_nada _ _ E)).
    now apply solo_anade_objs.
Qed.

Lemma anade_aplicar_interes (self : ref) : respeta solo_anade (aplicar_interes self).
Proof.
  unfold aplicar_interes. apply anade_bind; [apply anade_leer|].
  intros c. destruct (clase_de c); [apply anade_ret| |]; apply anade_interes_con.
Qed.

Lemma anade_update (cuenta : ref) : respeta solo_anade (update_account_in_db cuenta).
Proof.
  intros w. apply solo_anade_objs. unfold update_account_in_db.
  destruct (db_conn w); [|reflexivity].
  destruct (objs w !! cuenta); [|reflexivity].
  now destruct (_ && _).
Qed.

Lemma anade_add_new (cuenta : ref) : respeta solo_anade (add_new_account_to_db cuenta).
Proof.
  intros w. apply solo_anade_objs. unfold add_new_account_to_db.
  destruct (db_conn w); [|reflexivity].
  destruct (objs w !! cuenta); [|reflexivity].
  destruct (PrimFloat.is_nan _); [reflexivity|].
  now destruct (existsb _ _).
Qed.

Lemma anade_nueva (k : clase) (n t : str) (s : float) :
  respeta solo_anade (nueva k n t s).
Proof.
  intros w. simpl. eapply solo_anade_nueva; [apply fresca_sin_objeto|reflexivity].
Qed.

Lemma anade_si (b : bool) (e : exn) :
  respeta solo_anade (if b then raise e else ret tt).
Proof. apply anade_inerte, inerte_si. Qed.

Lemma anade_cierre (cuenta : ref) (titulo : str) (texto : float -> str) :
  respeta solo_anade
    (bind (saldo cuenta) (fun s => mostrar (showinfo titulo (texto s)))).
Proof.
  apply anade_solo_dialoga, solo_dialoga_bind;
    [apply solo_dialoga_inerte, inerte_saldo|intros s; apply solo_dialoga_mostrar].
Qed.

Section AnadeFormularios.

Variable float_de_str : str -> str + float.
Variable digito : N -> bool.

Lemma anade_realizar_operacion (v : Ventana) :
  respeta solo_anade (_realizar_operacion float_de_str v).
Proof.
  unfold _realizar_operacion. apply anade_try_except.
  - unfold realizar_operacion_cuerpo.
    apply anade_bind; [apply anade_si|intros ?].
    apply anade_bind; [apply anade_inerte, inerte_buscar|intros [r|]];
      [|apply anade_inerte; intros w; reflexivity].
    apply anade_bind;
      [|intros ?; apply anade_inerte, inerte_actualizar_saldo_op].
    destruct (str_eqb (op_type_var v) (lit "Depósito")).
    { apply anade_bind; [apply anade_si|intros ?].
      apply anade_bind; [apply anade_inerte, inerte_leer_monto|intros monto].
      apply anade_bind; [apply anade_depositar|intros ?].
      apply anade_bind; [apply anade_update|intros ?]. apply anade_cierre. }
    destruct (str_eqb (op_type_var v) (lit "Retiro")).
    { apply anade_bind; [apply anade_si|intros ?].
      apply anade_bind; [apply anade_inerte, inerte_leer_monto|intros monto].
      apply anade_bind; [apply anade_retirar|intros ?].
      apply anade_bind; [apply anade_update|intros ?]. apply anade_cierre. }
    destruct (str_eqb (op_type_var v) (lit "Transferencia")).
    { apply anade_bind; [apply anade_si|intros ?].
      apply anade_bind; [apply anade_si|intros ?].
      apply anade_bind; [apply anade_inerte, inerte_leer_monto|intros monto].
      apply anade_bind; [apply anade_inerte, inerte_buscar|intros [rd|]];
        [|apply anade_inerte; intros w; reflexivity].
      apply anade_bind; [apply anade_si|intros ?].
      apply anade_bind; [apply anade_transferir|intros ?].
      apply anade_bind; [apply anade_update|intros ?].
      apply anade_bind; [apply anade_update|intros ?]. apply anade_cierre. }
    destruct (str_eqb (op_type_var v) (lit "Aplicar Interés")).
    { apply anade_bind; [apply anade_aplicar_interes|intros ?].
      apply anade_bind; [apply anade_update|intros ?]. apply anade_cierre. }
    apply anade_ret.
  - intros e. apply anade_solo_dialoga.
    destruct e; (apply solo_dialoga_bind; [apply solo_dialoga_mostrar|];
                 intros ?; apply solo_dialoga_inerte; intros w; reflexivity).
Qed.

Lemma anade_crear_cuenta (f : formulario) :
  respeta solo_anade (_crear_cuenta float_de_str digito f).
Proof.
  unfold _crear_cuenta. apply anade_try_except.
  - unfold crear_cuenta_cuerpo.
    assert (Hr : forall e, respeta solo_anade (@raise unit e))
      by (intros e; apply anade_inerte; intros w; reflexivity).
    destruct (bool_decide (strip (entry_numero_crear f) = [])); [apply Hr|].
    destruct (bool_decide (strip (entry_titular_crear f) = [])); [apply Hr|].
    destruct (bool_decide (strip (entry_saldo_crear f) = [])); [apply Hr|].
    destruct (float_de_str (strip (entry_saldo_crear f))) as [msg|x]; [apply Hr|].
    destruct (negb _); [apply Hr|]. destruct (negb _); [apply Hr|].
    destruct (lt x (of_int 0)); [apply Hr|].
    apply anade_bind; [apply anade_inerte; intros w; reflexivity|intros [|]];
      [apply Hr|].
    apply anade_bind; [apply anade_nueva|intros r].
    apply anade_bind; [intros w; now apply solo_anade_objs|intros ?].
    apply anade_bind; [apply anade_add_new|intros ?].
    apply anade_solo_dialoga, solo_dialoga_mostrar.
  - intros e. apply anade_solo_dialoga.
    destruct e; apply solo_dialoga_mostrar.
Qed.

Lemma anade_atender (e : evento) : respeta solo_anade (atender float_de_str digito e).
Proof.
  destruct e as [f|v|v]; simpl.
  - apply anade_crear_cuenta.
  - apply anade_bind; [apply anade_realizar_operacion|intros ?; apply anade_ret].
  - apply anade_bind; [apply anade_solo_dialoga, solo_dialoga_ver_historial|].
    intros ?; apply anade_ret.
Qed.

Lemma sesion_solo_anade_aux (es : list evento) (w : Mundo) :
  solo_anade w (sesion float_de_str digito es w).
Proof.
  revert w. induction es as [|e es IH]; intros w; simpl.
  - now apply solo_anade_objs.
  - eapply solo_anade_trans; [apply anade_atender|apply IH].
Qed.

End AnadeFormularios.

(** X24: no call on the ledger removes an account or rewrites its past.
    Over any list of deposits, withdrawals, transfers and interest,
    accepted or rejected, every instance is still there with its
    identifier, owner and class, and its history starts with the
    history it had. *)
Theorem libro_solo_anade (os : list operacion) (w : Mundo) :
  solo_anade w (ejecutar_todas os w).
Proof.
  revert w. induction os as [|o os IH]; intros w; simpl.
  - now apply solo_anade_objs.
  - eapply solo_anade_trans; [|apply IH].
    destruct o; simpl.
    + apply anade_depositar.
    + apply anade_retirar.
    + apply anade_transferir.
    + apply anade_aplicar_interes.
Qed.

(** ** What [update_account_in_db] writes *)

Lemma actualizar_saldo_idem (n : str) (s : float) (filas : list fila_cuenta) :
  actualizar_saldo n s (actualizar_saldo n s filas) = actualizar_saldo n s filas.
Proof.
  unfold actualizar_saldo. rewrite map_map. apply map_ext. intros f.
  destruct (str_eqb (f_numero f) n) eqn:E; simpl; now rewrite E.
Qed.

Lemma filter_otras_nuevas (n : str) (hs : list transaccion) :
  filter (fun h => h_numero_cuenta h <> n)
    (map (fun t : str * str * str =>
            {| h_numero_cuenta := n; h_fecha := t.1.1;
               h_tipo_transaccion := t.1.2; h_monto_str := t.2 |}) hs) = [].
Proof.
  induction hs as [|t hs IH]; [reflexivity|]. simpl.
  rewrite filter_cons. simpl. destruct (decide (n <> n)); [congruence|exact IH].
Qed.

Lemma filter_otras_idem (n : str) (filas : list fila_historial) :
  filter (fun h => h_numero_cuenta h <> n)
    (filter (fun h => h_numero_cuenta h <> n) filas)
  = filter (fun h => h_numero_cuenta h <> n) filas.
Proof.
  induction filas as [|h l IH]; [reflexivity|].
  rewrite (filter_cons _ h l). destruct (decide (h_numero_cuenta h <> n)) as [H|H].
  - rewrite filter_cons. destruct (decide (h_numero_cuenta h <> n)); [|contradiction].
    now rewrite IH.
  - exact IH.
Qed.

Lemma reemplazar_historial_idem (n : str) (hs : list transaccion)
    (filas : list fila_historial) :
  reemplazar_historial n hs (reemplazar_historial n hs filas)
  = reemplazar_historial n hs filas.
Proof.
  unfold reemplazar_historial.
  now rewrite filter_app, filter_otras_idem, filter_otras_nuevas, app_nil_r.
Qed.

Lemma existsb_actualizar_saldo (n n' : str) (s : float) (filas : list fila_cuenta) :
  existsb (fun f => str_eqb (f_numero f) n') (actualizar_saldo n s filas)
  = existsb (fun f => str_eqb (f_numero f) n') filas.
Proof.
  induction filas as [|f l IH]; [reflexivity|]. simpl. rewrite IH. f_equal.
  now destruct (str_eqb (f_numero f) n).
Qed.


(** ** Rows of a kind the loading does not know *)

Lemma respeta_bind_trans {A B} (R : Mundo -> Mundo -> Prop) (m : M A) (k : A -> M B) :
  (forall w1 w2 w3, R w1 w2 -> R w2 w3 -> R w1 w3) ->
  respeta R m -> (forall a, respeta R (k a)) -> respeta R (bind m k).
Proof.
  intros HR Hm Hk w. unfold bind. specialize (Hm w).
  destruct (m w) as [[a|e] w1]; simpl in *; [|assumption].
  eapply HR; [eassumption|apply Hk].
Qed.

Section Fuera.

Variable n : str.

Lemma igual_en_trans (w1 w2 w3 : Mundo) :
  igual_en n w1 w2 -> igual_en n w2 w3 -> igual_en n w1 w3.
Proof. unfold igual_en. congruence. Qed.

Lemma igual_en_anexar (r : ref) (hs : list fila_historial) :
  respeta (igual_en n) (anexar_historial r hs).
Proof.
  induction hs as [|h hs IH]; simpl; [intros w; reflexivity|].
  apply respeta_bind_trans; [apply igual_en_trans| |intros c].
  { intros w. unfold leer. now destruct (objs w !! r). }
  apply respeta_bind_trans; [apply igual_en_trans|intros w; reflexivity|intros ?].
  exact IH.
Qed.

Lemma igual_en_cargar_filas (db : DB) (filas : list fila_cuenta) (cuenta : option ref) :
  ~ In n (map f_numero filas) ->
  respeta (igual_en n) (cargar_filas db filas cuenta).
Proof.
  revert cuenta. induction filas as [|row filas IH]; intros cuenta Hn; simpl.
  - intros w. reflexivity.
  - simpl in Hn.
    apply respeta_bind_trans; [apply igual_en_trans| |intros [r|]].
    + destruct (str_eqb (f_tipo row) (lit "Ahorro"));
        [|destruct (str_eqb (f_tipo row) (lit "Corriente"))];
        try (intros w; reflexivity).
    + apply respeta_bind_trans; [apply igual_en_trans| |intros ?].
      { intros w. unfold igual_en. simpl. apply lookup_insert_ne. tauto. }
      apply respeta_bind_trans; [apply igual_en_trans|apply igual_en_anexar|intros ?].
      apply IH. tauto.
    + intros w. reflexivity.
Qed.

End Fuera.

Lemma cargar_fila_desconocida (db : DB) (row : fila_cuenta) (filas : list fila_cuenta)
    (r : ref) (c : Cuenta) (w : Mundo) :
  tipo_reconocido (f_tipo row) = false ->
  objs w !! r = Some c ->
  exists w1,
    cargar_filas db (row :: filas) (Some r) w = cargar_filas db filas (Some r) w1
    /\ objs w1 = <[r := con_historial
                          (historial c ++ historial_guardado db (f_numero row)) c]> (objs w)
    /\ cuentas w1 = <[f_numero row := r]> (cuentas w).
Proof.
  intros Ht Hc. unfold tipo_reconocido in Ht. apply orb_false_iff in Ht as [H1 H2].
  simpl. rewrite H1, H2. unfold bind at 1, ret at 1.
  unfold bind at 1, asignar_cuentas at 1.
  set (w0 := con_cuentas _ _).
  destruct (anexar_historial_exacto r (historial_de db (f_numero row)) c w0)
    as (w1 & E & Ho & Hcu & _); [exact Hc|].
  exists w1. unfold bind. rewrite E. split; [reflexivity|].
  rewrite Ho, Hcu. split; reflexivity.
Qed.

(** ** The loading keeps what it has built *)

Lemma anade_anexar (r : ref) (hs : list fila_historial) :
  respeta solo_anade (anexar_historial r hs).
Proof.
  induction hs as [|h hs IH]; simpl; [apply anade_ret|].
  intros w. unfold bind at 1. destruct (objs w !! r) as [c|] eqn:E.
  - rewrite (leer_algo _ _ _ E). unfold bind at 1, escribir at 1.
    eapply solo_anade_trans; [|apply IH].
    eapply (solo_anade_escribir _ _ r c); [exact E|..].
    3: reflexivity.
    + repeat split.
    + simpl. now apply prefix_app_r.
  - rewrite (leer_nada _ _ E). now apply solo_anade_objs.
Qed.

Lemma anade_cargar_filas (db : DB) (filas : list fila_cuenta) (cuenta : option ref) :
  respeta solo_anade (cargar_filas db filas cuenta).
Proof.
  revert cuenta. induction filas as [|row filas IH]; intros cuenta; simpl.
  - apply anade_ret.
  - apply anade_bind; [|intros [r|]].
    + destruct (str_eqb (f_tipo row) (lit "Ahorro"));
        [|destruct (str_eqb (f_tipo row) (lit "Corriente"))].
      * apply anade_bind; [apply anade_nueva|intros ?; apply anade_ret].
      * apply anade_bind; [apply anade_nueva|intros ?; apply anade_ret].
      * apply anade_ret.
    + apply anade_bind; [intros w; now apply solo_anade_objs|intros ?].
      apply anade_bind; [apply anade_anexar|intros ?]. apply IH.
    + apply anade_inerte. intros w. reflexivity.
Qed.

Lemma cargar_filas_app (db : DB) (pre resto : list fila_cuenta) (cuenta : option ref)
    (w w' : Mundo) :
  cargar_filas db (pre ++ resto) cuenta w = (Ret tt, w') ->
  exists cuenta1 w1, cargar_filas db resto cuenta1 w1 = (Ret tt, w').
Proof.
  revert cuenta w. induction pre as [|row pre IH]; intros cuenta w H; [eauto|].
  simpl in H. unfold bind at 1 in H.
  match type of H with
  | match ?m w with _ => _ end = _ => destruct (m w) as [[[r|]|e] w1]
  end; try discriminate H.
  unfold bind at 1, asignar_cuentas at 1 in H. unfold bind at 1 in H.
  match type of H with
  | match ?m with _ => _ end = _ => destruct m as [[?|e] w2]
  end; [|discriminate H].
  exact (IH _ _ H).
Qed.

(** ** What the forms guarantee *)

Lemma ordinario_de_prueba (e : evento) :
  In e (CrearCuenta formulario_ana :: CrearCuenta formulario_luis :: eventos_de_prueba) ->
  evento_ordinario float_de_montos e.
Proof.
  intros [<-|[<-|[<-|[<-|[]]]]]; simpl; intros x H; vm_compute in H;
    injection H as <-; reflexivity.
Qed.

Lemma espejo_mundo_banco : espejo mundo_banco.
Proof.
  apply (sesion_guarda_espejo_aux float_de_montos digito_ascii
           [CrearCuenta formulario_ana; CrearCuenta formulario_luis] mundo_vacio
           espejo_mundo_vacio).
  repeat constructor; apply ordinario_de_prueba; simpl; auto.
Qed.

(** X7: from a world that the database mirrors, "Ejecutar" on the
    operations form leaves a world that the database mirrors, whatever
    the fields hold, provided the amount typed is a finite number:
    every registered account has its row with its balance, a balance
    [>= 0], and its history stored in order. *)
Theorem operacion_guarda_espejo (float_de_str : str -> str + float) (v : Ventana)
    (w : Mundo) :
  espejo w ->
  evento_ordinario float_de_str (RealizarOperacion v) ->
  espejo (snd (_realizar_operacion float_de_str v w)).
Proof. apply realizar_operacion_guarda_espejo. Qed.

Lemma operacion_guarda_espejo_testigo :
  espejo (snd (_realizar_operacion float_de_montos
                 (ventana (lit "Depósito") (lit "1000000001") (lit "50") [])
                 mundo_banco)).
Proof.
  apply operacion_guarda_espejo; [exact espejo_mundo_banco|].
  apply ordinario_de_prueba. simpl. auto.
Defined.

Section Altas.

Variable float_de_str : str -> str + float.
Variable digito : N -> bool.

(** A request that passes every validation reaches [Cuenta(...)]. *)
Lemma crear_cuenta_cuerpo_llega (f : formulario) (w : Mundo) (x : float) :
  diez_digitos digito (strip (entry_numero_crear f)) ->
  nombre_y_apellido (strip (entry_titular_crear f)) ->
  strip (entry_saldo_crear f) <> [] ->
  float_de_str (strip (entry_saldo_crear f)) = inr x ->
  lt x (of_int 0) = false ->
  cuentas w !! strip (entry_numero_crear f) = None ->
  crear_cuenta_cuerpo float_de_str digito f w
  = (cuenta <- nueva (if str_eqb (tipo_cuenta f) (lit "Ahorro")
                      then Cls_CuentaAhorro else Cls_CuentaCorriente)
                 (strip (entry_numero_crear f)) (strip (entry_titular_crear f)) x ;;
     asignar_cuentas (strip (entry_numero_crear f)) cuenta ;;
     add_new_account_to_db cuenta ;;
     mostrar (showinfo (lit "¡Éxito!")
                (lit "¡Felicidades! La cuenta ha sido creada correctamente.")))%py w.
Proof.
  intros Hn Ht Hs Hx Hneg Hc. unfold crear_cuenta_cuerpo.
  assert (Hn' : strip (entry_numero_crear f) <> []).
  { intros E. rewrite E in Hn. destruct Hn as [Hl _]. discriminate Hl. }
  assert (Ht' : strip (entry_titular_crear f) <> []).
  { intros E. rewrite E in Ht. apply patron_titular_acepta in Ht. discriminate Ht. }
  rewrite (bool_decide_eq_false_2 _ Hn'), (bool_decide_eq_false_2 _ Ht'),
    (bool_decide_eq_false_2 _ Hs), Hx.
  rewrite !match_anclado_strip.
  rewrite (proj2 (patron_numero_acepta digito _) Hn).
  rewrite (proj2 (patron_titular_acepta _) Ht).
  change (negb true) with false. cbv iota.
  rewrite Hneg. unfold bind at 1, en_cuentas at 1. cbv beta iota.
  rewrite bool_decide_eq_false_2; [reflexivity|].
  rewrite Hc. intros [r Hr]. discriminate Hr.
Qed.

End Altas.

(** X8: a request whose identifier is ten digits and unregistered, whose
    owner is a name and a surname, and whose balance is a number that
    is neither negative nor NaN, with no row of that identifier in the
    database, opens the account: a new instance of the chosen class
    ("Ahorro", otherwise current) with an empty history, registered
    under the identifier, its row appended to [cuentas], and the
    dialog "¡Éxito!". *)
Theorem cuenta_creada (float_de_str : str -> str + float) (digito : N -> bool)
    (f : formulario) (w : Mundo) (db : DB) (x : float) :
  diez_digitos digito (strip (entry_numero_crear f)) ->
  nombre_y_apellido (strip (entry_titular_crear f)) ->
  strip (entry_saldo_crear f) <> [] ->
  float_de_str (strip (entry_saldo_crear f)) = inr x ->
  lt x (of_int 0) = false ->
  PrimFloat.is_nan x = false ->
  cuentas w !! strip (entry_numero_crear f) = None ->
  db_conn w = Some db ->
  ~ In (strip (entry_numero_crear f)) (map f_numero (tabla_cuentas db)) ->
  let r := fresh (dom (objs w)) in
  let c := {| clase_de := if str_eqb (tipo_cuenta f) (lit "Ahorro")
                          then Cls_CuentaAhorro else Cls_CuentaCorriente;
              numero := strip (entry_numero_crear f);
              titular := strip (entry_titular_crear f);
              _saldo := x; historial := [] |} in
  _crear_cuenta float_de_str digito f w
  = (Ret tt,
     {| objs := <[r := c]> (objs w);
        cuentas := <[strip (entry_numero_crear f) := r]> (cuentas w);
        db_conn := Some {| tabla_cuentas := tabla_cuentas db ++ [fila_de c];
                           tabla_historial := tabla_historial db |};
        reloj := reloj w; tics := tics w;
        dialogos := dialogos w
                    ++ [showinfo (lit "¡Éxito!")
                          (lit "¡Felicidades! La cuenta ha sido creada correctamente.")] |}).
Proof.
  intros Hn Ht Hs Hx Hneg Hnan Hc Hdb Hfila r c.
  unfold _crear_cuenta, try_except.
  rewrite (crear_cuenta_cuerpo_llega _ _ _ _ x Hn Ht Hs Hx Hneg Hc).
  now rewrite (alta_ok _ _ _ _ _ w db Hdb Hnan Hfila).
Qed.

Lemma cuenta_creada_testigo :
  cuentas (snd (_crear_cuenta float_de_montos digito_ascii formulario_ana mundo_vacio))
    !! lit "1000000001" = Some 0%nat
  /\ db_conn (snd (_crear_cuenta float_de_montos digito_ascii formulario_ana mundo_vacio))
     = Some {| tabla_cuentas := [fila_ana]; tabla_historial := [] |}.
Proof.
  rewrite (cuenta_creada float_de_montos digito_ascii formulario_ana mundo_vacio
             {| tabla_cuentas := []; tabla_historial := [] |} 100%float).
  - split; reflexivity.
  - apply patron_numero_acepta. reflexivity.
  - apply patron_titular_acepta. reflexivity.
  - discriminate.
  - reflexivity.
  - reflexivity.
  - reflexivity.
  - reflexivity.
  - reflexivity.
  - intros [].
Defined.

(** X9: from a world that the database mirrors, "Crear Cuenta" leaves a
    world that the database mirrors, whether the request is accepted
    or refused, provided the balance typed is not NaN. *)
Theorem crear_cuenta_guarda_espejo (float_de_str : str -> str + float)
    (digito : N -> bool) (f : formulario) (w : Mundo) :
  espejo w ->
  evento_ordinario float_de_str (CrearCuenta f) ->
  espejo (snd (_crear_cuenta float_de_str digito f w)).
Proof. apply crear_cuenta_guarda_espejo_aux. Qed.

Lemma crear_cuenta_guarda_espejo_testigo :
  espejo (snd (_crear_cuenta float_de_montos digito_ascii formulario_luis mundo_banco)).
Proof.
  apply crear_cuenta_guarda_espejo; [exact espejo_mundo_banco|].
  apply ordinario_de_prueba. simpl. auto.
Defined.

(** X10: the account is registered before its row is written. When the
    [INSERT] is refused, because the balance is NaN or the identifier
    already has a row, [_crear_cuenta] shows "Error Inesperado" and
    returns with the new instance registered in [cuentas] and the
    database as it was. *)
Theorem alta_no_guardada_queda_en_memoria (float_de_str : str -> str + float)
    (digito : N -> bool) (f : formulario) (w : Mundo) (db : DB) (x : float) :
  diez_digitos digito (strip (entry_numero_crear f)) ->
  nombre_y_apellido (strip (entry_titular_crear f)) ->
  strip (entry_saldo_crear f) <> [] ->
  float_de_str (strip (entry_saldo_crear f)) = inr x ->
  lt x (of_int 0) = false ->
  cuentas w !! strip (entry_numero_crear f) = None ->
  db_conn w = Some db ->
  PrimFloat.is_nan x = true
  \/ In (strip (entry_numero_crear f)) (map f_numero (tabla_cuentas db)) ->
  let r := fresh (dom (objs w)) in
  let c := {| clase_de := if str_eqb (tipo_cuenta f) (lit "Ahorro")
                          then Cls_CuentaAhorro else Cls_CuentaCorriente;
              numero := strip (entry_numero_crear f);
              titular := strip (entry_titular_crear f);
              _saldo := x; historial := [] |} in
  exists msg,
    _crear_cuenta float_de_str digito f w
    = (Ret tt,
       {| objs := <[r := c]> (objs w);
          cuentas := <[strip (entry_numero_crear f) := r]> (cuentas w);
          db_conn := Some db;
          reloj := reloj w; tics := tics w;
          dialogos := dialogos w ++ [showerror (lit "Error Inesperado") msg] |}).
Proof.
  intros Hn Ht Hs Hx Hneg Hc Hdb Hmal r c.
  unfold _crear_cuenta, try_except.
  rewrite (crear_cuenta_cuerpo_llega _ _ _ _ x Hn Ht Hs Hx Hneg Hc).
  destruct (alta_rechazada
              (if str_eqb (tipo_cuenta f) (lit "Ahorro")
               then Cls_CuentaAhorro else Cls_CuentaCorriente)
              (strip (entry_numero_crear f)) (strip (entry_titular_crear f)) x
              (showinfo (lit "¡Éxito!")
                 (lit "¡Felicidades! La cuenta ha sido creada correctamente."))
              w db Hdb Hmal) as [m ->].
  eexists. unfold mostrar. reflexivity.
Qed.

Lemma alta_no_guardada_queda_en_memoria_testigo :
  exists msg,
    _crear_cuenta float_de_montos digito_ascii formulario_ana (mundo_con_filas [fila_ana])
    = (Ret tt,
       con_dialogos [showerror (lit "Error Inesperado") msg]
         (con_cuentas (<[lit "1000000001" := 0%nat]> ∅)
            (con_objs (<[0%nat := ana]> ∅) (mundo_con_filas [fila_ana])))).
Proof.
  destruct (alta_no_guardada_queda_en_memoria float_de_montos digito_ascii
              formulario_ana (mundo_con_filas [fila_ana])
              (db_de (mundo_con_filas [fila_ana])) 100%float) as [msg E].
  - apply patron_numero_acepta. reflexivity.
  - apply patron_titular_acepta. reflexivity.
  - discriminate.
  - reflexivity.
  - reflexivity.
  - reflexivity.
  - reflexivity.
  - right. left. reflexivity.
  - exists msg. rewrite E. reflexivity.
Defined.

(** ** What is stored and what is loaded *)

(** X11: on an empty dictionary, [load_accounts_from_db] from a sound
    database (no identifier twice, kinds "Ahorro" or "Corriente",
    balances [>= 0], no history row without its account) returns with
    one instance for each row, of the class, owner and balance of the
    row and with the stored history of its identifier in stored order,
    registered under the identifier of the row, and nothing else
    registered; the database is untouched and mirrors the result. *)
Theorem carga_establece_espejo (w : Mundo) (db : DB) :
  db_conn w = Some db ->
  cuentas w = ∅ ->
  db_sana db ->
  exists w', load_accounts_from_db w = (Ret tt, w')
             /\ cargadas db (tabla_cuentas db) w'
             /\ db_conn w' = Some db
             /\ espejo w'.
Proof.
  intros Hdb Hvac Hsana.
  destruct (carga_desde_sana w db Hdb Hvac Hsana) as (w' & E & Hcar & Hdb' & _).
  exists w'. do 3 (split; [assumption|]). now apply (cargadas_espejo db).
Qed.

Lemma carga_establece_espejo_testigo :
  exists w', load_accounts_from_db (mundo_con_filas [fila_ana; fila_de luis]) = (Ret tt, w')
             /\ espejo w'.
Proof.
  destruct (carga_establece_espejo (mundo_con_filas [fila_ana; fila_de luis])
              (db_de (mundo_con_filas [fila_ana; fila_de luis])))
    as (w' & E & _ & _ & H).
  - reflexivity.
  - reflexivity.
  - split; [|split].
    + apply (bool_decide_unpack _). vm_compute. reflexivity.
    + intros f [<-|[<-|[]]]; split; reflexivity.
    + intros h [<-|[]]. right. left. reflexivity.
  - exists w'. split; assumption.
Defined.

(** X12: what the forms have stored is what a restart loads. From a
    world that the database mirrors, [load_accounts_from_db] on an
    empty dictionary and the same database returns; it registers the
    same identifiers, and under each one an instance equal to the one
    the world held: class, identifier, owner, balance and history. *)
Theorem recarga_restituye (w w0 : Mundo) (db : DB) :
  espejo w ->
  db_conn w = Some db ->
  db_conn w0 = Some db ->
  cuentas w0 = ∅ ->
  exists w', load_accounts_from_db w0 = (Ret tt, w')
    /\ espejo w'
    /\ (forall n, is_Some (cuentas w' !! n) <-> is_Some (cuentas w !! n))
    /\ forall n r c, cuentas w !! n = Some r -> objs w !! r = Some c ->
         exists r', cuentas w' !! n = Some r' /\ objs w' !! r' = Some c.
Proof. apply recarga_aux. Qed.

(** X13: a session at the forms keeps the database a mirror of the
    accounts. From a world that the database mirrors, after any
    sequence of "Crear Cuenta", "Ejecutar" and "Ver Historial", accepted
    or refused, with balances that are not NaN and amounts that are
    finite, every registered account has its row with its balance, a
    balance [>= 0], and its history stored in order. *)
Theorem sesion_guarda_espejo (float_de_str : str -> str + float) (digito : N -> bool)
    (es : list evento) (w : Mundo) :
  espejo w ->
  Forall (evento_ordinario float_de_str) es ->
  espejo (sesion float_de_str digito es w).
Proof. apply sesion_guarda_espejo_aux. Qed.

Lemma espejo_mundo_sesion : espejo mundo_sesion.
Proof.
  apply sesion_guarda_espejo_aux; [exact espejo_mundo_banco|].
  repeat constructor; apply ordinario_de_prueba; simpl; auto.
Qed.

Lemma sesion_guarda_espejo_testigo : espejo mundo_sesion.
Proof.
  apply sesion_guarda_espejo; [exact espejo_mundo_banco|].
  repeat constructor; apply ordinario_de_prueba; simpl; auto.
Defined.

Lemma recarga_restituye_testigo :
  exists w', load_accounts_from_db (reinicio mundo_sesion) = (Ret tt, w')
    /\ exists r', cuentas w' !! lit "1000000002" = Some r'
                  /\ objs w' !! r' = objs mundo_sesion !! 1%nat.
Proof.
  destruct (recarga_restituye mundo_sesion (reinicio mundo_sesion) (db_de mundo_sesion)
              espejo_mundo_sesion)
    as (w' & E & _ & _ & H); [vm_compute; reflexivity|vm_compute; reflexivity|reflexivity|].
  exists w'. split; [exact E|].
  destruct (objs mundo_sesion !! 1%nat) as [c|] eqn:Ec; [|vm_compute in Ec; discriminate Ec].
  apply (H (lit "1000000002") 1%nat c); [vm_compute; reflexivity|exact Ec].
Defined.

(** X14: "Ver Historial" writes nothing: whatever the entry holds, the
    instances, the dictionary, the database and the clock are what
    they were; only dialogs may have been shown. *)
Theorem ver_historial_no_escribe (v : Ventana) (w : Mundo) :
  exists d, snd (_ver_historial v w) = con_dialogos (dialogos w ++ d) w.
Proof.
  unfold _ver_historial.
  destruct (bool_decide (strip (entry_historial v) = [])); [eexists; reflexivity|].
  unfold bind at 1, buscar_cuenta at 1.
  destruct (cuentas w !! strip (entry_historial v)) as [r|]; [|eexists; reflexivity].
  unfold bind at 1, leer at 1.
  destruct (objs w !! r) as [c|].
  - destruct (historial c); [eexists; reflexivity|].
    exists []. simpl. rewrite app_nil_r. now destruct w.
  - exists []. simpl. rewrite app_nil_r. now destruct w.
Qed.

(** X15: in a world that the database mirrors, "Ver Historial" on a
    registered identifier returns with the table holding exactly the
    rows stored for that identifier, in stored order. *)
Theorem historial_visto_es_el_guardado (v : Ventana) (w : Mundo) (db : DB) :
  espejo w ->
  db_conn w = Some db ->
  strip (entry_historial v) <> [] ->
  is_Some (cuentas w !! strip (entry_historial v)) ->
  exists v' w',
    _ver_historial v w = (Ret v', w')
    /\ tree_historial v' = historial_guardado db (strip (entry_historial v)).
Proof.
  intros (db0 & Hdb0 & _ & _ & _ & Hc) Hdb Hn [r Hr].
  rewrite Hdb in Hdb0. injection Hdb0 as <-.
  destruct (Hc _ r Hr) as (c & Hoc & Hnum & _ & _ & _ & Hd).
  destruct (Hd ltac:(intros [])) as [_ Hh]. rewrite Hnum in Hh.
  unfold _ver_historial. rewrite (bool_decide_eq_false_2 _ Hn).
  unfold bind at 1, buscar_cuenta at 1. rewrite Hr.
  unfold bind at 1. rewrite (leer_algo _ _ _ Hoc). rewrite Hh.
  destruct (historial c); do 2 eexists; split; reflexivity.
Qed.

Lemma historial_visto_es_el_guardado_testigo :
  exists v' w',
    _ver_historial (ventana [] (lit "1000000002") [] []) mundo_sesion = (Ret v', w')
    /\ tree_historial v'
       = [(reloj_de_prueba 2, lit "Depósito", lit "+S/. 30.00");
          (reloj_de_prueba 4, lit "Transferencia de 1000000001", lit "+S/. 30.00")].
Proof.
  destruct (historial_visto_es_el_guardado (ventana [] (lit "1000000002") [] [])
              mundo_sesion (db_de mundo_sesion) espejo_mundo_sesion)
    as (v' & w' & E & H).
  - vm_compute. reflexivity.
  - discriminate.
  - exists 1%nat. vm_compute. reflexivity.
  - exists v', w'. split; [exact E|]. rewrite H. vm_compute. reflexivity.
Defined.

(** X16: no event at the forms removes an account or rewrites its
    past. Over any session, every instance that exists is still there
    afterwards, with its identifier, owner and class, and its history
    then starts with the history it had. *)
Theorem sesion_solo_anade (float_de_str : str -> str + float) (digito : N -> bool)
    (es : list evento) (w : Mundo) (r : ref) (c : Cuenta) :
  objs w !! r = Some c ->
  exists c', objs (sesion float_de_str digito es w) !! r = Some c'
             /\ numero c' = numero c /\ titular c' = titular c
             /\ clase_de c' = clase_de c
             /\ historial c `prefix_of` historial c'.
Proof.
  intros H.
  destruct (sesion_solo_anade_aux float_de_str digito es w r c H)
    as (c' & Hc' & (? & ? & ?) & ?).
  exists c'. auto.
Qed.

Lemma sesion_solo_anade_testigo :
  exists c',
    objs (sesion float_de_montos digito_ascii eventos_posteriores mundo_sesion) !! 0%nat
    = Some c'
    /\ numero c' = lit "1000000001"
    /\ [(reloj_de_prueba 0, lit "Depósito", lit "+S/. 50.00");
        (reloj_de_prueba 1, lit "Retiro", lit "-S/. 30.00");
        (reloj_de_prueba 3, lit "Transferencia a 1000000002", lit "-S/. 30.00")]
       `prefix_of` historial c'.
Proof.
  destruct (sesion_solo_anade float_de_montos digito_ascii eventos_posteriores
              mundo_sesion 0%nat ana_en_sesion) as (c' & E & Hn & _ & _ & Hp).
  - vm_compute. reflexivity.
  - exists c'. split; [exact E|]. split; assumption.
Defined.

(** X17: writing an account back twice is writing it back once:
    [update_account_in_db] run again on the world it left gives the
    same result and the same database. *)
Theorem update_dos_veces (r : ref) (w : Mundo) :
  update_account_in_db r (snd (update_account_in_db r w)) = update_account_in_db r w.
Proof.
  unfold update_account_in_db at 2 3.
  destruct (db_conn w) as [db|] eqn:Hdb.
  - destruct (objs w !! r) as [c|] eqn:Hc.
    + destruct (PrimFloat.is_nan (_saldo c)
                && existsb (fun f => str_eqb (f_numero f) (numero c)) (tabla_cuentas db))
        eqn:Hb; simpl.
      * unfold update_account_in_db. now rewrite Hdb, Hc, Hb.
      * unfold update_account_in_db. simpl. rewrite Hc. simpl.
        rewrite existsb_actualizar_saldo, Hb.
        now rewrite actualizar_saldo_idem, reemplazar_historial_idem.
    + simpl. unfold update_account_in_db. now rewrite Hdb, Hc.
  - simpl. unfold update_account_in_db. now rewrite Hdb.
Qed.

(** X18: [update_account_in_db] on an instance whose balance is not
    NaN returns; afterwards the rows stored for its identifier are its
    history, in order, every row of [cuentas] with its identifier holds
    its balance, and for every other identifier both tables hold what
    they held. No row of [cuentas] is added or removed. *)
Theorem update_escribe_su_cuenta (r : ref) (w : Mundo) (c : Cuenta) (db : DB) :
  db_conn w = Some db ->
  objs w !! r = Some c ->
  PrimFloat.is_nan (_saldo c) = false ->
  exists db',
    update_account_in_db r w = (Ret tt, con_db (Some db') w)
    /\ historial_guardado db' (numero c) = historial c
    /\ (forall f, In f (tabla_cuentas db') -> f_numero f = numero c ->
                  f_saldo f = _saldo c)
    /\ map f_numero (tabla_cuentas db') = map f_numero (tabla_cuentas db)
    /\ forall n, n <> numero c ->
         historial_guardado db' n = historial_guardado db n
         /\ forall f, f_numero f = n ->
              (In f (tabla_cuentas db') <-> In f (tabla_cuentas db)).
Proof.
  intros Hdb Hc Hnan. unfold update_account_in_db. rewrite Hdb, Hc, Hnan. simpl.
  eexists. split; [reflexivity|]. simpl.
  split.
  { rewrite historial_de_reemplazado. now destruct (decide (numero c = numero c)). }
  split.
  { intros f Hf Hn. apply actualizar_saldo_In in Hf as (f0 & _ & ->).
    destruct (str_eqb (f_numero f0) (numero c)) eqn:E; [reflexivity|].
    apply str_eqb_neq in E. contradiction. }
  split; [apply actualizar_saldo_numeros|].
  intros n Hn. split.
  { rewrite historial_de_reemplazado. now destruct (decide (n = numero c)). }
  intros f Hf. rewrite actualizar_saldo_In. split.
  - intros (f0 & Hin & ->).
    destruct (str_eqb (f_numero f0) (numero c)) eqn:E; [|assumption].
    apply str_eqb_eq in E. simpl in Hf. congruence.
  - intros Hin. exists f. split; [assumption|].
    rewrite (proj2 (str_eqb_neq _ _)); [reflexivity|congruence].
Qed.

Lemma update_escribe_su_cuenta_testigo :
  exists db',
    update_account_in_db 0%nat mundo_sin_guardar
    = (Ret tt, con_db (Some db') mundo_sin_guardar)
    /\ historial_guardado db' (lit "1000000001")
       = [(reloj_de_prueba 0, lit "Depósito", lit "+S/. 50.00")].
Proof.
  destruct (update_escribe_su_cuenta 0%nat mundo_sin_guardar ana_tras_deposito
              (db_de mundo_banco)) as (db' & E & H & _).
  - reflexivity.
  - vm_compute. reflexivity.
  - reflexivity.
  - exists db'. split; [exact E|exact H].
Defined.

(** X19: a row whose kind is neither "Ahorro" nor "Corriente", right
    after a row of a known kind, gets no instance of its own: when the
    loading returns, its identifier is registered for the instance
    built from the previous row, which carries the identifier of that
    row. *)
Theorem fila_desconocida_comparte_instancia (w w' : Mundo) (db : DB)
    (pre resto : list fila_cuenta) (f1 f2 : fila_cuenta) :
  db_conn w = Some db ->
  tabla_cuentas db = pre ++ f1 :: f2 :: resto ->
  load_accounts_from_db w = (Ret tt, w') ->
  tipo_reconocido (f_tipo f1) = true ->
  tipo_reconocido (f_tipo f2) = false ->
  ~ In (f_numero f1) (map f_numero resto) ->
  ~ In (f_numero f2) (map f_numero resto) ->
  exists r c, cuentas w' !! f_numero f1 = Some r
              /\ cuentas w' !! f_numero f2 = Some r
              /\ objs w' !! r = Some c
              /\ numero c = f_numero f1.
Proof.
  intros Hdb Ht H Hk1 Hk2 Hn1 Hn2.
  unfold load_accounts_from_db in H. rewrite Hdb, Ht in H.
  apply cargar_filas_app in H as (cuenta1 & w1 & H).
  destruct (cargar_fila_paso db f1 (f2 :: resto) cuenta1 w1 Hk1)
    as (w2 & E2 & Ho2 & Hc2 & _).
  rewrite E2 in H. clear E2.
  set (r := fresh (dom (objs w1))) in *.
  destruct (cargar_fila_desconocida db f2 resto r (cuenta_de_fila db f1) w2 Hk2)
    as (w3 & E3 & Ho3 & Hc3); [rewrite Ho2; apply lookup_insert_eq|].
  rewrite E3 in H. clear E3.
  pose proof (igual_en_cargar_filas (f_numero f1) db resto (Some r) Hn1 w3) as I1.
  pose proof (igual_en_cargar_filas (f_numero f2) db resto (Some r) Hn2 w3) as I2.
  pose proof (anade_cargar_filas db resto (Some r) w3) as A.
  rewrite H in I1, I2, A. unfold igual_en in I1, I2. simpl in I1, I2, A.
  destruct (A r (con_historial
                   (historial (cuenta_de_fila db f1)
                    ++ historial_guardado db (f_numero f2)) (cuenta_de_fila db f1)))
    as (c & Hc & (Hnum & _) & _); [rewrite Ho3; apply lookup_insert_eq|].
  exists r, c. rewrite I1, I2, Hc3, Hc2.
  split.
  { destruct (decide (f_numero f2 = f_numero f1)) as [->|NE];
      [apply lookup_insert_eq|].
    rewrite lookup_insert_ne by assumption. apply lookup_insert_eq. }
  split; [apply lookup_insert_eq|]. split; [assumption|exact Hnum].
Qed.

Lemma fila_desconocida_comparte_instancia_testigo :
  exists r c,
    cuentas (snd (load_accounts_from_db (mundo_con_filas [fila_ana; fila_luis_plazo])))
      !! lit "1000000001" = Some r
    /\ cuentas (snd (load_accounts_from_db (mundo_con_filas [fila_ana; fila_luis_plazo])))
         !! lit "1000000002" = Some r
    /\ objs (snd (load_accounts_from_db (mundo_con_filas [fila_ana; fila_luis_plazo])))
         !! r = Some c
    /\ numero c = lit "1000000001".
Proof.
  apply (fila_desconocida_comparte_instancia
           (mundo_con_filas [fila_ana; fila_luis_plazo]) _
           (db_de (mundo_con_filas [fila_ana; fila_luis_plazo]))
           [] [] fila_ana fila_luis_plazo).
  - reflexivity.
  - reflexivity.
  - vm_compute. reflexivity.
  - reflexivity.
  - reflexivity.
  - intros [].
  - intros [].
Defined.

(** X20: every identifier that [_crear_cuenta] accepts can be typed:
    the validator of the identifier entries lets each prefix of a
    ten-digit string through, as every decimal digit passes
    [str.isdigit]. *)
Theorem identificador_se_puede_teclear (digito isdigit : N -> bool) (s P : str) :
  (forall c, digito c = true -> isdigit c = true) ->
  diez_digitos digito s ->
  P `prefix_of` s ->
  vcmd_numero isdigit P = true.
Proof.
  intros Hd [Hl Hs] [t ->]. unfold vcmd_numero.
  destruct (bool_decide (P = [])); [apply orb_true_r|]. simpl. rewrite orb_false_r.
  apply andb_true_iff. split.
  - apply forallb_forall. apply Forall_app in Hs as [Hs _].
    rewrite Forall_forall in Hs. intros c Hc. apply Hd, Hs. now apply list_elem_of_In.
  - apply Nat.leb_le. rewrite length_app in Hl. lia.
Qed.

Lemma identificador_se_puede_teclear_testigo :
  vcmd_numero digito_ascii (lit "10000") = true.
Proof.
  apply (identificador_se_puede_teclear digito_ascii digito_ascii
           (lit "1000000001") (lit "10000")).
  - auto.
  - apply patron_numero_acepta. reflexivity.
  - exists (lit "00001"). reflexivity.
Defined.

(** ** The balance label after an operation *)

Lemma mismas_cuentas_trans (w1 w2 w3 : Mundo) :
  mismas_cuentas w1 w2 -> mismas_cuentas w2 w3 -> mismas_cuentas w1 w3.
Proof. unfold mismas_cuentas. congruence. Qed.

Lemma cuentas_conserva {A} (m : M A) : conserva m -> respeta mismas_cuentas m.
Proof. intros H w. apply (H w). Qed.

Lemma cuentas_solo_dialoga {A} (m : M A) : solo_dialoga m -> respeta mismas_cuentas m.
Proof. intros H w. destruct (H w) as [d ->]. reflexivity. Qed.

Lemma cuentas_inerte {A} (m : M A) : inerte m -> respeta mismas_cuentas m.
Proof. intros H w. now rewrite (H w). Qed.

Lemma cuentas_update (cuenta : ref) : respeta mismas_cuentas (update_account_in_db cuenta).
Proof.
  intros w. unfold mismas_cuentas, update_account_in_db.
  destruct (db_conn w); [|reflexivity].
  destruct (objs w !! cuenta); [|reflexivity].
  now destruct (_ && _).
Qed.

Lemma cuentas_tramo (m : M unit) (cuentas_a_guardar : list ref)
    (cuenta : ref) (titulo : str) (texto : float -> str) :
  respeta mismas_cuentas m ->
  respeta mismas_cuentas
    (bind m (fun _ =>
       fold_right (fun r k => bind (update_account_in_db r) (fun _ => k))
         (bind (saldo cuenta) (fun s => mostrar (showinfo titulo (texto s))))
         cuentas_a_guardar)).
Proof.
  intros Hm. apply respeta_bind_trans; [apply mismas_cuentas_trans|exact Hm|intros ?].
  induction cuentas_a_guardar as [|r l IH]; simpl.
  - apply cuentas_solo_dialoga, solo_dialoga_bind;
      [apply solo_dialoga_inerte, inerte_saldo|intros s; apply solo_dialoga_mostrar].
  - apply respeta_bind_trans; [apply mismas_cuentas_trans|apply cuentas_update|intros ?].
    exact IH.
Qed.

(** X21: an accepted operation leaves the three entries empty and the
    label without a balance. The entries are cleared before the label
    is set from the identifier entry, so whenever the [try] block of
    [_realizar_operacion] returns, the label reads "Saldo actual: ---"
    (the empty string being no registered identifier). *)
Theorem operacion_aceptada_borra_saldo (float_de_str : str -> str + float)
    (v v' : Ventana) (w w' : Mundo) :
  realizar_operacion_cuerpo float_de_str v w = (Ret v', w') ->
  cuentas w !! [] = None ->
  v' = con_label_saldo (lit "Saldo actual: ---") (limpiar_entradas_op v).
Proof.
  intros H Hvac. unfold realizar_operacion_cuerpo in H.
  unfold bind at 1 in H.
  destruct (bool_decide (strip (entry_numero_op v) = [])); [discriminate H|].
  cbv beta iota in H. unfold ret at 1 in H. cbv beta iota in H.
  unfold bind at 1, buscar_cuenta at 1 in H.
  destruct (cuentas w !! strip (entry_numero_op v)) as [r|]; [|discriminate H].
  unfold bind at 1 in H.
  match type of H with
  | match ?m w with _ => _ end = _ =>
    assert (Hm : respeta mismas_cuentas m); [|specialize (Hm w);
      destruct (m w) as [[a|e] w1]; [|discriminate H]]
  end.
  { assert (Hsi : forall b e, respeta mismas_cuentas (if b : bool then raise e else ret tt))
      by (intros b e; apply cuentas_inerte, inerte_si).
    destruct (str_eqb (op_type_var v) (lit "Depósito")).
    { apply respeta_bind_trans; [apply mismas_cuentas_trans|apply Hsi|intros ?].
      apply respeta_bind_trans;
        [apply mismas_cuentas_trans|apply cuentas_inerte, inerte_leer_monto|intros monto].
      apply (cuentas_tramo _ [r]). apply cuentas_conserva, conserva_depositar. }
    destruct (str_eqb (op_type_var v) (lit "Retiro")).
    { apply respeta_bind_trans; [apply mismas_cuentas_trans|apply Hsi|intros ?].
      apply respeta_bind_trans;
        [apply mismas_cuentas_trans|apply cuentas_inerte, inerte_leer_monto|intros monto].
      apply (cuentas_tramo _ [r]). apply cuentas_conserva, conserva_retirar. }
    destruct (str_eqb (op_type_var v) (lit "Transferencia")).
    { apply respeta_bind_trans; [apply mismas_cuentas_trans|apply Hsi|intros ?].
      apply respeta_bind_trans; [apply mismas_cuentas_trans|apply Hsi|intros ?].
      apply respeta_bind_trans;
        [apply mismas_cuentas_trans|apply cuentas_inerte, inerte_leer_monto|intros monto].
      apply respeta_bind_trans;
        [apply mismas_cuentas_trans|apply cuentas_inerte, inerte_buscar|intros [rd|]];
        [|intros w0; reflexivity].
      apply respeta_bind_trans; [apply mismas_cuentas_trans|apply Hsi|intros ?].
      apply (cuentas_tramo _ [r; rd]).
      apply cuentas_conserva, conserva_transferir. }
    destruct (str_eqb (op_type_var v) (lit "Aplicar Interés")).
    { apply (cuentas_tramo _ [r]).
      apply cuentas_conserva, conserva_aplicar_interes. }
    intros w0. reflexivity. }
  simpl in Hm. unfold mismas_cuentas in Hm.
  unfold actualizar_saldo_op, bind, buscar_cuenta in H.
  change (strip (entry_numero_op (limpiar_entradas_op v))) with (@nil N) in H.
  rewrite Hm, Hvac in H. unfold ret in H. now injection H as <- _.
Qed.

Lemma operacion_aceptada_borra_saldo_testigo :
  exists v' w',
    realizar_operacion_cuerpo float_de_montos
      (ventana (lit "Depósito") (lit "1000000001") (lit "50") []) mundo_banco
    = (Ret v', w')
    /\ label_saldo_op v' = lit "Saldo actual: ---"
    /\ entry_numero_op v' = [].
Proof.
  destruct (realizar_operacion_cuerpo float_de_montos
              (ventana (lit "Depósito") (lit "1000000001") (lit "50") []) mundo_banco)
    as [[v'|e] w'] eqn:E; [|vm_compute in E; discriminate E].
  exists v', w'. split; [reflexivity|].
  rewrite (operacion_aceptada_borra_saldo _ _ _ _ _ E); [split; reflexivity|].
  vm_compute. reflexivity.
Defined.

(** ** Accepted operations, from the form to the database *)

(** What follows the call on the ledger in each branch: the account is
    written back and its balance shown. *)
Lemma tramo_guardar (r : ref) (c : Cuenta) (db : DB) (titulo : str)
    (texto : float -> str) (w : Mundo) :
  db_conn w = Some db ->
  objs w !! r = Some c ->
  PrimFloat.is_nan (_saldo c) = false ->
  (update_account_in_db r ;;
   s <- saldo r ;;
   mostrar (showinfo titulo (texto s)))%py w
  = (Ret tt,
     {| objs := objs w; cuentas := cuentas w;
        db_conn := Some {| tabla_cuentas :=
                             actualizar_saldo (numero c) (_saldo c) (tabla_cuentas db);
                           tabla_historial :=
                             reemplazar_historial (numero c) (historial c)
                               (tabla_historial db) |};
        reloj := reloj w; tics := tics w;
        dialogos := dialogos w ++ [showinfo titulo (texto (_saldo c))] |}).
Proof.
  intros Hdb Hc Hnan.
  unfold bind, update_account_in_db, saldo, bind, leer, mostrar, ret.
  rewrite Hdb, Hc, Hnan. simpl. rewrite Hc. reflexivity.
Qed.

(** X22: a deposit at the form. On a registered account whose balance
    is [>= 0], with an amount that [float] reads, finite and not
    [<= 0], and the empty string being no registered identifier,
    "Ejecutar" with "Depósito" adds the amount to the balance, which
    stays [>= 0], and one row to the history, writes the new balance
    and the whole history to the database, shows the dialog "Depósito
    Exitoso", clears the three entries and leaves the label without a
    balance. The row ends with a text that writes the amount, and the
    dialog with a text that writes the new balance, each with two
    decimals and to the nearest cent. *)
Theorem deposito_en_formulario (float_de_str : str -> str + float) (v : Ventana)
    (w : Mundo) (db : DB) (r : ref) (c : Cuenta) (m : float) :
  op_type_var v = lit "Depósito" ->
  cuentas w !! [] = None ->
  cuentas w !! strip (entry_numero_op v) = Some r ->
  objs w !! r = Some c ->
  db_conn w = Some db ->
  strip (entry_monto_op v) <> [] ->
  float_de_str (strip (entry_monto_op v)) = inr m ->
  le m (of_int 0) = false ->
  PrimFloat.is_finite m = true ->
  le (of_int 0) (_saldo c) = true ->
  let c' := {| clase_de := clase_de c; numero := numero c; titular := titular c;
               _saldo := PrimFloat.add (_saldo c) m;
               historial := historial c
                 ++ [(reloj w (tics w), lit "Depósito", lit "+S/. " ++ format_2f m)] |} in
  _realizar_operacion float_de_str v w
  = (Ret (con_label_saldo (lit "Saldo actual: ---") (limpiar_entradas_op v)),
     {| objs := <[r := c']> (objs w); cuentas := cuentas w;
        db_conn := Some {| tabla_cuentas :=
                             actualizar_saldo (numero c) (_saldo c') (tabla_cuentas db);
                           tabla_historial :=
                             reemplazar_historial (numero c) (historial c')
                               (tabla_historial db) |};
        reloj := reloj w; tics := S (tics w);
        dialogos := dialogos w
          ++ [showinfo (lit "Depósito Exitoso")
                (lit "¡Depósito realizado! Saldo actual: S/. "
                 ++ format_2f (_saldo c'))] |})
  /\ le (of_int 0) (_saldo c') = true
  /\ escribe_2f m (format_2f m)
  /\ escribe_2f (_saldo c') (format_2f (_saldo c')).
Proof.
  intros Hop Hvac Hr Hc Hdb Hms Hx Hm Hf Hb c'.
  assert (Hpos : le (of_int 0) (_saldo c') = true).
  { apply suma_no_negativa; [assumption|]. now apply lt_le, finito_no_le_es_positivo. }
  pose proof (le_cero_no_nan _ Hpos) as Hnan.
  split; [|split; [exact Hpos|split; apply format_2f_escribe]].
  assert (Hn : strip (entry_numero_op v) <> []) by (intros E; rewrite E in Hr; congruence).
  unfold _realizar_operacion, try_except, realizar_operacion_cuerpo.
  rewrite (bool_decide_eq_false_2 _ Hn).
  unfold bind at 1, ret at 1. unfold bind at 1, buscar_cuenta at 1. rewrite Hr.
  rewrite Hop. rewrite (proj2 (str_eqb_eq _ _) eq_refl).
  rewrite (bool_decide_eq_false_2 _ Hms).
  unfold bind at 1. unfold bind at 1, ret at 1.
  unfold bind at 1, leer_monto at 1. rewrite Hx. unfold ret at 1.
  unfold bind at 1. rewrite (depositar_ok _ _ _ _ Hc Hm).
  assert (Hc' : objs (tras_depositar r c m w) !! r = Some c').
  { rewrite tras_depositar_leer. now destruct (decide (r = r)). }
  rewrite (tramo_guardar r c' db _ _ (tras_depositar r c m w) Hdb Hc' Hnan).
  unfold actualizar_saldo_op, bind, buscar_cuenta.
  change (strip (entry_numero_op (limpiar_entradas_op v))) with (@nil N).
  unfold tras_depositar, tras_registrar. simpl. rewrite Hvac, insert_insert_eq.
  reflexivity.
Qed.

Lemma deposito_en_formulario_testigo :
  _saldo <$> objs (snd (_realizar_operacion float_de_montos
                          (ventana (lit "Depósito") (lit "1000000001") (lit "50") [])
                          mundo_banco)) !! 0%nat
  = Some 150%float
  /\ dialogos (snd (_realizar_operacion float_de_montos
                      (ventana (lit "Depósito") (lit "1000000001") (lit "50") [])
                      mundo_banco))
     = dialogos mundo_banco
       ++ [showinfo (lit "Depósito Exitoso")
             (lit "¡Depósito realizado! Saldo actual: S/. 150.00")].
Proof.
  rewrite (proj1 (deposito_en_formulario float_de_montos
                    (ventana (lit "Depósito") (lit "1000000001") (lit "50") [])
                    mundo_banco (db_de mundo_banco) 0%nat ana 50%float
                    eq_refl eq_refl eq_refl eq_refl eq_refl
                    ltac:(discriminate) eq_refl eq_refl eq_refl eq_refl)).
  split; [reflexivity|]. vm_compute. reflexivity.
Defined.

(** X23: a withdrawal at the form. On a registered account whose
    balance is [>= 0], with an amount that [float] reads, finite, not
    [<= 0] and not above the balance, and the empty string being no
    registered identifier, "Ejecutar" with "Retiro" takes the amount
    from the balance, which stays [>= 0], adds one row to the history,
    writes the new balance and the whole history to the database,
    shows the dialog "Retiro Exitoso", clears the three entries and
    leaves the label without a balance. The row ends with a text that
    writes the amount, and the dialog with a text that writes the
    balance left, each with two decimals and to the nearest cent. *)
Theorem retiro_en_formulario (float_de_str : str -> str + float) (v : Ventana)
    (w : Mundo) (db : DB) (r : ref) (c : Cuenta) (m : float) :
  op_type_var v = lit "Retiro" ->
  cuentas w !! [] = None ->
  cuentas w !! strip (entry_numero_op v) = Some r ->
  objs w !! r = Some c ->
  db_conn w = Some db ->
  strip (entry_monto_op v) <> [] ->
  float_de_str (strip (entry_monto_op v)) = inr m ->
  le m (of_int 0) = false ->
  gt m (_saldo c) = false ->
  PrimFloat.is_finite m = true ->
  le (of_int 0) (_saldo c) = true ->
  let c' := {| clase_de := clase_de c; numero := numero c; titular := titular c;
               _saldo := PrimFloat.sub (_saldo c) m;
               historial := historial c
                 ++ [(reloj w (tics w), lit "Retiro", lit "-S/. " ++ format_2f m)] |} in
  _realizar_operacion float_de_str v w
  = (Ret (con_label_saldo (lit "Saldo actual: ---") (limpiar_entradas_op v)),
     {| objs := <[r := c']> (objs w); cuentas := cuentas w;
        db_conn := Some {| tabla_cuentas :=
                             actualizar_saldo (numero c) (_saldo c') (tabla_cuentas db);
                           tabla_historial :=
                             reemplazar_historial (numero c) (historial c')
                               (tabla_historial db) |};
        reloj := reloj w; tics := S (tics w);
        dialogos := dialogos w
          ++ [showinfo (lit "Retiro Exitoso")
                (lit "¡Retiro realizado! Saldo restante: S/. "
                 ++ format_2f (_saldo c'))] |})
  /\ le (of_int 0) (_saldo c') = true
  /\ escribe_2f m (format_2f m)
  /\ escribe_2f (_saldo c') (format_2f (_saldo c')).
Proof.
  intros Hop Hvac Hr Hc Hdb Hms Hx Hm Hg Hf Hb c'.
  assert (Hpos : le (of_int 0) (_saldo c') = true).
  { apply resta_no_negativa; [now apply finito_no_le_es_positivo| |assumption].
    now apply finito_no_gt_es_le. }
  pose proof (le_cero_no_nan _ Hpos) as Hnan.
  split; [|split; [exact Hpos|split; apply format_2f_escribe]].
  assert (Hn : strip (entry_numero_op v) <> []) by (intros E; rewrite E in Hr; congruence).
  unfold _realizar_operacion, try_except, realizar_operacion_cuerpo.
  rewrite (bool_decide_eq_false_2 _ Hn).
  unfold bind at 1, ret at 1. unfold bind at 1, buscar_cuenta at 1. rewrite Hr.
  rewrite Hop.
  replace (str_eqb (lit "Retiro") (lit "Depósito")) with false by reflexivity.
  rewrite (proj2 (str_eqb_eq _ _) eq_refl).
  rewrite (bool_decide_eq_false_2 _ Hms).
  unfold bind at 1. unfold bind at 1, ret at 1.
  unfold bind at 1, leer_monto at 1. rewrite Hx. unfold ret at 1.
  unfold bind at 1. rewrite (retirar_ok _ _ _ _ Hc Hm Hg).
  assert (Hc' : objs (tras_retirar r c m w) !! r = Some c').
  { rewrite tras_retirar_leer. now destruct (decide (r = r)). }
  rewrite (tramo_guardar r c' db _ _ (tras_retirar r c m w) Hdb Hc' Hnan).
  unfold actualizar_saldo_op, bind, buscar_cuenta.
  change (strip (entry_numero_op (limpiar_entradas_op v))) with (@nil N).
  unfold tras_retirar, tras_registrar. simpl. rewrite Hvac, insert_insert_eq.
  reflexivity.
Qed.

Lemma retiro_en_formulario_testigo :
  _saldo <$> objs (snd (_realizar_operacion float_de_montos
                          (ventana (lit "Retiro") (lit "1000000001") (lit "30") [])
                          mundo_banco)) !! 0%nat
  = Some 70%float
  /\ dialogos (snd (_realizar_operacion float_de_montos
                      (ventana (lit "Retiro") (lit "1000000001") (lit "30") [])
                      mundo_banco))
     = dialogos mundo_banco
       ++ [showinfo (lit "Retiro Exitoso")
             (lit "¡Retiro realizado! Saldo restante: S/. 70.00")].
Proof.
  rewrite (proj1 (retiro_en_formulario float_de_montos
                    (ventana (lit "Retiro") (lit "1000000001") (lit "30") [])
                    mundo_banco (db_de mundo_banco) 0%nat ana 30%float
                    eq_refl eq_refl eq_refl eq_refl eq_refl
                    ltac:(discriminate) eq_refl eq_refl eq_refl eq_refl eq_refl)).
  split; [reflexivity|]. vm_compute. reflexivity.
Defined.
